(** * Signature-based authorization protocol of the minimum data space

    A shallow embedding of the three services that host the protocol,

      - [PublicKeyRegistry]  (support-system/public-key-registry/app/main.py),
      - [FederatedCatalog]   (support-system/federated-catalog/app/main.py),
      - [LocalCatalogAuthz]  (user-env/local-catalog-authz/app/main.py),

    followed by the properties of the specification that concern them.

    Python exceptions are values of [exn]; a computation that may raise is a
    [result]; a handler maps the committed tables and a request to a
    [result] carrying its JSON payload and the tables after [db.commit()].
    A handler that raises commits nothing.  The libraries the services call
    (ecdsa, base64, datetime, requests, str() of an exception) and the
    wall clock are the fields of a [World]. *)

From Stdlib Require Import Ascii.
From stdpp Require Import gmap strings list fin_maps pretty.

Local Open Scope string_scope.
Local Open Scope Z_scope.

(** ** Python exceptions and results *)

Inductive type_error :=
| ConcatStrNone          (* str + None *)
| CompareNaiveAware.     (* offset-naive compared with offset-aware *)

Inductive exn :=
| HTTPException (status_code : Z) (detail : string)
| BadSignatureError
| TypeError (why : type_error)
| LibraryError (cls : string) (msg : string).
    (* any other subclass of Exception raised by a library call *)

Inductive result (A : Type) :=
| Return (a : A)
| Raise (e : exn).
Arguments Return {A} a.
Arguments Raise {A} e.

#[global] Instance result_ret : MRet result := λ A a, Return a.
#[global] Instance result_bind : MBind result := λ A B f m,
  match m with
  | Return a => f a
  | Raise e => Raise e
  end.

(** [try: body except Exception as e: handler e] *)
Definition try_except {A} (body : result A) (handler : exn → result A) : result A :=
  match body with
  | Return a => Return a
  | Raise e => handler e
  end.

(** [if cond: raise e] *)
Definition raise_if (cond : bool) (e : exn) : result unit :=
  if cond then Raise e else Return ().

Definition returns {A} (r : result A) : bool :=
  match r with Return _ => true | Raise _ => false end.

(** ** Strings *)

(** [s.replace(c, by)] for a one-character pattern [c]. *)
Fixpoint replace_char (c : ascii) (by_ : string) (s : string) : string :=
  match s with
  | EmptyString => EmptyString
  | String a rest =>
      if Ascii.eqb a c then by_ +:+ replace_char c by_ rest
      else String a (replace_char c by_ rest)
  end.

(** [a + b] where [b] may be [None]: Python raises TypeError. *)
Definition str_add (a : string) (b : option string) : result string :=
  match b with
  | Some s => Return (a +:+ s)
  | None => Raise (TypeError ConcatStrNone)
  end.

(** [x or ''], for [x] a string or None: a falsy [x] is None or the empty
    string, and both give the empty string. *)
Definition or_empty (x : option string) : string :=
  match x with
  | Some s => s
  | None => EmptyString
  end.

(** ** datetime *)

(** A datetime is its wall-clock reading in microseconds and, when it is
    offset-aware, its UTC offset in microseconds. *)
Record datetime := { wall : Z; utcoffset : option Z }.

Definition aware (utc_instant : Z) : datetime :=
  {| wall := utc_instant; utcoffset := Some 0 |}.
Definition naive (reading : Z) : datetime :=
  {| wall := reading; utcoffset := None |}.

(** [a > b] on datetimes: aware values compare by UTC instant, naive values
    by reading, and a mixed comparison raises TypeError. *)
Definition datetime_gt (a b : datetime) : result bool :=
  match utcoffset a, utcoffset b with
  | Some oa, Some ob => Return (bool_decide (wall b - ob < wall a - oa))
  | None, None => Return (bool_decide (wall b < wall a))
  | _, _ => Raise (TypeError CompareNaiveAware)
  end.

(** The instant a [DateTime(timezone=True)] column holds for a datetime; the
    database session runs in UTC, so a naive value is taken as UTC. *)
Definition timestamptz (d : datetime) : Z :=
  match utcoffset d with
  | Some o => wall d - o
  | None => wall d
  end.

(** ** HTTP *)

(** [requests.Response]: the status and what [res.json()] gives.  A body
    that is not a JSON object of strings is a [Raise]: [data.get] would
    raise on it inside the same [try]. *)
Record Response := {
  status_code_of : Z;
  json : result (gmap string string)
}.

(** What FastAPI sends for a handler's outcome. *)
Inductive http_response (P : Type) :=
| Ok200 (body : P)
| ErrorResponse (status : Z) (detail : string)
| InternalServerError.
Arguments Ok200 {P} body.
Arguments ErrorResponse {P} status detail.
Arguments InternalServerError {P}.

Definition respond {P S} (r : result (P * S)) : http_response P :=
  match r with
  | Return (p, _) => Ok200 p
  | Raise (HTTPException st d) => ErrorResponse st d
  | Raise _ => InternalServerError
  end.

Definition status_of {P} (r : http_response P) : Z :=
  match r with
  | Ok200 _ => 200
  | ErrorResponse st _ => st
  | InternalServerError => 500
  end.

(** The tables after the request: a handler that raises commits nothing. *)
Definition committed {P S} (before : S) (r : result (P * S)) : S :=
  match r with
  | Return (_, after) => after
  | Raise _ => before
  end.

(** What a client observes of a request and what the store holds after it:
    the exception the handler raised, if any, and the committed tables. *)
Definition failure {A} (r : result A) : option exn :=
  match r with
  | Return _ => None
  | Raise e => Some e
  end.

Definition outcome {P S} (before : S) (r : result (P * S)) : option exn * S :=
  (failure r, committed before r).

(** Response classes of the external interface. *)
Inductive response_class :=
| Success
| NotFoundResponse
| ForbiddenResponse
| ClientErrorResponse
| ServerErrorResponse
| OtherResponse.

Definition classify (status : Z) : response_class :=
  if bool_decide (200 ≤ status < 300) then Success
  else if bool_decide (status = 404) then NotFoundResponse
  else if bool_decide (status = 403) then ForbiddenResponse
  else if bool_decide (400 ≤ status < 500) then ClientErrorResponse
  else if bool_decide (500 ≤ status < 600) then ServerErrorResponse
  else OtherResponse.

(** ** The world outside the services *)

Record World := {
  VerifyingKey : Type;
  (* ecdsa.VerifyingKey.from_pem; the argument is None when the directory's
     reply carried no "public_key" *)
  from_pem : option string → result VerifyingKey;
  (* base64.b64decode *)
  b64decode : string → result string;
  (* vk.verify(signature, data): True, or raises BadSignatureError *)
  vk_verify : VerifyingKey → string → string → result bool;
  (* datetime.fromisoformat *)
  fromisoformat : string → result datetime;
  (* datetime.isoformat *)
  isoformat : datetime → string;
  (* str(e), as an f-string renders an exception *)
  str_exn : exn → string;
  (* the UTC wall clock, in microseconds *)
  clock : Z;
  (* requests.get(url): a reply, or a transport exception *)
  requests_get : string → result Response
}.

(** [message.encode("utf-8")]: strings are held as their UTF-8 bytes. *)
Definition encode_utf8 (message : string) : string := message.

(** [datetime.now(timezone.utc)] and [datetime.utcnow()] *)
Definition now_utc (w : World) : datetime := aware (clock w).
Definition utcnow (w : World) : datetime := naive (clock w).

(** The body shared by the three [verify_signature]s, up to the [except]
    clauses: decode the key, decode the signature, verify. *)
Definition ecdsa_verify (w : World) (public_key_pem : option string)
    (message signature_b64 : string) : result bool :=
  vk ← from_pem w public_key_pem;
  signature ← b64decode w signature_b64;
  _ ← vk_verify w vk signature (encode_utf8 message);
  mret true.

(** ** The database

    The tables of the three services are finite maps from primary keys to
    rows; a query is a lookup and cannot fail.  That is the database for the
    texts it stores.  The PostgreSQL driver refuses a text that holds the
    character NUL (it raises ValueError before the query is sent), and an
    indexed text must fit an index entry (some 2700 bytes).  The statements
    below that promise an answer of a handler that reaches the database are
    therefore made for [storable] texts: no NUL, at most 2000 bytes. *)
Fixpoint no_NUL (s : string) : bool :=
  match s with
  | EmptyString => true
  | String c rest => negb (Ascii.eqb c Ascii.zero) && no_NUL rest
  end.

Definition storable (s : string) : bool :=
  no_NUL s && (String.length s <=? 2000)%nat.

(** * Public key registry *)

Module PublicKeyRegistry.

(** A row of [public_keys] without its primary key [user_id], which is the
    key of the table below. *)
Record PublicKey := {
  public_key : string;
  registered_at : option datetime
}.

(** The table [public_keys], keyed by its primary key [user_id]. *)
Abbreviation Table := (gmap string PublicKey).

Record RegisterRequest := {
  reg_user_id : string;
  reg_public_key : string;
  reg_signature : string;
  reg_expire_time : string
}.

Record DeleteRequest := {
  del_user_id : string;
  del_public_key : string;
  del_signature : string;
  del_expire_time : string
}.

Definition verify_signature (w : World) (public_key_pem message signature_b64 : string)
    : bool :=
  match ecdsa_verify w (Some public_key_pem) message signature_b64 with
  | Return b => b
  | Raise BadSignatureError => false
  | Raise _ => false          (* printed, then False *)
  end.

Definition check_expire_time (w : World) (expire_time_str : string) : result bool :=
  expire_dt ← try_except (fromisoformat w (replace_char "Z" "+00:00" expire_time_str))
                (λ _, Raise (HTTPException 400 "Invalid expire_time format"));
  let now_dt := now_utc w in
  late ← datetime_gt now_dt expire_dt;
  if late : bool then Raise (HTTPException 400 "Signature expired")
  else Return true.

Definition add_key (w : World) (db : Table) (req : RegisterRequest)
    : result (string * Table) :=
  let msg := reg_user_id req +:+ reg_public_key req +:+ reg_expire_time req in
  fresh ← check_expire_time w (reg_expire_time req);
  _ ← raise_if (negb fresh) (HTTPException 400 "Expired signature");
  _ ← raise_if (negb (verify_signature w (reg_public_key req) msg (reg_signature req)))
        (HTTPException 400 "Invalid signature");
  _ ← raise_if (bool_decide (is_Some (db !! reg_user_id req)))
        (HTTPException 409 "UserID already registered");
  let new_key := {| public_key := reg_public_key req;
                    registered_at := Some (utcnow w) |} in
  mret ("Key for '" +:+ reg_user_id req +:+ "' registered successfully.",
        <[reg_user_id req := new_key]> db).

Record KeyInfo := {
  info_user_id : string;
  info_public_key : string;
  info_registered_at : option string
}.

Definition key_info (w : World) (row : string * PublicKey) : KeyInfo :=
  {| info_user_id := row.1;
     info_public_key := public_key row.2;
     info_registered_at := isoformat w <$> registered_at row.2 |}.

Definition get_key (w : World) (db : Table) (uid : string)
    : result (KeyInfo * Table) :=
  match db !! uid with
  | None => Raise (HTTPException 404 "Key not found")
  | Some key => mret (key_info w (uid, key), db)
  end.

Definition delete_key (w : World) (db : Table) (req : DeleteRequest)
    : result (string * Table) :=
  let msg := del_user_id req +:+ del_public_key req +:+ del_expire_time req in
  fresh ← check_expire_time w (del_expire_time req);
  _ ← raise_if (negb fresh) (HTTPException 400 "Expired signature");
  _ ← raise_if (negb (verify_signature w (del_public_key req) msg (del_signature req)))
        (HTTPException 400 "Invalid signature");
  match db !! del_user_id req with
  | None => Raise (HTTPException 404 "Key not found")
  | Some key =>
      mret ("Key for '" +:+ del_user_id req +:+ "' deleted successfully.",
            delete (del_user_id req) db)
  end.

Definition list_keys (w : World) (db : Table) : result (list KeyInfo * Table) :=
  mret (key_info w <$> map_to_list db, db).

Definition delete_all_keys (db : Table) : result (string * Table) :=
  let count := size db in
  mret ("All " +:+ pretty count +:+ " keys deleted successfully.", (∅ : Table)).

(** The requests the service accepts. *)
Inductive request :=
| Add (req : RegisterRequest)
| Get (uid : string)
| Delete (req : DeleteRequest)
| List
| DeleteAll.

Definition serve (w : World) (db : Table) (rq : request) : option exn * Table :=
  match rq with
  | Add req => outcome db (add_key w db req)
  | Get uid => outcome db (get_key w db uid)
  | Delete req => outcome db (delete_key w db req)
  | List => outcome db (list_keys w db)
  | DeleteAll => outcome db (delete_all_keys db)
  end.

Definition expire_time_of (rq : request) : option string :=
  match rq with
  | Add req => Some (reg_expire_time req)
  | Delete req => Some (del_expire_time req)
  | _ => None
  end.

End PublicKeyRegistry.

(** * Federated catalog *)

Module FederatedCatalog.

Definition PUBLIC_KEY_REGISTRY_URL : string := "http://host.docker.internal:60000".

(** A row of [federated_catalog] without its primary key [data_id]. *)
Record FederatedCatalog := {
  user_id : string;
  description : string;
  endpoint : string;
  created_at : datetime
}.

Abbreviation Table := (gmap string FederatedCatalog).

Record CatalogItem := {
  item_data_id : string;
  item_user_id : string;
  item_description : string;
  item_endpoint : string;
  item_signature : string;
  item_expire_time : string
}.

Record DeleteRequest := {
  del_user_id : string;
  del_signature : string;
  del_expire_time : string
}.

Definition get_public_key (w : World) (uid : string) : result (option string) :=
  try_except
    (res ← requests_get w (PUBLIC_KEY_REGISTRY_URL +:+ "/get/" +:+ uid);
     _ ← raise_if (bool_decide (status_code_of res ≠ 200))
           (HTTPException 403 "Public key not found.");
     data ← json res;
     let fetched_pubkey_pem := data !! "public_key" in
     mret fetched_pubkey_pem)
    (λ e, Raise (HTTPException 500 ("Failed to fetch public key: " +:+ str_exn w e))).

Definition verify_signature (w : World) (public_key_pem : option string)
    (message signature_b64 : string) : result bool :=
  match ecdsa_verify w public_key_pem message signature_b64 with
  | Return b => Return b
  | Raise BadSignatureError => Raise (HTTPException 403 "Invalid signature.")
  | Raise e =>
      Raise (HTTPException 400 ("Signature verification error: " +:+ str_exn w e))
  end.

Definition check_expire_time (w : World) (expire_time_str : string) : result bool :=
  expire_dt ← try_except (fromisoformat w (replace_char "Z" "+00:00" expire_time_str))
                (λ _, Raise (HTTPException 400 "Invalid expire_time format"));
  let now_dt := now_utc w in
  late ← datetime_gt now_dt expire_dt;
  if late : bool then Raise (HTTPException 400 "Signature expired")
  else Return true.

Definition add_entry (w : World) (db : Table) (item : CatalogItem)
    : result ((string * CatalogItem) * Table) :=
  fetched_pubkey_pem ← get_public_key w (item_user_id item);
  let message := item_data_id item +:+ item_user_id item +:+ item_description item
                 +:+ item_endpoint item +:+ item_expire_time item in
  _ ← check_expire_time w (item_expire_time item);
  _ ← verify_signature w fetched_pubkey_pem message (item_signature item);
  _ ← raise_if (bool_decide (is_Some (db !! item_data_id item)))
        (HTTPException 400 "DataID already exists.");
  let entry := {| user_id := item_user_id item;
                  description := item_description item;
                  endpoint := item_endpoint item;
                  created_at := utcnow w |} in
  mret (("Added successfully.", item), <[item_data_id item := entry]> db).

Definition delete_entry (w : World) (db : Table) (data_id : string) (req : DeleteRequest)
    : result (string * Table) :=
  public_key ← get_public_key w (del_user_id req);
  let message := data_id +:+ del_user_id req +:+ del_expire_time req in
  _ ← check_expire_time w (del_expire_time req);
  _ ← verify_signature w public_key message (del_signature req);
  match db !! data_id with
  | None => Raise (HTTPException 404 "DataID not found.")
  | Some entry =>
      _ ← raise_if (bool_decide (user_id entry ≠ del_user_id req))
            (HTTPException 403 "User not authorized.");
      mret (data_id +:+ " deleted successfully.", delete data_id db)
  end.

Definition get_by_dataid (db : Table) (data_id : string)
    : result ((string * FederatedCatalog) * Table) :=
  match db !! data_id with
  | None => Raise (HTTPException 404 "DataID not found.")
  | Some entry => mret ((data_id, entry), db)
  end.

Definition reset_all (db : Table) : result (string * Table) :=
  let num_deleted := size db in
  mret ("All " +:+ pretty num_deleted +:+ " entries deleted.", (∅ : Table)).

(** The rows of one owner, as [search_by_user_id] lists them. *)
Definition search_by_user_id (db : Table) (uid : string)
    : result (list (string * FederatedCatalog) * Table) :=
  mret (filter (λ r, user_id r.2 = uid) (map_to_list db), db).

(** The requests the service accepts, but for the keyword search, which
    like [search_by_user_id] only reads. *)
Inductive request :=
| Add (item : CatalogItem)
| Delete (data_id : string) (req : DeleteRequest)
| Get (data_id : string)
| Reset
| SearchByUserId (uid : string).

Definition serve (w : World) (db : Table) (rq : request) : option exn * Table :=
  match rq with
  | Add item => outcome db (add_entry w db item)
  | Delete d req => outcome db (delete_entry w db d req)
  | Get d => outcome db (get_by_dataid db d)
  | Reset => outcome db (reset_all db)
  | SearchByUserId uid => outcome db (search_by_user_id db uid)
  end.

Definition expire_time_of (rq : request) : option string :=
  match rq with
  | Add item => Some (item_expire_time item)
  | Delete _ req => Some (del_expire_time req)
  | _ => None
  end.

End FederatedCatalog.

(** * Local catalog with authorizations *)

Module LocalCatalogAuthz.

Definition PUBLIC_KEY_REGISTRY_URL : string := "http://host.docker.internal:60000".

(** A row of [local_catalog] without its primary key [data_id]. *)
Record LocalCatalog := {
  description : option string;
  admin_id : string;
  endpoint : string;
  created_at : datetime
}.

(** A row of [local_authorization] without its primary key
    [(data_id, access_grantee_id)]; [data_id] is a foreign key into
    [local_catalog]. *)
Record LocalAuthorization := {
  expire_at : datetime;
  authz_created_at : datetime
}.

Record Tables := {
  local_catalog : gmap string LocalCatalog;
  local_authorization : gmap (string * string) LocalAuthorization
}.

Record DataItem := {
  item_data_id : string;
  item_description : option string;
  item_admin_id : string;
  item_endpoint : string;
  item_expire_time : string;
  item_signature : string
}.

Record AuthZItem := {
  authz_data_id : string;
  authz_access_grantee_id : string;
  authz_expire_at : string;
  authz_expire_time : string;
  authz_signature : string
}.

Record SignedGetRequest := {
  get_admin_id : string;
  get_expire_time : string;
  get_signature : string
}.

Record SignedDeleteCatalogRequest := {
  del_description : option string;
  del_admin_id : string;
  del_endpoint : string;
  del_expire_time : string;
  del_signature : string
}.

Record SignedDeleteAuthZRequest := {
  delz_expire_time : string;
  delz_signature : string
}.

Definition get_public_key (w : World) (uid : string) : result (option string) :=
  try_except
    (res ← requests_get w (PUBLIC_KEY_REGISTRY_URL +:+ "/get/" +:+ uid);
     _ ← raise_if (bool_decide (status_code_of res ≠ 200))
           (HTTPException 403 "Public key not found.");
     data ← json res;
     let fetched_pubkey_pem := data !! "public_key" in
     mret fetched_pubkey_pem)
    (λ e, Raise (HTTPException 500 ("Failed to fetch public key: " +:+ str_exn w e))).

Definition verify_signature (w : World) (public_key_pem : option string)
    (message signature_b64 : string) : result bool :=
  match ecdsa_verify w public_key_pem message signature_b64 with
  | Return b => Return b
  | Raise BadSignatureError => Raise (HTTPException 403 "Invalid signature.")
  | Raise e =>
      Raise (HTTPException 400 ("Signature verification error: " +:+ str_exn w e))
  end.

Definition check_expire_time (w : World) (expire_time_str : string) : result bool :=
  expire_dt ← try_except (fromisoformat w (replace_char "Z" "+00:00" expire_time_str))
                (λ _, Raise (HTTPException 400 "Invalid expire_time format"));
  let now_dt := now_utc w in
  late ← datetime_gt now_dt expire_dt;
  if late : bool then Raise (HTTPException 400 "Signature expired")
  else Return true.

Definition get_admin_id_by_data_id (w : World) (db : Tables) (data_id : string)
    : result string :=
  try_except
    (match local_catalog db !! data_id with
     | None =>
         Raise (HTTPException 404 ("DataID '" +:+ data_id +:+ "' not found in catalog."))
     | Some entry => Return (admin_id entry)
     end)
    (λ e, Raise (HTTPException 500
                   ("Failed to retrieve admin_id for DataID '" +:+ data_id +:+ "': "
                    +:+ str_exn w e))).

Definition add_data (w : World) (db : Tables) (item : DataItem)
    : result (string * Tables) :=
  _ ← check_expire_time w (item_expire_time item);
  fetched_pubkey_pem ← get_public_key w (item_admin_id item);
  head ← str_add (item_data_id item) (item_description item);
  let msg := head +:+ item_admin_id item +:+ item_endpoint item
             +:+ item_expire_time item in
  _ ← verify_signature w fetched_pubkey_pem msg (item_signature item);
  _ ← raise_if (bool_decide (is_Some (local_catalog db !! item_data_id item)))
        (HTTPException 400 "DataID already exists.");
  let new_entry := {| description := item_description item;
                      admin_id := item_admin_id item;
                      endpoint := item_endpoint item;
                      (* server_default=func.now(): the database's clock, taken to
                         read as the service's *)
                      created_at := now_utc w |} in
  mret ("Data " +:+ item_data_id item +:+ " registered successfully.",
        {| local_catalog := <[item_data_id item := new_entry]> (local_catalog db);
           local_authorization := local_authorization db |}).

Definition add_authz (w : World) (db : Tables) (item : AuthZItem)
    : result (string * Tables) :=
  _ ← check_expire_time w (authz_expire_time item);
  admin ← get_admin_id_by_data_id w db (authz_data_id item);
  fetched_pubkey_pem ← get_public_key w admin;
  let msg := authz_data_id item +:+ authz_access_grantee_id item
             +:+ authz_expire_at item +:+ authz_expire_time item in
  _ ← verify_signature w fetched_pubkey_pem msg (authz_signature item);
  _ ← raise_if (negb (bool_decide (is_Some (local_catalog db !! authz_data_id item))))
        (HTTPException 404 "DataID not found.");
  let existing :=
    local_authorization db !! (authz_data_id item, authz_access_grantee_id item) in
  _ ← raise_if (bool_decide (is_Some existing))
        (HTTPException 400 "AuthZ already exists.");
  expire_dt ← try_except (fromisoformat w (replace_char "Z" "+00:00" (authz_expire_at item)))
                (λ _, Raise (HTTPException 400 "Invalid expire_at format"));
  (* created_at: server_default=func.now(), as in [add_data] *)
  let new_authz := {| expire_at := expire_dt; authz_created_at := now_utc w |} in
  mret ("AuthZ added for " +:+ authz_access_grantee_id item +:+ " (expires "
        +:+ authz_expire_at item +:+ ").",
        {| local_catalog := local_catalog db;
           local_authorization :=
             <[(authz_data_id item, authz_access_grantee_id item) := new_authz]>
               (local_authorization db) |}).

Definition get_data (w : World) (db : Tables) (data_id : string) (req : SignedGetRequest)
    : result ((string * LocalCatalog) * Tables) :=
  match local_catalog db !! data_id with
  | None => Raise (HTTPException 404 "DataID not found.")
  | Some entry =>
      _ ← raise_if (bool_decide (get_admin_id req ≠ admin_id entry))
            (HTTPException 403 "User not authorized.");
      _ ← check_expire_time w (get_expire_time req);
      fetched_pubkey_pem ← get_public_key w (get_admin_id req);
      _ ← verify_signature w fetched_pubkey_pem (get_expire_time req) (get_signature req);
      mret ((data_id, entry), db)
  end.

(** The grants of [data_id] whose deadline is strictly after [now]. *)
Definition valid_authz (db : Tables) (data_id : string) (now : Z)
    : list (string * datetime) :=
  (λ r : (string * string) * LocalAuthorization, (r.1.2, expire_at r.2)) <$>
    filter (λ r : (string * string) * LocalAuthorization,
              r.1.1 = data_id ∧ now < timestamptz (expire_at r.2))
           (map_to_list (local_authorization db)).

Record AuthzReport := {
  report_data_id : string;
  valid_authz_count : nat;
  report_valid_authz : list (string * datetime)
}.

Definition get_authz (w : World) (db : Tables) (data_id : string) (req : SignedGetRequest)
    : result (AuthzReport * Tables) :=
  match local_catalog db !! data_id with
  | None => Raise (HTTPException 404 "DataID not found.")
  | Some entry =>
      _ ← raise_if (bool_decide (get_admin_id req ≠ admin_id entry))
            (HTTPException 403 "User not authorized.");
      _ ← check_expire_time w (get_expire_time req);
      fetched_pubkey_pem ← get_public_key w (get_admin_id req);
      _ ← verify_signature w fetched_pubkey_pem (get_expire_time req) (get_signature req);
      let now := timestamptz (now_utc w) in
      let results := valid_authz db data_id now in
      mret ({| report_data_id := data_id;
               valid_authz_count := length results;
               report_valid_authz := results |}, db)
  end.

(** [db.delete(entry)]: the row goes, and with it every authorization row
    whose foreign key names it (the relationship's delete cascade). *)
Definition delete_cascade (db : Tables) (data_id : string) : Tables :=
  {| local_catalog := delete data_id (local_catalog db);
     local_authorization :=
       filter (λ r : (string * string) * LocalAuthorization, r.1.1 ≠ data_id)
              (local_authorization db) |}.

Definition delete_data (w : World) (db : Tables) (data_id : string)
    (req : SignedDeleteCatalogRequest) : result (string * Tables) :=
  match local_catalog db !! data_id with
  | None => Raise (HTTPException 404 "DataID not found.")
  | Some entry =>
      _ ← raise_if (bool_decide (data_id ≠ data_id)
                    || bool_decide (del_admin_id req ≠ admin_id entry)
                    || bool_decide (del_endpoint req ≠ endpoint entry)
                    || bool_decide (or_empty (del_description req)
                                    ≠ or_empty (description entry)))
            (HTTPException 400 "Request data does not match stored record.");
      _ ← check_expire_time w (del_expire_time req);
      fetched_pubkey_pem ← get_public_key w (del_admin_id req);
      head ← str_add data_id (del_description req);
      let msg := head +:+ del_admin_id req +:+ del_endpoint req
                 +:+ del_expire_time req in
      _ ← verify_signature w fetched_pubkey_pem msg (del_signature req);
      mret ("Data " +:+ data_id +:+ " and related AuthZ entries deleted.",
            delete_cascade db data_id)
  end.

Definition delete_authz (w : World) (db : Tables) (data_id access_grantee_id : string)
    (req : SignedDeleteAuthZRequest) : result (string * Tables) :=
  match local_authorization db !! (data_id, access_grantee_id) with
  | None => Raise (HTTPException 404 "AuthZ not found.")
  | Some auth =>
      _ ← check_expire_time w (delz_expire_time req);
      admin ← get_admin_id_by_data_id w db data_id;
      fetched_pubkey_pem ← get_public_key w admin;
      let msg := data_id +:+ access_grantee_id +:+ delz_expire_time req in
      _ ← verify_signature w fetched_pubkey_pem msg (delz_signature req);
      mret ("AuthZ for " +:+ access_grantee_id +:+ " on " +:+ data_id +:+ " deleted.",
            {| local_catalog := local_catalog db;
               local_authorization :=
                 delete (data_id, access_grantee_id) (local_authorization db) |})
  end.

Record DebugReport := {
  catalog_count : nat;
  authz_count : nat;
  catalog_rows : list (string * LocalCatalog);
  authz_rows : list ((string * string) * LocalAuthorization)
}.

Definition debug_all (db : Tables) : result (DebugReport * Tables) :=
  let data := map_to_list (local_catalog db) in
  let authz := map_to_list (local_authorization db) in
  mret ({| catalog_count := length data;
           authz_count := length authz;
           catalog_rows := data;
           authz_rows := authz |}, db).

Definition reset_all (db : Tables) : result (string * Tables) :=
  let num_authz := size (local_authorization db) in
  let num_data := size (local_catalog db) in
  mret ("Reset done: " +:+ pretty num_data +:+ " catalog, " +:+ pretty num_authz
        +:+ " authz removed.",
        {| local_catalog := ∅; local_authorization := ∅ |}).

Inductive request :=
| AddData (item : DataItem)
| AddAuthz (item : AuthZItem)
| GetData (data_id : string) (req : SignedGetRequest)
| GetAuthz (data_id : string) (req : SignedGetRequest)
| DeleteData (data_id : string) (req : SignedDeleteCatalogRequest)
| DeleteAuthz (data_id access_grantee_id : string) (req : SignedDeleteAuthZRequest)
| DebugAll
| Reset.

Definition serve (w : World) (db : Tables) (rq : request) : option exn * Tables :=
  match rq with
  | AddData item => outcome db (add_data w db item)
  | AddAuthz item => outcome db (add_authz w db item)
  | GetData d req => outcome db (get_data w db d req)
  | GetAuthz d req => outcome db (get_authz w db d req)
  | DeleteData d req => outcome db (delete_data w db d req)
  | DeleteAuthz d g req => outcome db (delete_authz w db d g req)
  | DebugAll => outcome db (debug_all db)
  | Reset => outcome db (reset_all db)
  end.

Definition expire_time_of (rq : request) : option string :=
  match rq with
  | AddData item => Some (item_expire_time item)
  | AddAuthz item => Some (authz_expire_time item)
  | GetData _ req | GetAuthz _ req => Some (get_expire_time req)
  | DeleteData _ req => Some (del_expire_time req)
  | DeleteAuthz _ _ req => Some (delz_expire_time req)
  | DebugAll | Reset => None
  end.

(** The tables a sequence of requests leads to, each served in its own world. *)
Fixpoint run (db : Tables) (trace : list (World * request)) : Tables :=
  match trace with
  | [] => db
  | (w, rq) :: rest => run (serve w db rq).2 rest
  end.

Definition empty_tables : Tables :=
  {| local_catalog := ∅; local_authorization := ∅ |}.

(** The grants on file for [data_id]. *)
Definition grants_of (db : Tables) (data_id : string)
    : gmap (string * string) LocalAuthorization :=
  filter (λ r : (string * string) * LocalAuthorization, r.1.1 = data_id)
         (local_authorization db).

End LocalCatalogAuthz.

(** * Notions the properties are stated with *)

(** The failures of the error taxonomy as the services raise them. *)
Definition Expired : exn := HTTPException 400 "Signature expired".
Definition Forbidden : exn := HTTPException 403 "User not authorized.".
Definition DuplicateGrant : exn := HTTPException 400 "AuthZ already exists.".

(** The response class of a raised exception: FastAPI answers an
    HTTPException with its status and anything else with 500. *)
Definition class_of (e : exn) : response_class :=
  match e with
  | HTTPException st _ => classify st
  | _ => classify 500
  end.

(** The UTC instant an [expire_time] string denotes, when it parses to an
    offset-aware datetime. *)
Definition parsed_expiry (w : World) (expire_time_str : string) : option Z :=
  match fromisoformat w (replace_char "Z" "+00:00" expire_time_str) with
  | Return d =>
      match utcoffset d with
      | Some o => Some (wall d - o)
      | None => None
      end
  | Raise _ => None
  end.

(** The same world with the clock reading [t]. *)
Definition at_time (w : World) (t : Z) : World :=
  {| VerifyingKey := VerifyingKey w;
     from_pem := from_pem w;
     b64decode := b64decode w;
     vk_verify := vk_verify w;
     fromisoformat := fromisoformat w;
     isoformat := isoformat w;
     str_exn := str_exn w;
     clock := t;
     requests_get := requests_get w |}.

(** A handler [h] turns a request down in world [w] for being late: it
    raises, and it raises [Expired] when the same request on the same tables
    is served at some other time. *)
Definition rejects_late {A} (h : World → result A) (w : World) : Prop :=
  (∃ err, h w = Raise err)
  ∧ ∀ t0, returns (h (at_time w t0)) = true → h w = Raise Expired.

(** The rule of the specification for the destruction of key records: a
    record goes only through a remove request that submits the very key on
    file for the identity and is signed with it. *)
Definition destroyed_only_by_matching_signed_delete : Prop :=
  ∀ (w : World) (db : gmap string PublicKeyRegistry.PublicKey)
    (rq : PublicKeyRegistry.request) (uid : string) (key : PublicKeyRegistry.PublicKey),
    db !! uid = Some key →
    (PublicKeyRegistry.serve w db rq).2 !! uid = None →
    ∃ req, rq = PublicKeyRegistry.Delete req
           ∧ PublicKeyRegistry.del_user_id req = uid
           ∧ PublicKeyRegistry.del_public_key req = PublicKeyRegistry.public_key key
           ∧ PublicKeyRegistry.verify_signature w (PublicKeyRegistry.public_key key)
               (uid +:+ PublicKeyRegistry.public_key key
                +:+ PublicKeyRegistry.del_expire_time req)
               (PublicKeyRegistry.del_signature req) = true.

(** A verifier [verify] tells its two failures apart: what its caller gets
    for a signature that does not verify ([BadSignatureError]) differs from
    what it gets when decoding the key or the signature raised anything
    else. *)
Definition distinguishes {K A} (pem : K → option string)
    (verify : World → K → string → string → A) : Prop :=
  ∀ w k1 m1 s1 k2 m2 s2 e,
    ecdsa_verify w (pem k1) m1 s1 = Raise BadSignatureError →
    ecdsa_verify w (pem k2) m2 s2 = Raise e → e ≠ BadSignatureError →
    verify w k1 m1 s1 ≠ verify w k2 m2 s2.

(** The rule of the specification: every service that hosts the verifier
    tells the two failures apart. *)
Definition every_verifier_distinguishes : Prop :=
  distinguishes Some PublicKeyRegistry.verify_signature
  ∧ distinguishes id FederatedCatalog.verify_signature
  ∧ distinguishes id LocalCatalogAuthz.verify_signature.

(** A grant request passes the checks that [add_authz] makes before it
    looks for an existing grant: its [expire_time] is accepted, the resource
    is on file, its administrator's key resolves and the signature verifies
    against it. *)
Definition grant_checks_pass (w : World) (db : LocalCatalogAuthz.Tables)
    (item : LocalCatalogAuthz.AuthZItem) : Prop :=
  ∃ entry key,
    LocalCatalogAuthz.check_expire_time w (LocalCatalogAuthz.authz_expire_time item)
      = Return true
    ∧ LocalCatalogAuthz.local_catalog db !! LocalCatalogAuthz.authz_data_id item
      = Some entry
    ∧ LocalCatalogAuthz.get_public_key w (LocalCatalogAuthz.admin_id entry) = Return key
    ∧ LocalCatalogAuthz.verify_signature w key
        (LocalCatalogAuthz.authz_data_id item
         +:+ LocalCatalogAuthz.authz_access_grantee_id item
         +:+ LocalCatalogAuthz.authz_expire_at item
         +:+ LocalCatalogAuthz.authz_expire_time item)
        (LocalCatalogAuthz.authz_signature item) = Return true.

(** No grant without its resource: every row of [local_authorization]
    names a [data_id] that [local_catalog] holds. *)
Definition no_orphans (db : LocalCatalogAuthz.Tables) : Prop :=
  ∀ d g a, LocalCatalogAuthz.local_authorization db !! (d, g) = Some a →
           is_Some (LocalCatalogAuthz.local_catalog db !! d).

(** * A concrete world

    A world in which the definitions above can be run: a key is the text
    after [PEM:], a signature is Base64 text, and a signature verifies when
    its bytes are the key followed by a slash and the message.  The
    directory is a [PublicKeyRegistry] table reached through its [get_key],
    or an unreachable host. *)

Module Demo.

Definition strip_prefix (p s : string) : option string :=
  if String.prefix p s
  then Some (String.substring (String.length p) (String.length s - String.length p) s)
  else None.

Definition demo_from_pem (pem : option string) : result string :=
  match pem with
  | None => Raise (LibraryError "AttributeError" "'NoneType' object has no attribute 'encode'")
  | Some s =>
      match strip_prefix "PEM:" s with
      | Some k => Return k
      | None => Raise (LibraryError "ValueError" "not a PEM block")
      end
  end.

(** [base64.b64encode] and [base64.b64decode] on byte strings.  The decoder
    is the lenient one that [b64decode] is by default ([binascii.a2b_base64]
    without [strict_mode]): a character outside the alphabet is skipped, a
    pad character ends the input once it completes a group of four, and the
    data characters must otherwise fill whole groups. *)
Definition b64_alphabet : string :=
  "ABCDEFGHIJKLMNOPQRSTUVWXYZabcdefghijklmnopqrstuvwxyz0123456789+/".

Fixpoint table_a2b_base64 (alphabet : string) (c : ascii) : option N :=
  match alphabet with
  | EmptyString => None
  | String a rest =>
      if bool_decide (a = c) then Some 0%N else N.succ <$> table_a2b_base64 rest c
  end.

Definition table_b2a_base64 (n : N) : ascii :=
  default ("=" : ascii) (String.get (N.to_nat n) b64_alphabet).

Fixpoint b64encode (s : string) : string :=
  match s with
  | EmptyString => EmptyString
  | String a EmptyString =>
      let x := N_of_ascii a in
      String (table_b2a_base64 (x / 4)%N)
        (String (table_b2a_base64 (x mod 4 * 16)%N) "==")
  | String a (String b EmptyString) =>
      let x := N_of_ascii a in
      let y := N_of_ascii b in
      String (table_b2a_base64 (x / 4)%N)
        (String (table_b2a_base64 (x mod 4 * 16 + y / 16)%N)
           (String (table_b2a_base64 (y mod 16 * 4)%N) "="))
  | String a (String b (String c rest)) =>
      let x := N_of_ascii a in
      let y := N_of_ascii b in
      let z := N_of_ascii c in
      String (table_b2a_base64 (x / 4)%N)
        (String (table_b2a_base64 (x mod 4 * 16 + y / 16)%N)
           (String (table_b2a_base64 (y mod 16 * 4 + z / 64)%N)
              (String (table_b2a_base64 (z mod 64)%N) (b64encode rest))))
  end.

Fixpoint a2b_base64 (s : string) (quad_pos leftchar pads : N) (bin_data : list ascii)
    : result string :=
  match s with
  | EmptyString =>
      if (quad_pos =? 0)%N then Return (String.string_of_list_ascii (rev bin_data))
      else if (quad_pos =? 1)%N then
        Raise (LibraryError "binascii.Error"
                 ("Invalid base64-encoded string: number of data characters ("
                  +:+ pretty (N.of_nat (length bin_data) / 3 * 4 + 1)%N
                  +:+ ") cannot be 1 more than a multiple of 4"))
      else Raise (LibraryError "binascii.Error" "Incorrect padding")
  | String this_ch rest =>
      if bool_decide (this_ch = ("=" : ascii)) then
        if (2 <=? quad_pos)%N then
          if (4 <=? quad_pos + (pads + 1))%N
          then Return (String.string_of_list_ascii (rev bin_data))
          else a2b_base64 rest quad_pos leftchar (pads + 1)%N bin_data
        else a2b_base64 rest quad_pos leftchar pads bin_data
      else
        match table_a2b_base64 b64_alphabet this_ch with
        | None => a2b_base64 rest quad_pos leftchar pads bin_data
        | Some v =>
            match quad_pos with
            | 0%N => a2b_base64 rest 1%N v 0%N bin_data
            | 1%N =>
                a2b_base64 rest 2%N (v mod 16)%N 0%N
                  (ascii_of_N (leftchar * 4 + v / 16)%N :: bin_data)
            | 2%N =>
                a2b_base64 rest 3%N (v mod 4)%N 0%N
                  (ascii_of_N (leftchar * 16 + v / 4)%N :: bin_data)
            | _ =>
                a2b_base64 rest 0%N 0%N 0%N
                  (ascii_of_N (leftchar * 64 + v)%N :: bin_data)
            end
        end
  end.

Fixpoint isascii (s : string) : bool :=
  match s with
  | EmptyString => true
  | String c rest => (N_of_ascii c <? 128)%N && isascii rest
  end.

Definition demo_b64decode (s : string) : result string :=
  if isascii s then a2b_base64 s 0%N 0%N 0%N []
  else Raise (LibraryError "ValueError"
                "string argument should contain only ASCII characters").

Definition demo_vk_verify (vk signature data : string) : result bool :=
  if bool_decide (signature = vk +:+ "/" +:+ data) then Return true
  else Raise BadSignatureError.

(** Three timestamps are known: noon, one o'clock (with and without an
    offset), counted in seconds. *)
Definition demo_fromisoformat (s : string) : result datetime :=
  if bool_decide (s = "2025-11-03T12:00:00+00:00") then Return (aware 43200)
  else if bool_decide (s = "2025-11-03T13:00:00+00:00") then Return (aware 46800)
  else if bool_decide (s = "2025-11-03T13:00:00") then Return (naive 46800)
  else Raise (LibraryError "ValueError" ("Invalid isoformat string: " +:+ s)).

Definition demo_str_exn (e : exn) : string :=
  match e with
  | HTTPException st d => pretty st +:+ ": " +:+ d
  | BadSignatureError => "Signature verification failed"
  | TypeError ConcatStrNone => "can only concatenate str (not NoneType) to str"
  | TypeError CompareNaiveAware => "can't compare offset-naive and offset-aware datetimes"
  | LibraryError _ msg => msg
  end.

Definition offline (now : Z) : World :=
  {| VerifyingKey := string;
     from_pem := demo_from_pem;
     b64decode := demo_b64decode;
     vk_verify := demo_vk_verify;
     fromisoformat := demo_fromisoformat;
     isoformat := λ d, pretty (wall d);
     str_exn := demo_str_exn;
     clock := now;
     requests_get := λ _, Raise (LibraryError "ConnectionError" "connection refused") |}.

(** The reply of the registry's [/get/{user_id}] as [requests] sees it. *)
Definition directory_reply (now : Z) (reg : gmap string PublicKeyRegistry.PublicKey)
    (url : string) : result Response :=
  match strip_prefix (FederatedCatalog.PUBLIC_KEY_REGISTRY_URL +:+ "/get/") url with
  | None =>
      Return {| status_code_of := 404; json := Return {[ "detail" := "Not Found" ]} |}
  | Some uid =>
      match PublicKeyRegistry.get_key (offline now) reg uid with
      | Return (info, _) =>
          Return {| status_code_of := 200;
                    json := Return {[ "user_id" := PublicKeyRegistry.info_user_id info;
                                      "public_key" := PublicKeyRegistry.info_public_key info ]} |}
      | Raise (HTTPException st d) =>
          Return {| status_code_of := st; json := Return {[ "detail" := d ]} |}
      | Raise _ =>
          Return {| status_code_of := 500;
                    json := Raise (LibraryError "JSONDecodeError" "Expecting value") |}
      end
  end.

(** The world at time [now] whose directory holds [reg]. *)
Definition online (now : Z) (reg : gmap string PublicKeyRegistry.PublicKey) : World :=
  {| VerifyingKey := string;
     from_pem := demo_from_pem;
     b64decode := demo_b64decode;
     vk_verify := demo_vk_verify;
     fromisoformat := demo_fromisoformat;
     isoformat := λ d, pretty (wall d);
     str_exn := demo_str_exn;
     clock := now;
     requests_get := directory_reply now reg |}.

Definition sign (key message : string) : string := b64encode (key +:+ "/" +:+ message).

Definition alice_key : PublicKeyRegistry.PublicKey :=
  {| PublicKeyRegistry.public_key := "PEM:alice";
     PublicKeyRegistry.registered_at := Some (naive 0) |}.

Definition bob_key : PublicKeyRegistry.PublicKey :=
  {| PublicKeyRegistry.public_key := "PEM:bob";
     PublicKeyRegistry.registered_at := Some (naive 0) |}.

Definition registry : gmap string PublicKeyRegistry.PublicKey :=
  {[ "alice" := alice_key; "bob" := bob_key ]}.

(** The directory holding [registry], shortly before noon and shortly
    before one o'clock. *)
Definition morning : World := online 43000 registry.
Definition afternoon : World := online 46000 registry.

Definition noon : string := "2025-11-03T12:00:00Z".
Definition one_o_clock : string := "2025-11-03T13:00:00Z".

(** Alice's local resource, with a grant to Bob that ran out at noon. *)
Definition sensor001 : LocalCatalogAuthz.LocalCatalog :=
  {| LocalCatalogAuthz.description := Some "Temperature sensor dataset";
     LocalCatalogAuthz.admin_id := "alice";
     LocalCatalogAuthz.endpoint := "http://edge.local/sensor001";
     LocalCatalogAuthz.created_at := aware 0 |}.

Definition bob_grant : LocalCatalogAuthz.LocalAuthorization :=
  {| LocalCatalogAuthz.expire_at := aware 43200;
     LocalCatalogAuthz.authz_created_at := aware 0 |}.

Definition tables : LocalCatalogAuthz.Tables :=
  {| LocalCatalogAuthz.local_catalog := {[ "sensor001" := sensor001 ]};
     LocalCatalogAuthz.local_authorization := {[ ("sensor001", "bob") := bob_grant ]} |}.

(** Alice's signed read of her resource, valid until noon. *)
Definition alice_get : LocalCatalogAuthz.SignedGetRequest :=
  {| LocalCatalogAuthz.get_admin_id := "alice";
     LocalCatalogAuthz.get_expire_time := noon;
     LocalCatalogAuthz.get_signature := sign "alice" noon |}.

(** Alice's entry in the federated catalog, and Bob's signed request to
    delete it, valid until noon. *)
Definition edge_data_001 : FederatedCatalog.FederatedCatalog :=
  {| FederatedCatalog.user_id := "alice";
     FederatedCatalog.description := "IoT Edge device telemetry data";
     FederatedCatalog.endpoint := "http://edge-device.local/api/telemetry";
     FederatedCatalog.created_at := naive 0 |}.

Definition federated : gmap string FederatedCatalog.FederatedCatalog :=
  {[ "edge_data_001" := edge_data_001 ]}.

Definition bob_delete : FederatedCatalog.DeleteRequest :=
  {| FederatedCatalog.del_user_id := "bob";
     FederatedCatalog.del_signature := sign "bob" ("edge_data_001" +:+ "bob" +:+ noon);
     FederatedCatalog.del_expire_time := noon |}.

(** Bob's signed read of Alice's local resource. *)
Definition bob_get : LocalCatalogAuthz.SignedGetRequest :=
  {| LocalCatalogAuthz.get_admin_id := "bob";
     LocalCatalogAuthz.get_expire_time := noon;
     LocalCatalogAuthz.get_signature := sign "bob" noon |}.

(** Alice grants Bob access until one o'clock, and revokes his grant; both
    requests are valid until one o'clock. *)
Definition alice_grant_bob : LocalCatalogAuthz.AuthZItem :=
  {| LocalCatalogAuthz.authz_data_id := "sensor001";
     LocalCatalogAuthz.authz_access_grantee_id := "bob";
     LocalCatalogAuthz.authz_expire_at := one_o_clock;
     LocalCatalogAuthz.authz_expire_time := one_o_clock;
     LocalCatalogAuthz.authz_signature :=
       sign "alice" ("sensor001" +:+ "bob" +:+ one_o_clock +:+ one_o_clock) |}.

Definition alice_revoke_bob : LocalCatalogAuthz.SignedDeleteAuthZRequest :=
  {| LocalCatalogAuthz.delz_expire_time := one_o_clock;
     LocalCatalogAuthz.delz_signature :=
       sign "alice" ("sensor001" +:+ "bob" +:+ one_o_clock) |}.

(** Alice's resource with two grants, next to a second resource of hers
    with one; her signed requests to delete and to publish the first. *)
Definition camera002 : LocalCatalogAuthz.LocalCatalog :=
  {| LocalCatalogAuthz.description := Some "Surveillance camera dataset";
     LocalCatalogAuthz.admin_id := "alice";
     LocalCatalogAuthz.endpoint := "http://edge.local/camera002";
     LocalCatalogAuthz.created_at := aware 0 |}.

Definition carol_grant : LocalCatalogAuthz.LocalAuthorization :=
  {| LocalCatalogAuthz.expire_at := aware 46800;
     LocalCatalogAuthz.authz_created_at := aware 0 |}.

Definition busy_tables : LocalCatalogAuthz.Tables :=
  {| LocalCatalogAuthz.local_catalog :=
       {[ "sensor001" := sensor001; "camera002" := camera002 ]};
     LocalCatalogAuthz.local_authorization :=
       {[ ("sensor001", "bob") := bob_grant;
          ("sensor001", "carol") := carol_grant;
          ("camera002", "carol") := carol_grant ]} |}.

Definition alice_delete : LocalCatalogAuthz.SignedDeleteCatalogRequest :=
  {| LocalCatalogAuthz.del_description := Some "Temperature sensor dataset";
     LocalCatalogAuthz.del_admin_id := "alice";
     LocalCatalogAuthz.del_endpoint := "http://edge.local/sensor001";
     LocalCatalogAuthz.del_expire_time := one_o_clock;
     LocalCatalogAuthz.del_signature :=
       sign "alice" ("sensor001" +:+ "Temperature sensor dataset" +:+ "alice"
                     +:+ "http://edge.local/sensor001" +:+ one_o_clock) |}.

Definition alice_publish : LocalCatalogAuthz.DataItem :=
  {| LocalCatalogAuthz.item_data_id := "sensor001";
     LocalCatalogAuthz.item_description := Some "Temperature sensor dataset";
     LocalCatalogAuthz.item_admin_id := "alice";
     LocalCatalogAuthz.item_endpoint := "http://edge.local/sensor001";
     LocalCatalogAuthz.item_expire_time := one_o_clock;
     LocalCatalogAuthz.item_signature :=
       sign "alice" ("sensor001" +:+ "Temperature sensor dataset" +:+ "alice"
                     +:+ "http://edge.local/sensor001" +:+ one_o_clock) |}.

(** A resource published with an empty description, and requests that
    leave the description out. *)
Definition blank001 : LocalCatalogAuthz.LocalCatalog :=
  {| LocalCatalogAuthz.description := Some EmptyString;
     LocalCatalogAuthz.admin_id := "alice";
     LocalCatalogAuthz.endpoint := "http://edge.local/blank001";
     LocalCatalogAuthz.created_at := aware 0 |}.

Definition blank_tables : LocalCatalogAuthz.Tables :=
  {| LocalCatalogAuthz.local_catalog := {[ "blank001" := blank001 ]};
     LocalCatalogAuthz.local_authorization := ∅ |}.

Definition publish_without_description : LocalCatalogAuthz.DataItem :=
  {| LocalCatalogAuthz.item_data_id := "sensor002";
     LocalCatalogAuthz.item_description := None;
     LocalCatalogAuthz.item_admin_id := "alice";
     LocalCatalogAuthz.item_endpoint := "http://edge.local/sensor002";
     LocalCatalogAuthz.item_expire_time := one_o_clock;
     LocalCatalogAuthz.item_signature :=
       sign "alice" ("sensor002" +:+ "alice" +:+ "http://edge.local/sensor002"
                     +:+ one_o_clock) |}.

Definition delete_without_description : LocalCatalogAuthz.SignedDeleteCatalogRequest :=
  {| LocalCatalogAuthz.del_description := None;
     LocalCatalogAuthz.del_admin_id := "alice";
     LocalCatalogAuthz.del_endpoint := "http://edge.local/blank001";
     LocalCatalogAuthz.del_expire_time := one_o_clock;
     LocalCatalogAuthz.del_signature :=
       sign "alice" ("blank001" +:+ "alice" +:+ "http://edge.local/blank001"
                     +:+ one_o_clock) |}.

(** Requests to the registry: Alice removes her key; Mallory asks for the
    removal of Alice's record under a key of her own; a registration with a
    wrong signature, and one whose signature is not base64. *)
Definition alice_remove : PublicKeyRegistry.DeleteRequest :=
  {| PublicKeyRegistry.del_user_id := "alice";
     PublicKeyRegistry.del_public_key := "PEM:alice";
     PublicKeyRegistry.del_signature :=
       sign "alice" ("alice" +:+ "PEM:alice" +:+ one_o_clock);
     PublicKeyRegistry.del_expire_time := one_o_clock |}.

Definition mallory_remove : PublicKeyRegistry.DeleteRequest :=
  {| PublicKeyRegistry.del_user_id := "alice";
     PublicKeyRegistry.del_public_key := "PEM:mallory";
     PublicKeyRegistry.del_signature :=
       sign "mallory" ("alice" +:+ "PEM:mallory" +:+ one_o_clock);
     PublicKeyRegistry.del_expire_time := one_o_clock |}.

Definition carol_wrong_signature : PublicKeyRegistry.RegisterRequest :=
  {| PublicKeyRegistry.reg_user_id := "carol";
     PublicKeyRegistry.reg_public_key := "PEM:carol";
     PublicKeyRegistry.reg_signature := "Zm9yZ2Vk";
     PublicKeyRegistry.reg_expire_time := one_o_clock |}.

Definition carol_garbled_signature : PublicKeyRegistry.RegisterRequest :=
  {| PublicKeyRegistry.reg_user_id := "carol";
     PublicKeyRegistry.reg_public_key := "PEM:carol";
     PublicKeyRegistry.reg_signature := "abc";
     PublicKeyRegistry.reg_expire_time := one_o_clock |}.

(** A grant requested for a data_id that is not in the catalog. *)
Definition grant_on_ghost : LocalCatalogAuthz.AuthZItem :=
  {| LocalCatalogAuthz.authz_data_id := "ghost";
     LocalCatalogAuthz.authz_access_grantee_id := "bob";
     LocalCatalogAuthz.authz_expire_at := one_o_clock;
     LocalCatalogAuthz.authz_expire_time := one_o_clock;
     LocalCatalogAuthz.authz_signature :=
       sign "alice" ("ghost" +:+ "bob" +:+ one_o_clock +:+ one_o_clock) |}.

(** Alice publishes her resource, grants Bob access, and deletes the
    resource again. *)
Definition session : list (World * LocalCatalogAuthz.request) :=
  [ (morning, LocalCatalogAuthz.AddData alice_publish);
    (morning, LocalCatalogAuthz.AddAuthz alice_grant_bob);
    (morning, LocalCatalogAuthz.DeleteData "sensor001" alice_delete) ].

End Demo.

(** * The connector's timestamps

    [iso_now_plus] of user-env/connector/app/main.py (the test scripts carry
    the same function): the text the clients put into [expire_time]. *)

Module Connector.

(** [s.replace(old, new)] for a non-empty [old]: every occurrence, left to
    right and without overlap; [skip] counts the characters of a match that
    are still to be passed over. *)
Fixpoint replace_from (old new : string) (skip : nat) (s : string) : string :=
  match s with
  | EmptyString => EmptyString
  | String c rest =>
      match skip with
      | S k => replace_from old new k rest
      | O =>
          if String.prefix old s
          then new +:+ replace_from old new (String.length old - 1) rest
          else String c (replace_from old new 0 rest)
      end
  end.

(** For an empty [old], Python puts [new] before every character and at the
    end. *)
Fixpoint intersperse (new s : string) : string :=
  match s with
  | EmptyString => EmptyString
  | String c rest => String c (new +:+ intersperse new rest)
  end.

Definition str_replace (old new s : string) : string :=
  match old with
  | EmptyString => new +:+ intersperse new s
  | String _ _ => replace_from old new 0 s
  end.

(** The readings a datetime can hold, in microseconds: from year 1 to the
    end of year 9999. *)
Definition datetime_min : Z := -62135596800000000.
Definition datetime_max : Z := 253402300799999999.

(** [timedelta(minutes=minutes)], in microseconds: OverflowError when it
    spans more than 999999999 days. *)
Definition timedelta_minutes (minutes : Z) : result Z :=
  let days := (minutes * 60000000) `div` 86400000000 in
  if bool_decide (-999999999 ≤ days ≤ 999999999)
  then Return (minutes * 60000000)
  else Raise (LibraryError "OverflowError"
                ("days=" +:+ pretty days +:+ "; must have magnitude <= 999999999")).

(** [d + delta]: OverflowError outside datetime's range. *)
Definition datetime_add (d : datetime) (delta : Z) : result datetime :=
  let reading := wall d + delta in
  if bool_decide (datetime_min ≤ reading ≤ datetime_max)
  then Return {| wall := reading; utcoffset := utcoffset d |}
  else Raise (LibraryError "OverflowError" "date value out of range").

Definition iso_now_plus (w : World) (minutes : Z) : result string :=
  delta ← timedelta_minutes minutes;
  later ← datetime_add (now_utc w) delta;
  mret (str_replace "+00:00" "Z" (isoformat w later)).

End Connector.

(** * Further notions *)

(** The text holds no capital Z. *)
Fixpoint no_Z (s : string) : bool :=
  match s with
  | EmptyString => true
  | String c rest => negb (Ascii.eqb c "Z") && no_Z rest
  end.

(** [s] without its first [n] characters. *)
Fixpoint drop_chars (n : nat) (s : string) : string :=
  match n, s with
  | O, _ => s
  | S k, EmptyString => EmptyString
  | S k, String _ rest => drop_chars k rest
  end.

(** The messages the registry's requests are signed over, and whether the
    signature of a request verifies against the key the request submits. *)
Definition register_msg (req : PublicKeyRegistry.RegisterRequest) : string :=
  PublicKeyRegistry.reg_user_id req +:+ PublicKeyRegistry.reg_public_key req
  +:+ PublicKeyRegistry.reg_expire_time req.

Definition remove_msg (req : PublicKeyRegistry.DeleteRequest) : string :=
  PublicKeyRegistry.del_user_id req +:+ PublicKeyRegistry.del_public_key req
  +:+ PublicKeyRegistry.del_expire_time req.

Definition register_verified (w : World) (req : PublicKeyRegistry.RegisterRequest) : bool :=
  PublicKeyRegistry.verify_signature w (PublicKeyRegistry.reg_public_key req)
    (register_msg req) (PublicKeyRegistry.reg_signature req).

Definition remove_verified (w : World) (req : PublicKeyRegistry.DeleteRequest) : bool :=
  PublicKeyRegistry.verify_signature w (PublicKeyRegistry.del_public_key req)
    (remove_msg req) (PublicKeyRegistry.del_signature req).

(** The messages the federated catalog's requests are signed over. *)
Definition publish_msg (item : FederatedCatalog.CatalogItem) : string :=
  FederatedCatalog.item_data_id item +:+ FederatedCatalog.item_user_id item
  +:+ FederatedCatalog.item_description item +:+ FederatedCatalog.item_endpoint item
  +:+ FederatedCatalog.item_expire_time item.

Definition retract_msg (data_id : string) (req : FederatedCatalog.DeleteRequest) : string :=
  data_id +:+ FederatedCatalog.del_user_id req +:+ FederatedCatalog.del_expire_time req.

(** A request in the name of [uid] is authentic for the federated catalog:
    the directory returns a key for [uid], the [expire_time] is accepted and
    the signature over [msg] verifies against that key. *)
Definition federated_authentic (w : World) (uid msg signature expire_time : string)
    : Prop :=
  ∃ key, FederatedCatalog.get_public_key w uid = Return key
         ∧ FederatedCatalog.check_expire_time w expire_time = Return true
         ∧ FederatedCatalog.verify_signature w key msg signature = Return true.

(** The row that [add_entry] files for an item. *)
Definition published_entry (w : World) (item : FederatedCatalog.CatalogItem)
    : FederatedCatalog.FederatedCatalog :=
  {| FederatedCatalog.user_id := FederatedCatalog.item_user_id item;
     FederatedCatalog.description := FederatedCatalog.item_description item;
     FederatedCatalog.endpoint := FederatedCatalog.item_endpoint item;
     FederatedCatalog.created_at := utcnow w |}.

(** The messages the local catalog's requests are signed over; a read is
    signed over its [expire_time] alone. *)
Definition resource_msg (data_id description admin endpoint expire_time : string)
    : string :=
  (data_id +:+ description) +:+ admin +:+ endpoint +:+ expire_time.

Definition grant_msg (item : LocalCatalogAuthz.AuthZItem) : string :=
  LocalCatalogAuthz.authz_data_id item +:+ LocalCatalogAuthz.authz_access_grantee_id item
  +:+ LocalCatalogAuthz.authz_expire_at item +:+ LocalCatalogAuthz.authz_expire_time item.

Definition revoke_grant_msg (data_id grantee : string)
    (req : LocalCatalogAuthz.SignedDeleteAuthZRequest) : string :=
  data_id +:+ grantee +:+ LocalCatalogAuthz.delz_expire_time req.

(** A request in the name of [uid] is authentic for the local catalog: the
    directory returns a key for [uid], the [expire_time] is accepted and the
    signature over [msg] verifies against that key. *)
Definition local_authentic (w : World) (uid msg signature expire_time : string) : Prop :=
  ∃ key, LocalCatalogAuthz.get_public_key w uid = Return key
         ∧ LocalCatalogAuthz.check_expire_time w expire_time = Return true
         ∧ LocalCatalogAuthz.verify_signature w key msg signature = Return true.

(** The row that [add_data] files for an item. *)
Definition published_resource (w : World) (item : LocalCatalogAuthz.DataItem)
    : LocalCatalogAuthz.LocalCatalog :=
  {| LocalCatalogAuthz.description := LocalCatalogAuthz.item_description item;
     LocalCatalogAuthz.admin_id := LocalCatalogAuthz.item_admin_id item;
     LocalCatalogAuthz.endpoint := LocalCatalogAuthz.item_endpoint item;
     LocalCatalogAuthz.created_at := now_utc w |}.

(** A delete request agrees with the stored record, as [delete_data]
    compares them. *)
Definition matches_record (req : LocalCatalogAuthz.SignedDeleteCatalogRequest)
    (entry : LocalCatalogAuthz.LocalCatalog) : Prop :=
  LocalCatalogAuthz.del_admin_id req = LocalCatalogAuthz.admin_id entry
  ∧ LocalCatalogAuthz.del_endpoint req = LocalCatalogAuthz.endpoint entry
  ∧ or_empty (LocalCatalogAuthz.del_description req)
    = or_empty (LocalCatalogAuthz.description entry).

(** The three results of the expiry check other than True. *)
Definition InvalidExpireTime : exn := HTTPException 400 "Invalid expire_time format".
Definition NaiveExpireTime : exn := TypeError CompareNaiveAware.

(** * Further concrete requests *)

Module Scenario.

(** A registration whose [expire_time] carries no offset, and one whose
    [expire_time] is no timestamp. *)
Definition one_o_clock_naive : string := "2025-11-03T13:00:00".

Definition carol_register_naive : PublicKeyRegistry.RegisterRequest :=
  {| PublicKeyRegistry.reg_user_id := "carol";
     PublicKeyRegistry.reg_public_key := "PEM:carol";
     PublicKeyRegistry.reg_signature :=
       Demo.sign "carol" ("carol" +:+ "PEM:carol" +:+ one_o_clock_naive);
     PublicKeyRegistry.reg_expire_time := one_o_clock_naive |}.

(** Carol's registration, valid until one o'clock, and her request to
    remove her key again. *)
Definition carol_register : PublicKeyRegistry.RegisterRequest :=
  {| PublicKeyRegistry.reg_user_id := "carol";
     PublicKeyRegistry.reg_public_key := "PEM:carol";
     PublicKeyRegistry.reg_signature :=
       Demo.sign "carol" ("carol" +:+ "PEM:carol" +:+ Demo.one_o_clock);
     PublicKeyRegistry.reg_expire_time := Demo.one_o_clock |}.

Definition carol_remove : PublicKeyRegistry.DeleteRequest :=
  {| PublicKeyRegistry.del_user_id := "carol";
     PublicKeyRegistry.del_public_key := "PEM:carol";
     PublicKeyRegistry.del_signature :=
       Demo.sign "carol" ("carol" +:+ "PEM:carol" +:+ Demo.one_o_clock);
     PublicKeyRegistry.del_expire_time := Demo.one_o_clock |}.

(** Alice publishes a second entry in the federated catalog and retracts
    her first; both requests are valid until one o'clock. *)
Definition alice_publish_entry : FederatedCatalog.CatalogItem :=
  {| FederatedCatalog.item_data_id := "data_101";
     FederatedCatalog.item_user_id := "alice";
     FederatedCatalog.item_description := "IoT temperature sensor in factory";
     FederatedCatalog.item_endpoint := "http://iot-factory.local/api/temp";
     FederatedCatalog.item_signature :=
       Demo.sign "alice" ("data_101" +:+ "alice" +:+ "IoT temperature sensor in factory"
                          +:+ "http://iot-factory.local/api/temp" +:+ Demo.one_o_clock);
     FederatedCatalog.item_expire_time := Demo.one_o_clock |}.

Definition alice_retract_entry : FederatedCatalog.DeleteRequest :=
  {| FederatedCatalog.del_user_id := "alice";
     FederatedCatalog.del_signature :=
       Demo.sign "alice" ("edge_data_001" +:+ "alice" +:+ Demo.one_o_clock);
     FederatedCatalog.del_expire_time := Demo.one_o_clock |}.

(** Bob tries to publish under the data_id of Alice's entry. *)
Definition bob_publish_taken : FederatedCatalog.CatalogItem :=
  {| FederatedCatalog.item_data_id := "edge_data_001";
     FederatedCatalog.item_user_id := "bob";
     FederatedCatalog.item_description := "mine now";
     FederatedCatalog.item_endpoint := "http://bob.local/";
     FederatedCatalog.item_signature :=
       Demo.sign "bob" ("edge_data_001" +:+ "bob" +:+ "mine now" +:+ "http://bob.local/"
                        +:+ Demo.one_o_clock);
     FederatedCatalog.item_expire_time := Demo.one_o_clock |}.


(** Alice's resources [sensor00] and [sensor001], and her grant on
    [sensor001] to [bob]: the same signature fits a grant on [sensor00] to
    [1bob]. *)
Definition sensor00 : LocalCatalogAuthz.LocalCatalog :=
  {| LocalCatalogAuthz.description := Some "Prototype";
     LocalCatalogAuthz.admin_id := "alice";
     LocalCatalogAuthz.endpoint := "http://edge.local/sensor00";
     LocalCatalogAuthz.created_at := aware 0 |}.

Definition twin_tables : LocalCatalogAuthz.Tables :=
  {| LocalCatalogAuthz.local_catalog :=
       {[ "sensor001" := Demo.sensor001; "sensor00" := sensor00 ]};
     LocalCatalogAuthz.local_authorization := ∅ |}.



(** A world at the epoch whose [isoformat] and [fromisoformat] know the
    instant five minutes later. *)
Definition five_past : string := "1970-01-01T00:05:00+00:00".

Definition epoch_isoformat (d : datetime) : string :=
  if bool_decide (wall d = 300000000 ∧ utcoffset d = Some 0) then five_past
  else "0001-01-01T00:00:00".

Definition epoch_fromisoformat (s : string) : result datetime :=
  if bool_decide (s = five_past) then Return (aware 300000000)
  else Raise (LibraryError "ValueError" ("Invalid isoformat string: " +:+ s)).

Definition epoch : World :=
  {| VerifyingKey := string;
     from_pem := Demo.demo_from_pem;
     b64decode := Demo.demo_b64decode;
     vk_verify := Demo.demo_vk_verify;
     fromisoformat := epoch_fromisoformat;
     isoformat := epoch_isoformat;
     str_exn := Demo.demo_str_exn;
     clock := 0;
     requests_get := λ _, Raise (LibraryError "ConnectionError" "connection refused") |}.


Definition forged_publish_entry : FederatedCatalog.CatalogItem :=
  {| FederatedCatalog.item_data_id := "data_102";
     FederatedCatalog.item_user_id := "alice";
     FederatedCatalog.item_description := "Building environmental IoT data";
     FederatedCatalog.item_endpoint := "http://smart-building.local/api/env";
     FederatedCatalog.item_signature :=
       Demo.sign "bob" ("data_102" +:+ "alice" +:+ "Building environmental IoT data"
                        +:+ "http://smart-building.local/api/env" +:+ Demo.one_o_clock);
     FederatedCatalog.item_expire_time := Demo.one_o_clock |}.

End Scenario.

(** The texts of a request that reach the database: those a query looks up
    and those an insert stores. *)
Definition registry_texts (rq : PublicKeyRegistry.request) : list string :=
  match rq with
  | PublicKeyRegistry.Add req =>
      [PublicKeyRegistry.reg_user_id req; PublicKeyRegistry.reg_public_key req]
  | PublicKeyRegistry.Get uid => [uid]
  | PublicKeyRegistry.Delete req => [PublicKeyRegistry.del_user_id req]
  | PublicKeyRegistry.List | PublicKeyRegistry.DeleteAll => []
  end.

Definition entry_texts (item : FederatedCatalog.CatalogItem) : list string :=
  [FederatedCatalog.item_data_id item; FederatedCatalog.item_user_id item;
   FederatedCatalog.item_description item; FederatedCatalog.item_endpoint item].

Definition resource_texts (item : LocalCatalogAuthz.DataItem) : list string :=
  [LocalCatalogAuthz.item_data_id item; or_empty (LocalCatalogAuthz.item_description item);
   LocalCatalogAuthz.item_admin_id item; LocalCatalogAuthz.item_endpoint item].

(** A stored resource [entry] carries what [item] published: description,
    administrator and endpoint. *)
Definition published_as (item : LocalCatalogAuthz.DataItem)
    (entry : LocalCatalogAuthz.LocalCatalog) : Prop :=
  LocalCatalogAuthz.description entry = LocalCatalogAuthz.item_description item
  ∧ LocalCatalogAuthz.admin_id entry = LocalCatalogAuthz.item_admin_id item
  ∧ LocalCatalogAuthz.endpoint entry = LocalCatalogAuthz.item_endpoint item.

(** * Properties *)

(** ** Results *)

Lemma bind_Return {A B} (m : result A) (k : A → result B) (b : B) :
  m ≫= k = Return b → ∃ a, m = Return a ∧ k a = Return b.
Proof. destruct m as [a|e]; simpl; [eauto | discriminate]. Qed.

Lemma raise_if_Return (c : bool) (e : exn) (u : unit) :
  raise_if c e = Return u → c = false.
Proof. destruct c; simpl; [discriminate | reflexivity]. Qed.

Lemma outcome_Raise {P S} (db : S) (r : result (P * S)) (e : exn) :
  r = Raise e → outcome db r = (Some e, db).
Proof. intros ->. reflexivity. Qed.

(** ** The expiry check *)

Lemma datetime_gt_aware (now : Z) (d : datetime) (o : Z) :
  utcoffset d = Some o →
  datetime_gt (aware now) d = Return (bool_decide (wall d - o < now)).
Proof.
  intros Ho. unfold datetime_gt, aware. simpl. rewrite Ho.
  f_equal. apply bool_decide_ext. lia.
Qed.

Lemma registry_check_expire_time (w : World) (s : string) (e : Z) :
  parsed_expiry w s = Some e →
  PublicKeyRegistry.check_expire_time w s
  = if bool_decide (e < clock w) then Raise Expired else Return true.
Proof.
  unfold parsed_expiry, PublicKeyRegistry.check_expire_time.
  destruct (fromisoformat w _) as [d|x]; [|discriminate].
  destruct (utcoffset d) as [o|] eqn:Ho; [|discriminate].
  intros [= <-]. simpl. unfold now_utc. rewrite (datetime_gt_aware _ _ _ Ho). simpl.
  destruct (bool_decide _); reflexivity.
Qed.

Lemma local_check_expire_time (w : World) (s : string) :
  LocalCatalogAuthz.check_expire_time w s = PublicKeyRegistry.check_expire_time w s.
Proof. reflexivity. Qed.

Lemma check_expire_time_late (w : World) (s : string) (e : Z) :
  parsed_expiry w s = Some e → e < clock w →
  PublicKeyRegistry.check_expire_time w s = Raise Expired.
Proof.
  intros Hp Hlt. rewrite (registry_check_expire_time _ _ _ Hp).
  rewrite bool_decide_eq_true_2; [reflexivity | assumption].
Qed.

Lemma check_expire_time_fresh (w : World) (s : string) (e : Z) :
  parsed_expiry w s = Some e → clock w ≤ e →
  PublicKeyRegistry.check_expire_time w s = Return true.
Proof.
  intros Hp Hle. rewrite (registry_check_expire_time _ _ _ Hp).
  rewrite bool_decide_eq_false_2; [reflexivity | lia].
Qed.

(** ** Nothing but the expiry check reads the clock *)

Lemma registry_verify_signature_at_time (w : World) (t : Z) (k m s : string) :
  PublicKeyRegistry.verify_signature (at_time w t) k m s
  = PublicKeyRegistry.verify_signature w k m s.
Proof. reflexivity. Qed.

Lemma federated_get_public_key_at_time (w : World) (t : Z) (u : string) :
  FederatedCatalog.get_public_key (at_time w t) u = FederatedCatalog.get_public_key w u.
Proof. reflexivity. Qed.

Lemma federated_verify_signature_at_time (w : World) (t : Z) k (m s : string) :
  FederatedCatalog.verify_signature (at_time w t) k m s
  = FederatedCatalog.verify_signature w k m s.
Proof. reflexivity. Qed.

Lemma local_get_public_key_at_time (w : World) (t : Z) (u : string) :
  LocalCatalogAuthz.get_public_key (at_time w t) u = LocalCatalogAuthz.get_public_key w u.
Proof. reflexivity. Qed.

Lemma local_verify_signature_at_time (w : World) (t : Z) k (m s : string) :
  LocalCatalogAuthz.verify_signature (at_time w t) k m s
  = LocalCatalogAuthz.verify_signature w k m s.
Proof. reflexivity. Qed.

Lemma local_get_admin_id_at_time (w : World) (t : Z) db (d : string) :
  LocalCatalogAuthz.get_admin_id_by_data_id (at_time w t) db d
  = LocalCatalogAuthz.get_admin_id_by_data_id w db d.
Proof. reflexivity. Qed.

Ltac forget_time :=
  repeat first
    [ rewrite registry_verify_signature_at_time in *
    | rewrite federated_get_public_key_at_time in *
    | rewrite federated_verify_signature_at_time in *
    | rewrite local_get_public_key_at_time in *
    | rewrite local_verify_signature_at_time in *
    | rewrite local_get_admin_id_at_time in * ].

(** Case analysis on the first call of a sequence in hypothesis [H]. *)
Ltac first_call H :=
  match type of H with
  | context [mbind _ ?m] =>
      let E := fresh "E" in destruct m eqn:E; simpl in H; try discriminate H
  | context [match ?m with _ => _ end] =>
      let E := fresh "E" in destruct m eqn:E; simpl in H; try discriminate H
  end.

Lemma rejects_late_first {A} (h : World → result A) (w : World) :
  h w = Raise Expired → rejects_late h w.
Proof. intros H. split; [eauto | intros t0 _; exact H]. Qed.

Lemma registry_add_key_late (w : World) (e : Z) db req :
  parsed_expiry w (PublicKeyRegistry.reg_expire_time req) = Some e → e < clock w →
  rejects_late (λ w, PublicKeyRegistry.add_key w db req) w.
Proof.
  intros parsed late. apply rejects_late_first. unfold PublicKeyRegistry.add_key.
  rewrite (check_expire_time_late _ _ _ parsed late). reflexivity.
Qed.

Lemma registry_delete_key_late (w : World) (e : Z) db req :
  parsed_expiry w (PublicKeyRegistry.del_expire_time req) = Some e → e < clock w →
  rejects_late (λ w, PublicKeyRegistry.delete_key w db req) w.
Proof.
  intros parsed late. apply rejects_late_first. unfold PublicKeyRegistry.delete_key.
  rewrite (check_expire_time_late _ _ _ parsed late). reflexivity.
Qed.

Ltac late_start Hc :=
  intros parsed late;
  pose proof (check_expire_time_late _ _ _ parsed late) as Hc;
  split; [|intros t0 Hok; cbv beta in Hok; revert Hok].

Ltac late_finish Hc :=
  first [ rewrite (Hc : FederatedCatalog.check_expire_time _ _ = _)
        | rewrite (Hc : LocalCatalogAuthz.check_expire_time _ _ = _) ];
  simpl; eauto.

Lemma federated_add_entry_late (w : World) (e : Z) db item :
  parsed_expiry w (FederatedCatalog.item_expire_time item) = Some e → e < clock w →
  rejects_late (λ w, FederatedCatalog.add_entry w db item) w.
Proof.
  late_start Hc; unfold FederatedCatalog.add_entry; forget_time;
    (destruct (FederatedCatalog.get_public_key w _) as [key|x]; simpl;
     [late_finish Hc | eauto; discriminate]).
Qed.

Lemma federated_delete_entry_late (w : World) (e : Z) db d req :
  parsed_expiry w (FederatedCatalog.del_expire_time req) = Some e → e < clock w →
  rejects_late (λ w, FederatedCatalog.delete_entry w db d req) w.
Proof.
  late_start Hc; unfold FederatedCatalog.delete_entry; forget_time;
    (destruct (FederatedCatalog.get_public_key w _) as [key|x]; simpl;
     [late_finish Hc | eauto; discriminate]).
Qed.

Lemma local_add_data_late (w : World) (e : Z) db item :
  parsed_expiry w (LocalCatalogAuthz.item_expire_time item) = Some e → e < clock w →
  rejects_late (λ w, LocalCatalogAuthz.add_data w db item) w.
Proof.
  intros parsed late. apply rejects_late_first. unfold LocalCatalogAuthz.add_data.
  rewrite local_check_expire_time, (check_expire_time_late _ _ _ parsed late).
  reflexivity.
Qed.

Lemma local_add_authz_late (w : World) (e : Z) db item :
  parsed_expiry w (LocalCatalogAuthz.authz_expire_time item) = Some e → e < clock w →
  rejects_late (λ w, LocalCatalogAuthz.add_authz w db item) w.
Proof.
  intros parsed late. apply rejects_late_first. unfold LocalCatalogAuthz.add_authz.
  rewrite local_check_expire_time, (check_expire_time_late _ _ _ parsed late).
  reflexivity.
Qed.

Lemma local_get_data_late (w : World) (e : Z) db d req :
  parsed_expiry w (LocalCatalogAuthz.get_expire_time req) = Some e → e < clock w →
  rejects_late (λ w, LocalCatalogAuthz.get_data w db d req) w.
Proof.
  late_start Hc; unfold LocalCatalogAuthz.get_data;
    (destruct (LocalCatalogAuthz.local_catalog db !! d) as [entry|]; simpl;
     [|eauto; discriminate]);
    (destruct (bool_decide _); simpl; [eauto; discriminate|]);
    late_finish Hc.
Qed.

Lemma local_get_authz_late (w : World) (e : Z) db d req :
  parsed_expiry w (LocalCatalogAuthz.get_expire_time req) = Some e → e < clock w →
  rejects_late (λ w, LocalCatalogAuthz.get_authz w db d req) w.
Proof.
  late_start Hc; unfold LocalCatalogAuthz.get_authz;
    (destruct (LocalCatalogAuthz.local_catalog db !! d) as [entry|]; simpl;
     [|eauto; discriminate]);
    (destruct (bool_decide _); simpl; [eauto; discriminate|]);
    late_finish Hc.
Qed.

Lemma local_delete_data_late (w : World) (e : Z) db d req :
  parsed_expiry w (LocalCatalogAuthz.del_expire_time req) = Some e → e < clock w →
  rejects_late (λ w, LocalCatalogAuthz.delete_data w db d req) w.
Proof.
  late_start Hc; unfold LocalCatalogAuthz.delete_data;
    (destruct (LocalCatalogAuthz.local_catalog db !! d) as [entry|]; simpl;
     [|eauto; discriminate]);
    (destruct (_ || _); simpl; [eauto; discriminate|]);
    late_finish Hc.
Qed.

Lemma local_delete_authz_late (w : World) (e : Z) db d g req :
  parsed_expiry w (LocalCatalogAuthz.delz_expire_time req) = Some e → e < clock w →
  rejects_late (λ w, LocalCatalogAuthz.delete_authz w db d g req) w.
Proof.
  late_start Hc; unfold LocalCatalogAuthz.delete_authz;
    (destruct (LocalCatalogAuthz.local_authorization db !! (d, g)) as [auth|]; simpl;
     [|eauto; discriminate]);
    late_finish Hc.
Qed.

Lemma rejects_late_outcome {P S} (h : World → result (P * S)) (w : World) (db : S) :
  rejects_late h w →
  (∃ err, outcome db (h w) = (Some err, db))
  ∧ ∀ t0, (outcome db (h (at_time w t0))).1 = None →
          outcome db (h w) = (Some Expired, db).
Proof.
  intros [[err Herr] Hexp]. split.
  - exists err. rewrite Herr. reflexivity.
  - intros t0 Hok. rewrite (Hexp t0); [reflexivity|].
    destruct (h (at_time w t0)); [reflexivity | discriminate].
Qed.

Lemma registry_serve_late (w : World) (s : string) (e : Z) db rq :
  parsed_expiry w s = Some e → e < clock w →
  PublicKeyRegistry.expire_time_of rq = Some s →
  (∃ err, PublicKeyRegistry.serve w db rq = (Some err, db))
  ∧ ∀ t0, (PublicKeyRegistry.serve (at_time w t0) db rq).1 = None →
          PublicKeyRegistry.serve w db rq = (Some Expired, db).
Proof.
  intros Hp Hlt Hs. destruct rq as [req|uid|req| |]; simpl in Hs; try discriminate Hs;
    injection Hs as <-; simpl.
  - apply (rejects_late_outcome (λ w, PublicKeyRegistry.add_key w db req)).
    eapply registry_add_key_late; eassumption.
  - apply (rejects_late_outcome (λ w, PublicKeyRegistry.delete_key w db req)).
    eapply registry_delete_key_late; eassumption.
Qed.

Lemma federated_serve_late (w : World) (s : string) (e : Z) db rq :
  parsed_expiry w s = Some e → e < clock w →
  FederatedCatalog.expire_time_of rq = Some s →
  (∃ err, FederatedCatalog.serve w db rq = (Some err, db))
  ∧ ∀ t0, (FederatedCatalog.serve (at_time w t0) db rq).1 = None →
          FederatedCatalog.serve w db rq = (Some Expired, db).
Proof.
  intros Hp Hlt Hs. destruct rq as [item|d req|d| |uid]; simpl in Hs; try discriminate Hs;
    injection Hs as <-; simpl.
  - apply (rejects_late_outcome (λ w, FederatedCatalog.add_entry w db item)).
    eapply federated_add_entry_late; eassumption.
  - apply (rejects_late_outcome (λ w, FederatedCatalog.delete_entry w db d req)).
    eapply federated_delete_entry_late; eassumption.
Qed.

Lemma local_serve_late (w : World) (s : string) (e : Z) db rq :
  parsed_expiry w s = Some e → e < clock w →
  LocalCatalogAuthz.expire_time_of rq = Some s →
  (∃ err, LocalCatalogAuthz.serve w db rq = (Some err, db))
  ∧ ∀ t0, (LocalCatalogAuthz.serve (at_time w t0) db rq).1 = None →
          LocalCatalogAuthz.serve w db rq = (Some Expired, db).
Proof.
  intros Hp Hlt Hs.
  destruct rq as [item|item|d req|d req|d req|d g req| |]; simpl in Hs;
    try discriminate Hs; injection Hs as <-; simpl.
  - apply (rejects_late_outcome (λ w, LocalCatalogAuthz.add_data w db item)).
    eapply local_add_data_late; eassumption.
  - apply (rejects_late_outcome (λ w, LocalCatalogAuthz.add_authz w db item)).
    eapply local_add_authz_late; eassumption.
  - apply (rejects_late_outcome (λ w, LocalCatalogAuthz.get_data w db d req)).
    eapply local_get_data_late; eassumption.
  - apply (rejects_late_outcome (λ w, LocalCatalogAuthz.get_authz w db d req)).
    eapply local_get_authz_late; eassumption.
  - apply (rejects_late_outcome (λ w, LocalCatalogAuthz.delete_data w db d req)).
    eapply local_delete_data_late; eassumption.
  - apply (rejects_late_outcome (λ w, LocalCatalogAuthz.delete_authz w db d g req)).
    eapply local_delete_authz_late; eassumption.
Qed.

(** C5 (freshness).  Let [expire_time] denote the instant [e].  In each of
    the three services [check_expire_time] raises [Expired] (400, "Signature
    expired") when the clock reads strictly more than [e], and returns True
    when the clock reads [e] or less: the comparison is a strict [>], so an
    [expire_time] equal to the current time is still valid.  For every
    request that carries this [expire_time], served when the clock is past
    [e]: the request fails and nothing is committed, and the failure is
    [Expired] whenever the same request on the same tables succeeds at some
    other time.  Handler by handler, whatever the signature: [add_key],
    [delete_key], [add_data] and [add_authz] check the expiry first and fail
    with [Expired] unconditionally; [add_entry] and [delete_entry] fail with
    [Expired] once the signer's key is resolved; [get_data] and [get_authz]
    once the resource is on file under the requesting administrator;
    [delete_data] once the request matches the record on file;
    [delete_authz] once the grant is on file. *)
Theorem expired_request_fails_with_Expired (w : World) (s : string) (e : Z) :
  parsed_expiry w s = Some e →
  (e < clock w →
     PublicKeyRegistry.check_expire_time w s = Raise Expired
     ∧ FederatedCatalog.check_expire_time w s = Raise Expired
     ∧ LocalCatalogAuthz.check_expire_time w s = Raise Expired)
  ∧ (clock w ≤ e →
     PublicKeyRegistry.check_expire_time w s = Return true
     ∧ FederatedCatalog.check_expire_time w s = Return true
     ∧ LocalCatalogAuthz.check_expire_time w s = Return true)
  ∧ (e < clock w →
     (∀ db rq, PublicKeyRegistry.expire_time_of rq = Some s →
        (∃ err, PublicKeyRegistry.serve w db rq = (Some err, db))
        ∧ ∀ t0, (PublicKeyRegistry.serve (at_time w t0) db rq).1 = None →
                PublicKeyRegistry.serve w db rq = (Some Expired, db))
     ∧ (∀ db rq, FederatedCatalog.expire_time_of rq = Some s →
        (∃ err, FederatedCatalog.serve w db rq = (Some err, db))
        ∧ ∀ t0, (FederatedCatalog.serve (at_time w t0) db rq).1 = None →
                FederatedCatalog.serve w db rq = (Some Expired, db))
     ∧ (∀ db rq, LocalCatalogAuthz.expire_time_of rq = Some s →
        (∃ err, LocalCatalogAuthz.serve w db rq = (Some err, db))
        ∧ ∀ t0, (LocalCatalogAuthz.serve (at_time w t0) db rq).1 = None →
                LocalCatalogAuthz.serve w db rq = (Some Expired, db)))
  ∧ (e < clock w →
     (∀ db req, PublicKeyRegistry.reg_expire_time req = s →
        PublicKeyRegistry.serve w db (PublicKeyRegistry.Add req) = (Some Expired, db))
     ∧ (∀ db req, PublicKeyRegistry.del_expire_time req = s →
        PublicKeyRegistry.serve w db (PublicKeyRegistry.Delete req) = (Some Expired, db))
     ∧ (∀ db item key, FederatedCatalog.item_expire_time item = s →
        FederatedCatalog.get_public_key w (FederatedCatalog.item_user_id item)
          = Return key →
        FederatedCatalog.serve w db (FederatedCatalog.Add item) = (Some Expired, db))
     ∧ (∀ db d req key, FederatedCatalog.del_expire_time req = s →
        FederatedCatalog.get_public_key w (FederatedCatalog.del_user_id req)
          = Return key →
        FederatedCatalog.serve w db (FederatedCatalog.Delete d req) = (Some Expired, db))
     ∧ (∀ db item, LocalCatalogAuthz.item_expire_time item = s →
        LocalCatalogAuthz.serve w db (LocalCatalogAuthz.AddData item)
        = (Some Expired, db))
     ∧ (∀ db item, LocalCatalogAuthz.authz_expire_time item = s →
        LocalCatalogAuthz.serve w db (LocalCatalogAuthz.AddAuthz item)
        = (Some Expired, db))
     ∧ (∀ db d req entry, LocalCatalogAuthz.get_expire_time req = s →
        LocalCatalogAuthz.local_catalog db !! d = Some entry →
        LocalCatalogAuthz.get_admin_id req = LocalCatalogAuthz.admin_id entry →
        LocalCatalogAuthz.serve w db (LocalCatalogAuthz.GetData d req)
        = (Some Expired, db)
        ∧ LocalCatalogAuthz.serve w db (LocalCatalogAuthz.GetAuthz d req)
          = (Some Expired, db))
     ∧ (∀ db d req entry, LocalCatalogAuthz.del_expire_time req = s →
        LocalCatalogAuthz.local_catalog db !! d = Some entry →
        matches_record req entry →
        LocalCatalogAuthz.serve w db (LocalCatalogAuthz.DeleteData d req)
        = (Some Expired, db))
     ∧ (∀ db d g req auth, LocalCatalogAuthz.delz_expire_time req = s →
        LocalCatalogAuthz.local_authorization db !! (d, g) = Some auth →
        LocalCatalogAuthz.serve w db (LocalCatalogAuthz.DeleteAuthz d g req)
        = (Some Expired, db))).
Proof.
  intros Hp. split; [|split; [|split]].
  - intros Hlt. pose proof (check_expire_time_late _ _ _ Hp Hlt) as Hc.
    repeat split; exact Hc.
  - intros Hle. pose proof (check_expire_time_fresh _ _ _ Hp Hle) as Hc.
    repeat split; exact Hc.
  - intros Hlt. split; [|split]; intros db rq Hs.
    + eapply registry_serve_late; eassumption.
    + eapply federated_serve_late; eassumption.
    + eapply local_serve_late; eassumption.
  - intros Hlt. pose proof (check_expire_time_late _ _ _ Hp Hlt) as Hc.
    split; [|split; [|split; [|split; [|split; [|split; [|split; [|split]]]]]]].
    + intros db req <-. simpl. unfold PublicKeyRegistry.add_key.
      rewrite Hc. reflexivity.
    + intros db req <-. simpl. unfold PublicKeyRegistry.delete_key.
      rewrite Hc. reflexivity.
    + intros db item key <- Hkey. simpl. unfold FederatedCatalog.add_entry.
      rewrite Hkey. simpl.
      rewrite (Hc : FederatedCatalog.check_expire_time _ _ = _). reflexivity.
    + intros db d req key <- Hkey. simpl. unfold FederatedCatalog.delete_entry.
      rewrite Hkey. simpl.
      rewrite (Hc : FederatedCatalog.check_expire_time _ _ = _). reflexivity.
    + intros db item <-. simpl. unfold LocalCatalogAuthz.add_data.
      rewrite (Hc : LocalCatalogAuthz.check_expire_time _ _ = _). reflexivity.
    + intros db item <-. simpl. unfold LocalCatalogAuthz.add_authz.
      rewrite (Hc : LocalCatalogAuthz.check_expire_time _ _ = _). reflexivity.
    + intros db d req entry <- Hentry Hadm. simpl.
      unfold LocalCatalogAuthz.get_data, LocalCatalogAuthz.get_authz.
      rewrite Hentry.
      rewrite bool_decide_eq_false_2 by (intros Hne; apply Hne; exact Hadm). simpl.
      rewrite (Hc : LocalCatalogAuthz.check_expire_time _ _ = _). split; reflexivity.
    + intros db d req entry <- Hentry (Hadm & Hend & Hdesc). simpl.
      unfold LocalCatalogAuthz.delete_data. rewrite Hentry.
      rewrite (bool_decide_eq_false_2 (d ≠ d)) by (intros Hne; apply Hne; reflexivity).
      rewrite (bool_decide_eq_false_2 (_ ≠ LocalCatalogAuthz.admin_id entry))
        by (intros Hne; apply Hne; exact Hadm).
      rewrite (bool_decide_eq_false_2 (_ ≠ LocalCatalogAuthz.endpoint entry))
        by (intros Hne; apply Hne; exact Hend).
      rewrite (bool_decide_eq_false_2 (or_empty _ ≠ _))
        by (intros Hne; apply Hne; exact Hdesc).
      simpl.
      rewrite (Hc : LocalCatalogAuthz.check_expire_time _ _ = _). reflexivity.
    + intros db d g req auth <- Hauth. simpl. unfold LocalCatalogAuthz.delete_authz.
      rewrite Hauth. simpl.
      rewrite (Hc : LocalCatalogAuthz.check_expire_time _ _ = _). reflexivity.
Qed.

Lemma expired_request_witness :
  PublicKeyRegistry.check_expire_time (Demo.online 43201 Demo.registry) Demo.noon
    = Raise Expired
  ∧ PublicKeyRegistry.check_expire_time (Demo.online 43200 Demo.registry) Demo.noon
    = Return true
  ∧ LocalCatalogAuthz.serve (Demo.online 43201 Demo.registry) Demo.tables
      (LocalCatalogAuthz.GetData "sensor001" Demo.alice_get)
    = (Some Expired, Demo.tables)
  ∧ PublicKeyRegistry.serve (Demo.online 46801 Demo.registry) Demo.registry
      (PublicKeyRegistry.Add Demo.carol_wrong_signature)
    = (Some Expired, Demo.registry).
Proof.
  destruct (expired_request_fails_with_Expired
              (Demo.online 43201 Demo.registry) Demo.noon 43200 eq_refl)
    as (Hlate & _ & Hserve & _).
  destruct (expired_request_fails_with_Expired
              (Demo.online 43200 Demo.registry) Demo.noon 43200 eq_refl)
    as (_ & Hfresh & _).
  destruct (expired_request_fails_with_Expired
              (Demo.online 46801 Demo.registry) Demo.one_o_clock 46800 eq_refl)
    as (_ & _ & _ & Hfirst).
  split; [|split; [|split]].
  - apply Hlate. simpl. lia.
  - apply Hfresh. simpl. lia.
  - destruct Hserve as (_ & _ & Hlocal); [simpl; lia|].
    destruct (Hlocal Demo.tables (LocalCatalogAuthz.GetData "sensor001" Demo.alice_get)
                eq_refl) as [_ Hexp].
    apply (Hexp 43200). vm_compute. reflexivity.
  - destruct Hfirst as (Hadd & _); [simpl; lia|].
    apply Hadd. reflexivity.
Defined.

(** ** Ownership *)

Lemma federated_delete_entry_forbidden (w : World)
    (db : gmap string FederatedCatalog.FederatedCatalog) (d : string)
    (req : FederatedCatalog.DeleteRequest) entry key :
  FederatedCatalog.get_public_key w (FederatedCatalog.del_user_id req) = Return key →
  FederatedCatalog.check_expire_time w (FederatedCatalog.del_expire_time req)
    = Return true →
  FederatedCatalog.verify_signature w key
    (d +:+ FederatedCatalog.del_user_id req +:+ FederatedCatalog.del_expire_time req)
    (FederatedCatalog.del_signature req) = Return true →
  db !! d = Some entry →
  FederatedCatalog.user_id entry ≠ FederatedCatalog.del_user_id req →
  FederatedCatalog.delete_entry w db d req = Raise Forbidden.
Proof.
  intros Hkey Hfresh Hsig Hentry Hne. unfold FederatedCatalog.delete_entry.
  rewrite Hkey. simpl. rewrite Hfresh. simpl. rewrite Hsig. simpl. rewrite Hentry.
  rewrite bool_decide_eq_true_2 by assumption. reflexivity.
Qed.

Lemma local_get_data_forbidden (w : World) (db : LocalCatalogAuthz.Tables) (d : string)
    (req : LocalCatalogAuthz.SignedGetRequest) entry :
  LocalCatalogAuthz.local_catalog db !! d = Some entry →
  LocalCatalogAuthz.admin_id entry ≠ LocalCatalogAuthz.get_admin_id req →
  LocalCatalogAuthz.get_data w db d req = Raise Forbidden.
Proof.
  intros Hentry Hne. unfold LocalCatalogAuthz.get_data. rewrite Hentry.
  rewrite bool_decide_eq_true_2 by congruence. reflexivity.
Qed.

(** C6 (ownership).  A retract request ([delete_entry]) whose claimed
    identity has a key in the directory, whose [expire_time] has not passed
    and whose signature verifies against that key, and a read_resource
    request ([get_data]) whatever its signature, fails with [Forbidden]
    (403, "User not authorized.") when the claimed identity is not the
    stored owner, respectively administrator, of the target record; the
    table is left as it was. *)
Theorem non_owner_is_forbidden (w : World) :
  (∀ (db : gmap string FederatedCatalog.FederatedCatalog) d req entry key,
     FederatedCatalog.get_public_key w (FederatedCatalog.del_user_id req) = Return key →
     FederatedCatalog.check_expire_time w (FederatedCatalog.del_expire_time req)
       = Return true →
     FederatedCatalog.verify_signature w key
       (d +:+ FederatedCatalog.del_user_id req +:+ FederatedCatalog.del_expire_time req)
       (FederatedCatalog.del_signature req) = Return true →
     db !! d = Some entry →
     FederatedCatalog.user_id entry ≠ FederatedCatalog.del_user_id req →
     FederatedCatalog.serve w db (FederatedCatalog.Delete d req) = (Some Forbidden, db))
  ∧ (∀ (db : LocalCatalogAuthz.Tables) d req entry,
     LocalCatalogAuthz.local_catalog db !! d = Some entry →
     LocalCatalogAuthz.admin_id entry ≠ LocalCatalogAuthz.get_admin_id req →
     LocalCatalogAuthz.serve w db (LocalCatalogAuthz.GetData d req) = (Some Forbidden, db))
  ∧ class_of Forbidden = ForbiddenResponse.
Proof.
  split; [|split].
  - intros db d req entry key Hkey Hfresh Hsig Hentry Hne. simpl.
    apply outcome_Raise. eapply federated_delete_entry_forbidden; eassumption.
  - intros db d req entry Hentry Hne. simpl.
    apply outcome_Raise. eapply local_get_data_forbidden; eassumption.
  - reflexivity.
Qed.

Lemma non_owner_witness :
  FederatedCatalog.serve (Demo.morning) Demo.federated
    (FederatedCatalog.Delete "edge_data_001" Demo.bob_delete)
    = (Some Forbidden, Demo.federated)
  ∧ LocalCatalogAuthz.serve (Demo.morning) Demo.tables
      (LocalCatalogAuthz.GetData "sensor001" Demo.bob_get)
    = (Some Forbidden, Demo.tables).
Proof.
  destruct (non_owner_is_forbidden (Demo.morning))
    as (Hfed & Hloc & _).
  split.
  - apply (Hfed Demo.federated "edge_data_001" Demo.bob_delete Demo.edge_data_001
             (Some "PEM:bob")).
    + vm_compute. reflexivity.
    + vm_compute. reflexivity.
    + vm_compute. reflexivity.
    + vm_compute. reflexivity.
    + vm_compute. discriminate.
  - apply (Hloc Demo.tables "sensor001" Demo.bob_get Demo.sensor001).
    + vm_compute. reflexivity.
    + vm_compute. discriminate.
Defined.

(** ** Grants *)

(** Case analysis on the first call of the sequence in the goal. *)
Ltac next_call :=
  match goal with
  | |- context [mbind _ ?m] => let E := fresh "E" in destruct m eqn:E; simpl
  end.

Lemma add_authz_Return (w : World) (db : LocalCatalogAuthz.Tables)
    (item : LocalCatalogAuthz.AuthZItem) (m : string) (db' : LocalCatalogAuthz.Tables) :
  LocalCatalogAuthz.add_authz w db item = Return (m, db') →
  is_Some (LocalCatalogAuthz.local_catalog db !! LocalCatalogAuthz.authz_data_id item)
  ∧ LocalCatalogAuthz.local_authorization db
      !! (LocalCatalogAuthz.authz_data_id item,
          LocalCatalogAuthz.authz_access_grantee_id item) = None
  ∧ ∃ grant,
      db' = {| LocalCatalogAuthz.local_catalog := LocalCatalogAuthz.local_catalog db;
               LocalCatalogAuthz.local_authorization :=
                 <[(LocalCatalogAuthz.authz_data_id item,
                    LocalCatalogAuthz.authz_access_grantee_id item) := grant]>
                   (LocalCatalogAuthz.local_authorization db) |}.
Proof.
  unfold LocalCatalogAuthz.add_authz. intros H.
  apply bind_Return in H as (fresh & _ & H).
  apply bind_Return in H as (admin & _ & H).
  apply bind_Return in H as (key & _ & H).
  apply bind_Return in H as (ok & _ & H).
  apply bind_Return in H as (u1 & Hcat & H).
  apply bind_Return in H as (u2 & Hdup & H).
  apply bind_Return in H as (dt & _ & H).
  apply raise_if_Return in Hcat. apply raise_if_Return in Hdup.
  apply negb_false_iff, bool_decide_eq_true in Hcat.
  apply bool_decide_eq_false in Hdup.
  injection H as _ <-.
  split; [exact Hcat|]. split; [|eauto].
  destruct (LocalCatalogAuthz.local_authorization db !! _) eqn:E; [|reflexivity].
  destruct Hdup. eauto.
Qed.

Lemma get_admin_id_found (w : World) (db : LocalCatalogAuthz.Tables) (d : string) entry :
  LocalCatalogAuthz.local_catalog db !! d = Some entry →
  LocalCatalogAuthz.get_admin_id_by_data_id w db d
  = Return (LocalCatalogAuthz.admin_id entry).
Proof. intros H. unfold LocalCatalogAuthz.get_admin_id_by_data_id. rewrite H. reflexivity. Qed.

Lemma get_admin_id_Return (w : World) (db : LocalCatalogAuthz.Tables) (d admin : string) :
  LocalCatalogAuthz.get_admin_id_by_data_id w db d = Return admin →
  ∃ entry, LocalCatalogAuthz.local_catalog db !! d = Some entry
           ∧ LocalCatalogAuthz.admin_id entry = admin.
Proof.
  unfold LocalCatalogAuthz.get_admin_id_by_data_id.
  destruct (LocalCatalogAuthz.local_catalog db !! d) as [entry|]; simpl.
  - intros [= <-]. eauto.
  - discriminate.
Qed.

Lemma add_authz_duplicate_raises (w : World) (db : LocalCatalogAuthz.Tables)
    (item : LocalCatalogAuthz.AuthZItem) :
  is_Some (LocalCatalogAuthz.local_authorization db
             !! (LocalCatalogAuthz.authz_data_id item,
                 LocalCatalogAuthz.authz_access_grantee_id item)) →
  ∃ err, LocalCatalogAuthz.add_authz w db item = Raise err.
Proof.
  intros Hex. destruct (LocalCatalogAuthz.add_authz w db item) as [[m db']|err] eqn:E.
  - apply add_authz_Return in E as (_ & Hnone & _). rewrite Hnone in Hex.
    destruct Hex as [? [=]].
  - eauto.
Qed.

Lemma add_authz_duplicate (w : World) (db : LocalCatalogAuthz.Tables)
    (item : LocalCatalogAuthz.AuthZItem) entry key :
  is_Some (LocalCatalogAuthz.local_authorization db
             !! (LocalCatalogAuthz.authz_data_id item,
                 LocalCatalogAuthz.authz_access_grantee_id item)) →
  LocalCatalogAuthz.check_expire_time w (LocalCatalogAuthz.authz_expire_time item)
    = Return true →
  LocalCatalogAuthz.local_catalog db !! LocalCatalogAuthz.authz_data_id item
    = Some entry →
  LocalCatalogAuthz.get_public_key w (LocalCatalogAuthz.admin_id entry) = Return key →
  LocalCatalogAuthz.verify_signature w key
    (LocalCatalogAuthz.authz_data_id item +:+ LocalCatalogAuthz.authz_access_grantee_id item
     +:+ LocalCatalogAuthz.authz_expire_at item +:+ LocalCatalogAuthz.authz_expire_time item)
    (LocalCatalogAuthz.authz_signature item) = Return true →
  LocalCatalogAuthz.add_authz w db item = Raise DuplicateGrant.
Proof.
  intros Hex Hfresh Hentry Hkey Hsig. unfold LocalCatalogAuthz.add_authz.
  rewrite Hfresh. simpl. rewrite (get_admin_id_found _ _ _ _ Hentry). simpl.
  rewrite Hkey. simpl. rewrite Hsig. simpl. rewrite Hentry.
  rewrite (bool_decide_eq_true_2 (is_Some (Some entry))) by eauto. simpl.
  rewrite bool_decide_eq_true_2 by assumption. reflexivity.
Qed.

Lemma add_authz_fresh_pair (w : World) (db : LocalCatalogAuthz.Tables)
    (item : LocalCatalogAuthz.AuthZItem) entry key dt :
  LocalCatalogAuthz.local_authorization db
    !! (LocalCatalogAuthz.authz_data_id item,
        LocalCatalogAuthz.authz_access_grantee_id item) = None →
  LocalCatalogAuthz.check_expire_time w (LocalCatalogAuthz.authz_expire_time item)
    = Return true →
  LocalCatalogAuthz.local_catalog db !! LocalCatalogAuthz.authz_data_id item
    = Some entry →
  LocalCatalogAuthz.get_public_key w (LocalCatalogAuthz.admin_id entry) = Return key →
  LocalCatalogAuthz.verify_signature w key
    (LocalCatalogAuthz.authz_data_id item +:+ LocalCatalogAuthz.authz_access_grantee_id item
     +:+ LocalCatalogAuthz.authz_expire_at item +:+ LocalCatalogAuthz.authz_expire_time item)
    (LocalCatalogAuthz.authz_signature item) = Return true →
  fromisoformat w (replace_char "Z" "+00:00" (LocalCatalogAuthz.authz_expire_at item))
    = Return dt →
  ∃ m, LocalCatalogAuthz.add_authz w db item
       = Return (m, {| LocalCatalogAuthz.local_catalog := LocalCatalogAuthz.local_catalog db;
                       LocalCatalogAuthz.local_authorization :=
                         <[(LocalCatalogAuthz.authz_data_id item,
                            LocalCatalogAuthz.authz_access_grantee_id item)
                           := {| LocalCatalogAuthz.expire_at := dt;
                                 LocalCatalogAuthz.authz_created_at := now_utc w |}]>
                           (LocalCatalogAuthz.local_authorization db) |}).
Proof.
  intros Hnone Hfresh Hentry Hkey Hsig Hdt. unfold LocalCatalogAuthz.add_authz.
  rewrite Hfresh. simpl. rewrite (get_admin_id_found _ _ _ _ Hentry). simpl.
  rewrite Hkey. simpl. rewrite Hsig. simpl. rewrite Hentry.
  rewrite (bool_decide_eq_true_2 (is_Some (Some entry))) by eauto. simpl.
  rewrite Hnone.
  rewrite (bool_decide_eq_false_2 (is_Some None)) by (intros [? [=]]). simpl.
  rewrite Hdt. simpl. eauto.
Qed.

Lemma delete_authz_Return (w : World) (db : LocalCatalogAuthz.Tables) (d g : string)
    (req : LocalCatalogAuthz.SignedDeleteAuthZRequest) (m : string)
    (db' : LocalCatalogAuthz.Tables) :
  LocalCatalogAuthz.delete_authz w db d g req = Return (m, db') →
  is_Some (LocalCatalogAuthz.local_catalog db !! d)
  ∧ db' = {| LocalCatalogAuthz.local_catalog := LocalCatalogAuthz.local_catalog db;
             LocalCatalogAuthz.local_authorization :=
               delete (d, g) (LocalCatalogAuthz.local_authorization db) |}.
Proof.
  unfold LocalCatalogAuthz.delete_authz. intros H.
  destruct (LocalCatalogAuthz.local_authorization db !! (d, g)) as [auth|];
    [|discriminate H].
  apply bind_Return in H as (fresh & _ & H).
  apply bind_Return in H as (admin & Hadmin & H).
  apply bind_Return in H as (key & _ & H).
  apply bind_Return in H as (ok & _ & H).
  injection H as _ <-.
  apply get_admin_id_Return in Hadmin as (entry & Hentry & _).
  split; [eauto | reflexivity].
Qed.

(** C7 (duplicate grants go by presence).  While a grant record is on file
    for the pair (data_id, grantee), whatever its [expire_at] and whatever
    the clock reads, [add_authz] never succeeds and commits nothing, and a
    request that passes the expiry and signature checks is refused with
    [DuplicateGrant] (400, "AuthZ already exists.").  A grant for the pair
    can be created once the record has been revoked: after a successful
    [delete_authz] the pair is free, and a request that passes the checks
    then succeeds and files the new grant. *)
Theorem duplicate_grant_by_presence (w : World) (db : LocalCatalogAuthz.Tables)
    (item : LocalCatalogAuthz.AuthZItem) :
  (∀ existing,
     LocalCatalogAuthz.local_authorization db
       !! (LocalCatalogAuthz.authz_data_id item,
           LocalCatalogAuthz.authz_access_grantee_id item) = Some existing →
     (∃ err, LocalCatalogAuthz.serve w db (LocalCatalogAuthz.AddAuthz item)
             = (Some err, db))
     ∧ (grant_checks_pass w db item →
        LocalCatalogAuthz.serve w db (LocalCatalogAuthz.AddAuthz item)
        = (Some DuplicateGrant, db)))
  ∧ (∀ w0 req m0 db1 dt,
       LocalCatalogAuthz.delete_authz w0 db (LocalCatalogAuthz.authz_data_id item)
         (LocalCatalogAuthz.authz_access_grantee_id item) req = Return (m0, db1) →
       grant_checks_pass w db1 item →
       fromisoformat w (replace_char "Z" "+00:00" (LocalCatalogAuthz.authz_expire_at item))
         = Return dt →
       LocalCatalogAuthz.local_authorization db1
         !! (LocalCatalogAuthz.authz_data_id item,
             LocalCatalogAuthz.authz_access_grantee_id item) = None
       ∧ ∃ db2, LocalCatalogAuthz.serve w db1 (LocalCatalogAuthz.AddAuthz item)
                = (None, db2)
                ∧ LocalCatalogAuthz.local_authorization db2
                    !! (LocalCatalogAuthz.authz_data_id item,
                        LocalCatalogAuthz.authz_access_grantee_id item)
                  = Some {| LocalCatalogAuthz.expire_at := dt;
                            LocalCatalogAuthz.authz_created_at := now_utc w |}).
Proof.
  split.
  - intros existing Hex. split.
    + destruct (add_authz_duplicate_raises w db item) as [err Herr]; [eauto|].
      exists err. simpl. rewrite Herr. reflexivity.
    + intros (entry & key & Hfresh & Hentry & Hkey & Hsig). simpl.
      apply outcome_Raise. eapply add_authz_duplicate; eauto.
  - intros w0 req m0 db1 dt Hdel (entry & key & Hfresh & Hentry & Hkey & Hsig) Hdt.
    apply delete_authz_Return in Hdel as (_ & ->). simpl in *.
    split; [apply lookup_delete_eq|].
    edestruct (add_authz_fresh_pair w
                 {| LocalCatalogAuthz.local_catalog := LocalCatalogAuthz.local_catalog db;
                    LocalCatalogAuthz.local_authorization :=
                      delete (LocalCatalogAuthz.authz_data_id item,
                              LocalCatalogAuthz.authz_access_grantee_id item)
                        (LocalCatalogAuthz.local_authorization db) |}
                 item entry key dt) as [m Hm]; try eassumption.
    { apply lookup_delete_eq. }
    eexists. rewrite Hm. simpl. split; [reflexivity|]. apply lookup_insert_eq.
Qed.

Lemma duplicate_grant_witness :
  timestamptz (LocalCatalogAuthz.expire_at Demo.bob_grant) < clock Demo.afternoon
  ∧ LocalCatalogAuthz.serve Demo.afternoon Demo.tables
      (LocalCatalogAuthz.AddAuthz Demo.alice_grant_bob)
    = (Some DuplicateGrant, Demo.tables)
  ∧ ∃ db1 db2,
      LocalCatalogAuthz.serve Demo.afternoon Demo.tables
        (LocalCatalogAuthz.DeleteAuthz "sensor001" "bob" Demo.alice_revoke_bob)
      = (None, db1)
      ∧ LocalCatalogAuthz.serve Demo.afternoon db1
          (LocalCatalogAuthz.AddAuthz Demo.alice_grant_bob)
        = (None, db2).
Proof.
  destruct (duplicate_grant_by_presence Demo.afternoon Demo.tables Demo.alice_grant_bob)
    as [Hdup Hagain].
  split; [vm_compute; reflexivity|]. split.
  - destruct (Hdup Demo.bob_grant) as [_ Hexact]; [vm_compute; reflexivity|].
    apply Hexact. exists Demo.sensor001, (Some "PEM:alice").
    repeat split; vm_compute; reflexivity.
  - destruct (LocalCatalogAuthz.delete_authz Demo.afternoon Demo.tables "sensor001" "bob"
                Demo.alice_revoke_bob) as [[m0 db1]|err] eqn:Hdel;
      [|vm_compute in Hdel; discriminate Hdel].
    destruct (Hagain Demo.afternoon Demo.alice_revoke_bob m0 db1 (aware 46800) Hdel)
      as (_ & db2 & Hadd & _).
    + exists Demo.sensor001, (Some "PEM:alice").
      vm_compute in Hdel. injection Hdel as _ <-.
      repeat split; vm_compute; reflexivity.
    + vm_compute. reflexivity.
    + exists db1, db2. split; [|exact Hadd].
      simpl. unfold outcome. rewrite Hdel. reflexivity.
Defined.

(** ** Cascading revocation *)

Lemma delete_data_Return (w : World) (db : LocalCatalogAuthz.Tables) (d : string)
    (req : LocalCatalogAuthz.SignedDeleteCatalogRequest) (m : string)
    (db' : LocalCatalogAuthz.Tables) :
  LocalCatalogAuthz.delete_data w db d req = Return (m, db') →
  is_Some (LocalCatalogAuthz.local_catalog db !! d)
  ∧ db' = LocalCatalogAuthz.delete_cascade db d.
Proof.
  unfold LocalCatalogAuthz.delete_data. intros H.
  destruct (LocalCatalogAuthz.local_catalog db !! d) as [entry|]; [|discriminate H].
  apply bind_Return in H as (u & _ & H).
  apply bind_Return in H as (fresh & _ & H).
  apply bind_Return in H as (key & _ & H).
  apply bind_Return in H as (head & _ & H).
  apply bind_Return in H as (ok & _ & H).
  injection H as _ <-. split; [eauto | reflexivity].
Qed.

Lemma add_data_Return (w : World) (db : LocalCatalogAuthz.Tables)
    (item : LocalCatalogAuthz.DataItem) (m : string) (db' : LocalCatalogAuthz.Tables) :
  LocalCatalogAuthz.add_data w db item = Return (m, db') →
  LocalCatalogAuthz.local_catalog db !! LocalCatalogAuthz.item_data_id item = None
  ∧ is_Some (LocalCatalogAuthz.item_description item)
  ∧ ∃ entry,
      db' = {| LocalCatalogAuthz.local_catalog :=
                 <[LocalCatalogAuthz.item_data_id item := entry]>
                   (LocalCatalogAuthz.local_catalog db);
               LocalCatalogAuthz.local_authorization :=
                 LocalCatalogAuthz.local_authorization db |}.
Proof.
  unfold LocalCatalogAuthz.add_data. intros H.
  apply bind_Return in H as (fresh & _ & H).
  apply bind_Return in H as (key & _ & H).
  apply bind_Return in H as (head & Hhead & H).
  apply bind_Return in H as (ok & _ & H).
  apply bind_Return in H as (u & Hdup & H).
  apply raise_if_Return, bool_decide_eq_false in Hdup.
  injection H as _ <-. split; [|split; [|eauto]].
  - destruct (LocalCatalogAuthz.local_catalog db !! _); [destruct Hdup; eauto | reflexivity].
  - destruct (LocalCatalogAuthz.item_description item); [eauto | discriminate Hhead].
Qed.

Lemma cascade_leaves_no_grant (db : LocalCatalogAuthz.Tables) (d g : string) :
  LocalCatalogAuthz.local_authorization (LocalCatalogAuthz.delete_cascade db d) !! (d, g)
  = None.
Proof.
  unfold LocalCatalogAuthz.delete_cascade. simpl.
  apply map_lookup_filter_None. right. intros x _ Hne. apply Hne. reflexivity.
Qed.

Lemma cascade_keeps_other_grants (db : LocalCatalogAuthz.Tables) (d d2 g : string) :
  d2 ≠ d →
  LocalCatalogAuthz.local_authorization (LocalCatalogAuthz.delete_cascade db d) !! (d2, g)
  = LocalCatalogAuthz.local_authorization db !! (d2, g).
Proof.
  intros Hne. unfold LocalCatalogAuthz.delete_cascade. simpl.
  destruct (LocalCatalogAuthz.local_authorization db !! (d2, g)) as [a|] eqn:E.
  - apply map_lookup_filter_Some. split; [exact E | exact Hne].
  - apply map_lookup_filter_None. left. exact E.
Qed.

Lemma grants_of_empty (db : LocalCatalogAuthz.Tables) (d : string) :
  (∀ g, LocalCatalogAuthz.local_authorization db !! (d, g) = None) →
  LocalCatalogAuthz.grants_of db d = ∅.
Proof.
  intros Hnone. unfold LocalCatalogAuthz.grants_of. apply map_eq. intros [d2 g].
  rewrite lookup_empty. apply map_lookup_filter_None.
  destruct (decide (d2 = d)) as [->|Hne].
  - left. apply Hnone.
  - right. intros x _ Heq. apply Hne. exact Heq.
Qed.

Lemma valid_authz_empty (db : LocalCatalogAuthz.Tables) (d : string) (now : Z) :
  (∀ g, LocalCatalogAuthz.local_authorization db !! (d, g) = None) →
  LocalCatalogAuthz.valid_authz db d now = [].
Proof.
  intros Hnone. unfold LocalCatalogAuthz.valid_authz.
  apply elem_of_nil_inv. intros x Hx.
  apply list_elem_of_fmap in Hx as ([[d2 g] a] & _ & Hin).
  apply list_elem_of_filter in Hin as [[Hd _] Hin]. simpl in Hd. subst d2.
  apply elem_of_map_to_list in Hin. rewrite Hnone in Hin. discriminate Hin.
Qed.

Lemma get_authz_Return (w : World) (db : LocalCatalogAuthz.Tables) (d : string)
    (req : LocalCatalogAuthz.SignedGetRequest) rep db' :
  LocalCatalogAuthz.get_authz w db d req = Return (rep, db') →
  LocalCatalogAuthz.report_valid_authz rep
    = LocalCatalogAuthz.valid_authz db d (timestamptz (now_utc w))
  ∧ LocalCatalogAuthz.valid_authz_count rep
    = length (LocalCatalogAuthz.valid_authz db d (timestamptz (now_utc w))).
Proof.
  unfold LocalCatalogAuthz.get_authz. intros H.
  destruct (LocalCatalogAuthz.local_catalog db !! d) as [entry|]; [|discriminate H].
  apply bind_Return in H as (u & _ & H).
  apply bind_Return in H as (fresh & _ & H).
  apply bind_Return in H as (key & _ & H).
  apply bind_Return in H as (ok & _ & H).
  injection H as <- _. split; reflexivity.
Qed.

(** C8 (cascade).  [delete_data] either fails and commits nothing, or
    commits the removal of the resource together with all its grants.
    After a successful [delete_data] on a resource holding any number of
    grants: no grant for that data_id is on file, the resource is gone,
    grants of other resources are untouched, [get_authz] for it answers 404
    and [debug_all] lists no grant for it.  If the same data_id is then
    published again with [add_data], it has no grants: none is on file and
    [get_authz] reports zero. *)
Theorem revoke_resource_cascades (w : World) (db : LocalCatalogAuthz.Tables) (d : string)
    (req : LocalCatalogAuthz.SignedDeleteCatalogRequest) :
  ((∃ err, LocalCatalogAuthz.serve w db (LocalCatalogAuthz.DeleteData d req)
           = (Some err, db))
   ∨ LocalCatalogAuthz.serve w db (LocalCatalogAuthz.DeleteData d req)
     = (None, LocalCatalogAuthz.delete_cascade db d))
  ∧ ∀ m db', LocalCatalogAuthz.delete_data w db d req = Return (m, db') →
      (∀ N : nat, size (LocalCatalogAuthz.grants_of db d) = N →
                  size (LocalCatalogAuthz.grants_of db' d) = 0%nat)
      ∧ LocalCatalogAuthz.local_catalog db' !! d = None
      ∧ (∀ g, LocalCatalogAuthz.local_authorization db' !! (d, g) = None)
      ∧ (∀ d2 g, d2 ≠ d →
           LocalCatalogAuthz.local_authorization db' !! (d2, g)
           = LocalCatalogAuthz.local_authorization db !! (d2, g))
      ∧ (∀ w1 req1, LocalCatalogAuthz.get_authz w1 db' d req1
                    = Raise (HTTPException 404 "DataID not found."))
      ∧ (∀ rep db1, LocalCatalogAuthz.debug_all db' = Return (rep, db1) →
           ∀ row, row ∈ LocalCatalogAuthz.authz_rows rep → row.1.1 ≠ d)
      ∧ (∀ w2 item m2 db2,
           LocalCatalogAuthz.item_data_id item = d →
           LocalCatalogAuthz.add_data w2 db' item = Return (m2, db2) →
           LocalCatalogAuthz.grants_of db2 d = ∅
           ∧ ∀ w3 req3 rep db3,
               LocalCatalogAuthz.get_authz w3 db2 d req3 = Return (rep, db3) →
               LocalCatalogAuthz.valid_authz_count rep = 0%nat
               ∧ LocalCatalogAuthz.report_valid_authz rep = []).
Proof.
  split.
  - simpl. destruct (LocalCatalogAuthz.delete_data w db d req) as [[m db']|err] eqn:E.
    + right. apply delete_data_Return in E as [_ ->]. reflexivity.
    + left. eauto.
  - intros m db' Hdel. apply delete_data_Return in Hdel as [_ ->].
    assert (Hnone : ∀ g, LocalCatalogAuthz.local_authorization
                           (LocalCatalogAuthz.delete_cascade db d) !! (d, g) = None)
      by (intros g; apply cascade_leaves_no_grant).
    repeat split.
    + intros N _. rewrite (grants_of_empty _ _ Hnone). apply map_size_empty.
    + apply lookup_delete_eq.
    + exact Hnone.
    + intros d2 g Hne. apply cascade_keeps_other_grants. exact Hne.
    + intros w1 req1. unfold LocalCatalogAuthz.get_authz. simpl.
      rewrite lookup_delete_eq. reflexivity.
    + intros rep db1 [= <- _] [[d2 g] a] Hin Heq. simpl in *. subst d2.
      apply elem_of_map_to_list in Hin. rewrite Hnone in Hin. discriminate Hin.
    + apply add_data_Return in H0 as (_ & _ & entry & ->). subst d.
      apply grants_of_empty. exact Hnone.
    + apply add_data_Return in H0 as (_ & _ & entry & ->).
      apply get_authz_Return in H1 as [_ ->]. subst d.
      rewrite valid_authz_empty; [reflexivity | exact Hnone].
    + apply add_data_Return in H0 as (_ & _ & entry & ->).
      apply get_authz_Return in H1 as [-> _]. subst d.
      apply valid_authz_empty. exact Hnone.
Qed.

Lemma revoke_resource_witness :
  size (LocalCatalogAuthz.grants_of Demo.busy_tables "sensor001") = 2%nat
  ∧ ∃ db' db2,
      LocalCatalogAuthz.serve Demo.morning Demo.busy_tables
        (LocalCatalogAuthz.DeleteData "sensor001" Demo.alice_delete) = (None, db')
      ∧ size (LocalCatalogAuthz.grants_of db' "sensor001") = 0%nat
      ∧ LocalCatalogAuthz.local_authorization db' !! ("camera002", "carol")
        = Some Demo.carol_grant
      ∧ LocalCatalogAuthz.serve Demo.morning db' (LocalCatalogAuthz.AddData Demo.alice_publish)
        = (None, db2)
      ∧ LocalCatalogAuthz.grants_of db2 "sensor001" = ∅.
Proof.
  split; [vm_compute; reflexivity|].
  destruct (revoke_resource_cascades Demo.morning Demo.busy_tables "sensor001" Demo.alice_delete)
    as [_ Hafter].
  destruct (LocalCatalogAuthz.delete_data Demo.morning Demo.busy_tables "sensor001" Demo.alice_delete)
    as [[m db']|err] eqn:Hdel; [|vm_compute in Hdel; discriminate Hdel].
  destruct (Hafter m db' eq_refl) as (Hzero & _ & _ & Hother & _ & _ & Hagain).
  destruct (LocalCatalogAuthz.add_data Demo.morning db' Demo.alice_publish)
    as [[m2 db2]|err] eqn:Hadd.
  - exists db', db2. repeat split.
    + simpl. unfold outcome. rewrite Hdel. reflexivity.
    + apply (Hzero 2%nat). vm_compute. reflexivity.
    + rewrite Hother; [vm_compute; reflexivity | discriminate].
    + simpl. unfold outcome. rewrite Hadd. reflexivity.
    + apply (Hagain Demo.morning Demo.alice_publish m2 db2 eq_refl Hadd).
  - vm_compute in Hdel. injection Hdel as _ <-. vm_compute in Hadd. discriminate Hadd.
Defined.

(** ** A request without description *)

Lemma add_data_without_description (w : World) (db : LocalCatalogAuthz.Tables)
    (item : LocalCatalogAuthz.DataItem) key :
  LocalCatalogAuthz.item_description item = None →
  LocalCatalogAuthz.check_expire_time w (LocalCatalogAuthz.item_expire_time item)
    = Return true →
  LocalCatalogAuthz.get_public_key w (LocalCatalogAuthz.item_admin_id item) = Return key →
  LocalCatalogAuthz.add_data w db item = Raise (TypeError ConcatStrNone).
Proof.
  intros Hnone Hfresh Hkey. unfold LocalCatalogAuthz.add_data.
  rewrite Hfresh. simpl. rewrite Hkey. simpl. rewrite Hnone. reflexivity.
Qed.

Lemma delete_data_without_description (w : World) (db : LocalCatalogAuthz.Tables)
    (d : string) (req : LocalCatalogAuthz.SignedDeleteCatalogRequest) entry key :
  LocalCatalogAuthz.del_description req = None →
  LocalCatalogAuthz.local_catalog db !! d = Some entry →
  LocalCatalogAuthz.del_admin_id req = LocalCatalogAuthz.admin_id entry →
  LocalCatalogAuthz.del_endpoint req = LocalCatalogAuthz.endpoint entry →
  or_empty (LocalCatalogAuthz.description entry) = EmptyString →
  LocalCatalogAuthz.check_expire_time w (LocalCatalogAuthz.del_expire_time req)
    = Return true →
  LocalCatalogAuthz.get_public_key w (LocalCatalogAuthz.del_admin_id req) = Return key →
  LocalCatalogAuthz.delete_data w db d req = Raise (TypeError ConcatStrNone).
Proof.
  intros Hnone Hentry Hadmin Hend Hdesc Hfresh Hkey.
  unfold LocalCatalogAuthz.delete_data. rewrite Hentry.
  rewrite (bool_decide_eq_false_2 (d ≠ d)) by (intros Hne; apply Hne; reflexivity).
  rewrite (bool_decide_eq_false_2 (_ ≠ LocalCatalogAuthz.admin_id entry))
    by (intros Hne; apply Hne; exact Hadmin).
  rewrite (bool_decide_eq_false_2 (_ ≠ LocalCatalogAuthz.endpoint entry))
    by (intros Hne; apply Hne; exact Hend).
  rewrite (bool_decide_eq_false_2 (or_empty _ ≠ _))
    by (intros Hne; apply Hne; rewrite Hnone, Hdesc; reflexivity).
  simpl. rewrite Hfresh. simpl. rewrite Hkey. simpl. rewrite Hnone. reflexivity.
Qed.

Lemma delete_data_Return_description (w : World) (db : LocalCatalogAuthz.Tables)
    (d : string) (req : LocalCatalogAuthz.SignedDeleteCatalogRequest) m db' :
  LocalCatalogAuthz.delete_data w db d req = Return (m, db') →
  is_Some (LocalCatalogAuthz.del_description req).
Proof.
  unfold LocalCatalogAuthz.delete_data. intros H.
  destruct (LocalCatalogAuthz.local_catalog db !! d) as [entry|]; [|discriminate H].
  apply bind_Return in H as (u & _ & H).
  apply bind_Return in H as (fresh & _ & H).
  apply bind_Return in H as (key & _ & H).
  apply bind_Return in H as (head & Hhead & H).
  destruct (LocalCatalogAuthz.del_description req); [eauto | discriminate Hhead].
Qed.

(** C9 (description left out).  The request schemas of [add_data] and
    [delete_data] admit a description that is None.  When such a request
    reaches the construction of the signed message -- in [add_data] after
    the expiry check and the key lookup, in [delete_data] when in addition
    the stored record matches, which for a missing description means that
    the stored description is empty -- the concatenation raises TypeError:
    the handler raises no HTTPException, FastAPI answers with a bare
    Internal Server Error, and nothing is committed.  In no case does a
    request without description succeed. *)
Theorem missing_description_raises_TypeError (w : World) (db : LocalCatalogAuthz.Tables) :
  (∀ item key,
     LocalCatalogAuthz.item_description item = None →
     LocalCatalogAuthz.check_expire_time w (LocalCatalogAuthz.item_expire_time item)
       = Return true →
     LocalCatalogAuthz.get_public_key w (LocalCatalogAuthz.item_admin_id item)
       = Return key →
     LocalCatalogAuthz.serve w db (LocalCatalogAuthz.AddData item)
       = (Some (TypeError ConcatStrNone), db)
     ∧ respond (LocalCatalogAuthz.add_data w db item) = InternalServerError)
  ∧ (∀ d req entry key,
     LocalCatalogAuthz.del_description req = None →
     LocalCatalogAuthz.local_catalog db !! d = Some entry →
     LocalCatalogAuthz.del_admin_id req = LocalCatalogAuthz.admin_id entry →
     LocalCatalogAuthz.del_endpoint req = LocalCatalogAuthz.endpoint entry →
     or_empty (LocalCatalogAuthz.description entry) = EmptyString →
     LocalCatalogAuthz.check_expire_time w (LocalCatalogAuthz.del_expire_time req)
       = Return true →
     LocalCatalogAuthz.get_public_key w (LocalCatalogAuthz.del_admin_id req)
       = Return key →
     LocalCatalogAuthz.serve w db (LocalCatalogAuthz.DeleteData d req)
       = (Some (TypeError ConcatStrNone), db)
     ∧ respond (LocalCatalogAuthz.delete_data w db d req) = InternalServerError)
  ∧ (∀ item, LocalCatalogAuthz.item_description item = None →
       ∃ err, LocalCatalogAuthz.serve w db (LocalCatalogAuthz.AddData item)
              = (Some err, db))
  ∧ (∀ d req, LocalCatalogAuthz.del_description req = None →
       ∃ err, LocalCatalogAuthz.serve w db (LocalCatalogAuthz.DeleteData d req)
              = (Some err, db)).
Proof.
  split; [|split; [|split]].
  - intros item key Hnone Hfresh Hkey. simpl.
    rewrite (add_data_without_description _ _ _ _ Hnone Hfresh Hkey).
    split; reflexivity.
  - intros d req entry key Hnone Hentry Hadmin Hend Hdesc Hfresh Hkey. simpl.
    rewrite (delete_data_without_description _ _ _ _ _ _ Hnone Hentry Hadmin Hend
               Hdesc Hfresh Hkey).
    split; reflexivity.
  - intros item Hnone. simpl.
    destruct (LocalCatalogAuthz.add_data w db item) as [[m db']|err] eqn:E.
    + apply add_data_Return in E as (_ & [x Hx] & _). congruence.
    + eexists. reflexivity.
  - intros d req Hnone. simpl.
    destruct (LocalCatalogAuthz.delete_data w db d req) as [[m db']|err] eqn:E.
    + apply delete_data_Return_description in E as [x Hx]. congruence.
    + eexists. reflexivity.
Qed.

Lemma missing_description_witness :
  LocalCatalogAuthz.serve Demo.morning Demo.blank_tables
    (LocalCatalogAuthz.AddData Demo.publish_without_description)
  = (Some (TypeError ConcatStrNone), Demo.blank_tables)
  ∧ LocalCatalogAuthz.serve Demo.morning Demo.blank_tables
      (LocalCatalogAuthz.DeleteData "blank001" Demo.delete_without_description)
    = (Some (TypeError ConcatStrNone), Demo.blank_tables).
Proof.
  destruct (missing_description_raises_TypeError Demo.morning Demo.blank_tables)
    as (Hadd & Hdel & _ & _).
  split.
  - apply (Hadd Demo.publish_without_description (Some "PEM:alice"));
      vm_compute; reflexivity.
  - apply (Hdel "blank001" Demo.delete_without_description Demo.blank001
             (Some "PEM:alice")); vm_compute; reflexivity.
Defined.

(** ** No orphaned grant *)

Ltac run_calls :=
  repeat match goal with
         | |- context [mbind _ ?m] => destruct m; simpl
         end.

Lemma get_data_commits_nothing (w : World) (db : LocalCatalogAuthz.Tables) (d : string)
    (req : LocalCatalogAuthz.SignedGetRequest) :
  committed db (LocalCatalogAuthz.get_data w db d req) = db.
Proof.
  unfold LocalCatalogAuthz.get_data.
  destruct (LocalCatalogAuthz.local_catalog db !! d); simpl; [|reflexivity].
  run_calls; reflexivity.
Qed.

Lemma get_authz_commits_nothing (w : World) (db : LocalCatalogAuthz.Tables) (d : string)
    (req : LocalCatalogAuthz.SignedGetRequest) :
  committed db (LocalCatalogAuthz.get_authz w db d req) = db.
Proof.
  unfold LocalCatalogAuthz.get_authz.
  destruct (LocalCatalogAuthz.local_catalog db !! d); simpl; [|reflexivity].
  run_calls; reflexivity.
Qed.

Lemma serve_keeps_no_orphans (w : World) (db : LocalCatalogAuthz.Tables)
    (rq : LocalCatalogAuthz.request) :
  no_orphans db → no_orphans (LocalCatalogAuthz.serve w db rq).2.
Proof.
  intros Hinv. destruct rq as [item|item|d req|d req|d req|d g req| |]; simpl.
  - destruct (LocalCatalogAuthz.add_data w db item) as [[m db']|err] eqn:E; [|exact Hinv].
    apply add_data_Return in E as (_ & _ & entry & ->). simpl.
    intros d g a Ha. simpl in *. apply Hinv in Ha.
    rewrite lookup_insert_is_Some'. right. exact Ha.
  - destruct (LocalCatalogAuthz.add_authz w db item) as [[m db']|err] eqn:E; [|exact Hinv].
    apply add_authz_Return in E as (Hcat & _ & grant & ->). simpl.
    intros d g a Ha. simpl in *.
    destruct (decide ((LocalCatalogAuthz.authz_data_id item,
                       LocalCatalogAuthz.authz_access_grantee_id item) = (d, g)))
      as [[= <- <-]|Hne].
    + exact Hcat.
    + rewrite lookup_insert_ne in Ha by exact Hne. eapply Hinv, Ha.
  - rewrite get_data_commits_nothing. exact Hinv.
  - rewrite get_authz_commits_nothing. exact Hinv.
  - destruct (LocalCatalogAuthz.delete_data w db d req) as [[m db']|err] eqn:E;
      [|exact Hinv].
    apply delete_data_Return in E as [_ ->]. simpl.
    intros d2 g a Ha. simpl in *.
    apply map_lookup_filter_Some in Ha as [Ha Hne]. simpl in Hne.
    rewrite lookup_delete_ne by congruence. eapply Hinv, Ha.
  - destruct (LocalCatalogAuthz.delete_authz w db d g req) as [[m db']|err] eqn:E;
      [|exact Hinv].
    apply delete_authz_Return in E as [_ ->]. simpl.
    intros d2 g2 a Ha. simpl in *.
    apply lookup_delete_Some in Ha as [_ Ha]. eapply Hinv, Ha.
  - exact Hinv.
  - intros d g a Ha. simpl in Ha. rewrite lookup_empty in Ha. discriminate Ha.
Qed.

Lemma run_keeps_no_orphans (trace : list (World * LocalCatalogAuthz.request))
    (db : LocalCatalogAuthz.Tables) :
  no_orphans db → no_orphans (LocalCatalogAuthz.run db trace).
Proof.
  revert db. induction trace as [|[w rq] rest IH]; intros db Hinv; simpl.
  - exact Hinv.
  - apply IH, serve_keeps_no_orphans, Hinv.
Qed.

(** C10 (no orphaned grant).  Every grant on file names a resource on file:
    this holds of the empty tables, every request of the service preserves
    it, and so it holds after any sequence of requests.  In particular
    [add_authz] files a grant only for a data_id that the catalog holds, and
    a successful [delete_data] leaves no grant of the deleted resource. *)
Theorem no_orphaned_grant :
  no_orphans LocalCatalogAuthz.empty_tables
  ∧ (∀ w db rq, no_orphans db → no_orphans (LocalCatalogAuthz.serve w db rq).2)
  ∧ (∀ trace, no_orphans (LocalCatalogAuthz.run LocalCatalogAuthz.empty_tables trace))
  ∧ (∀ w db item m db',
       LocalCatalogAuthz.add_authz w db item = Return (m, db') →
       is_Some (LocalCatalogAuthz.local_catalog db
                  !! LocalCatalogAuthz.authz_data_id item))
  ∧ (∀ w db d req m db' g,
       LocalCatalogAuthz.delete_data w db d req = Return (m, db') →
       LocalCatalogAuthz.local_authorization db' !! (d, g) = None).
Proof.
  assert (Hempty : no_orphans LocalCatalogAuthz.empty_tables).
  { intros d g a Ha. simpl in Ha. rewrite lookup_empty in Ha. discriminate Ha. }
  split; [exact Hempty|]. split; [|split; [|split]].
  - intros w db rq. apply serve_keeps_no_orphans.
  - intros trace. apply run_keeps_no_orphans, Hempty.
  - intros w db item m db' E. apply add_authz_Return in E as (Hcat & _). exact Hcat.
  - intros w db d req m db' g E. apply delete_data_Return in E as [_ ->].
    apply cascade_leaves_no_grant.
Qed.

Lemma no_orphaned_grant_witness :
  no_orphans (LocalCatalogAuthz.run LocalCatalogAuthz.empty_tables Demo.session)
  ∧ (LocalCatalogAuthz.serve (Demo.morning)
       LocalCatalogAuthz.empty_tables
       (LocalCatalogAuthz.AddAuthz Demo.alice_grant_bob)).2
    = LocalCatalogAuthz.empty_tables.
Proof.
  destruct no_orphaned_grant as (_ & _ & Hrun & _).
  split; [apply Hrun | vm_compute; reflexivity].
Defined.

(** ** Destruction of key records *)

Lemma registry_add_key_keeps (w : World) (db : gmap string PublicKeyRegistry.PublicKey)
    (req : PublicKeyRegistry.RegisterRequest) (uid : string) key :
  db !! uid = Some key →
  committed db (PublicKeyRegistry.add_key w db req) !! uid = Some key.
Proof.
  intros Hkey. destruct (PublicKeyRegistry.add_key w db req) as [[m db']|err] eqn:E;
    [|exact Hkey].
  unfold PublicKeyRegistry.add_key in E.
  apply bind_Return in E as (fresh & _ & E).
  apply bind_Return in E as (u1 & _ & E).
  apply bind_Return in E as (u2 & _ & E).
  apply bind_Return in E as (u3 & Hfree & E).
  apply raise_if_Return, bool_decide_eq_false in Hfree.
  injection E as _ <-. simpl.
  rewrite lookup_insert_ne; [exact Hkey|].
  intros Heq. apply Hfree. rewrite Heq. eauto.
Qed.

Lemma registry_delete_key_Return (w : World) (db : gmap string PublicKeyRegistry.PublicKey)
    (req : PublicKeyRegistry.DeleteRequest) m db' :
  PublicKeyRegistry.delete_key w db req = Return (m, db') →
  PublicKeyRegistry.check_expire_time w (PublicKeyRegistry.del_expire_time req)
    = Return true
  ∧ PublicKeyRegistry.verify_signature w (PublicKeyRegistry.del_public_key req)
      (PublicKeyRegistry.del_user_id req +:+ PublicKeyRegistry.del_public_key req
       +:+ PublicKeyRegistry.del_expire_time req)
      (PublicKeyRegistry.del_signature req) = true
  ∧ db' = delete (PublicKeyRegistry.del_user_id req) db.
Proof.
  unfold PublicKeyRegistry.delete_key. intros E.
  apply bind_Return in E as (fresh & Hfresh & E).
  apply bind_Return in E as (u1 & Hf & E).
  apply bind_Return in E as (u2 & Hsig & E).
  apply raise_if_Return, negb_false_iff in Hf. subst fresh.
  apply raise_if_Return, negb_false_iff in Hsig.
  destruct (db !! PublicKeyRegistry.del_user_id req); [|discriminate E].
  injection E as _ <-. auto.
Qed.

(** The stored key plays no part in [delete_key]: what it does depends on
    the table only through whether the identity has a record. *)
Lemma registry_delete_key_ignores_stored_key (w : World)
    (db : gmap string PublicKeyRegistry.PublicKey) (req : PublicKeyRegistry.DeleteRequest)
    (other : PublicKeyRegistry.PublicKey) :
  is_Some (db !! PublicKeyRegistry.del_user_id req) →
  failure (PublicKeyRegistry.delete_key w
             (<[PublicKeyRegistry.del_user_id req := other]> db) req)
  = failure (PublicKeyRegistry.delete_key w db req).
Proof.
  intros [key Hkey]. unfold PublicKeyRegistry.delete_key.
  rewrite lookup_insert_eq, Hkey. run_calls; reflexivity.
Qed.

(** C1, as far as the code holds it by design.  A key record is destroyed
    only by [delete_all_keys], which takes no signature and removes every
    record, or by a remove request that names the identity; and when that
    request submits the very key on file, its signature verifies against
    that key.  [add_key], [get_key] and [list_keys] leave every record in
    place.  What becomes of a remove request that submits another key than
    the one on file is not part of this statement. *)
Theorem key_destroyed_only_by_delete (w : World)
    (db : gmap string PublicKeyRegistry.PublicKey) (rq : PublicKeyRegistry.request)
    (uid : string) (key : PublicKeyRegistry.PublicKey) :
  db !! uid = Some key →
  (PublicKeyRegistry.serve w db rq).2 !! uid = None →
  rq = PublicKeyRegistry.DeleteAll
  ∨ ∃ req, rq = PublicKeyRegistry.Delete req
           ∧ PublicKeyRegistry.del_user_id req = uid
           ∧ (PublicKeyRegistry.del_public_key req = PublicKeyRegistry.public_key key →
              PublicKeyRegistry.verify_signature w (PublicKeyRegistry.public_key key)
                (uid +:+ PublicKeyRegistry.public_key key
                 +:+ PublicKeyRegistry.del_expire_time req)
                (PublicKeyRegistry.del_signature req) = true).
Proof.
  intros Hkey Hgone. destruct rq as [req|u|req| |]; simpl in Hgone.
  - rewrite (registry_add_key_keeps _ _ _ _ _ Hkey) in Hgone. discriminate Hgone.
  - unfold PublicKeyRegistry.get_key in Hgone.
    destruct (db !! u); simpl in Hgone; congruence.
  - right. exists req.
    destruct (PublicKeyRegistry.delete_key w db req) as [[m db']|err] eqn:E;
      simpl in Hgone; [|congruence].
    apply registry_delete_key_Return in E as (Hfresh & Hsig & ->).
    destruct (decide (PublicKeyRegistry.del_user_id req = uid)) as [<-|Hne].
    + split; [reflexivity|]. split; [reflexivity|].
      intros <-. exact Hsig.
    + rewrite lookup_delete_ne in Hgone by exact Hne. congruence.
  - congruence.
  - left. reflexivity.
Qed.

Lemma key_destroyed_witness :
  Demo.registry !! "alice" = Some Demo.alice_key
  ∧ (PublicKeyRegistry.serve (Demo.offline 43000) Demo.registry
       (PublicKeyRegistry.Delete Demo.alice_remove)).2 !! "alice" = None
  ∧ PublicKeyRegistry.del_public_key Demo.alice_remove
    = PublicKeyRegistry.public_key Demo.alice_key
  ∧ PublicKeyRegistry.verify_signature (Demo.offline 43000)
      (PublicKeyRegistry.public_key Demo.alice_key)
      ("alice" +:+ PublicKeyRegistry.public_key Demo.alice_key
       +:+ PublicKeyRegistry.del_expire_time Demo.alice_remove)
      (PublicKeyRegistry.del_signature Demo.alice_remove) = true.
Proof.
  assert (H1 : Demo.registry !! "alice" = Some Demo.alice_key)
    by (vm_compute; reflexivity).
  assert (H2 : (PublicKeyRegistry.serve (Demo.offline 43000) Demo.registry
                  (PublicKeyRegistry.Delete Demo.alice_remove)).2 !! "alice" = None)
    by (vm_compute; reflexivity).
  split; [exact H1|]. split; [exact H2|]. split; [reflexivity|].
  destruct (key_destroyed_only_by_delete (Demo.offline 43000) Demo.registry
              (PublicKeyRegistry.Delete Demo.alice_remove) "alice" Demo.alice_key H1 H2)
    as [Hall|(req & Hrq & _ & Hsig)].
  - discriminate Hall.
  - injection Hrq as <-. apply Hsig. reflexivity.
Defined.

(** C1, as the specification has it, fails: [delete_all_keys] removes
    Alice's record, and no remove request is involved. *)
Lemma key_destroyed_by_delete_all :
  Demo.registry !! "alice" = Some Demo.alice_key
  ∧ (PublicKeyRegistry.serve (Demo.offline 43000) Demo.registry
       PublicKeyRegistry.DeleteAll).2 !! "alice" = None
  ∧ ¬ destroyed_only_by_matching_signed_delete.
Proof.
  assert (H1 : Demo.registry !! "alice" = Some Demo.alice_key)
    by (vm_compute; reflexivity).
  assert (H2 : (PublicKeyRegistry.serve (Demo.offline 43000) Demo.registry
                  PublicKeyRegistry.DeleteAll).2 !! "alice" = None)
    by (vm_compute; reflexivity).
  split; [exact H1|]. split; [exact H2|].
  intros Hclaim.
  destruct (Hclaim _ _ _ _ _ H1 H2) as (req & Hrq & _). discriminate Hrq.
Qed.

(** The code at a remove request that submits another key than the one on
    file: Mallory signs for Alice's identity with Mallory's own key, and
    Alice's record is removed.  [delete_key] loads the record only to see
    that there is one; it never reads its [public_key]. *)
Example mallory_removes_alice :
  PublicKeyRegistry.del_public_key Demo.mallory_remove
    ≠ PublicKeyRegistry.public_key Demo.alice_key
  ∧ PublicKeyRegistry.serve (Demo.offline 43000) Demo.registry
      (PublicKeyRegistry.Delete Demo.mallory_remove)
    = (None, delete "alice" Demo.registry).
Proof. split; [discriminate | vm_compute; reflexivity]. Qed.

(** ** Resolving a key through the directory *)

(** C2, on the code.  [get_public_key] raises its 403 "Public key not
    found." inside the [try] whose [except Exception] turns every exception
    into a 500; so a directory that answers that the identity has no key
    (any status other than 200) and a directory that cannot be reached both
    end in an HTTPException with status 500, in the federated catalog as in
    the local one: the two failures fall in the same response class. *)
Theorem missing_key_and_outage_both_500 (w : World) (uid : string) :
  (∀ e, requests_get w (FederatedCatalog.PUBLIC_KEY_REGISTRY_URL +:+ "/get/" +:+ uid)
        = Raise e →
     FederatedCatalog.get_public_key w uid
     = Raise (HTTPException 500 ("Failed to fetch public key: " +:+ str_exn w e))
     ∧ LocalCatalogAuthz.get_public_key w uid
       = Raise (HTTPException 500 ("Failed to fetch public key: " +:+ str_exn w e)))
  ∧ (∀ res, requests_get w (FederatedCatalog.PUBLIC_KEY_REGISTRY_URL +:+ "/get/" +:+ uid)
            = Return res →
     status_code_of res ≠ 200 →
     FederatedCatalog.get_public_key w uid
     = Raise (HTTPException 500
                ("Failed to fetch public key: "
                 +:+ str_exn w (HTTPException 403 "Public key not found.")))
     ∧ LocalCatalogAuthz.get_public_key w uid
       = Raise (HTTPException 500
                  ("Failed to fetch public key: "
                   +:+ str_exn w (HTTPException 403 "Public key not found."))))
  ∧ (∀ detail, class_of (HTTPException 500 detail) = ServerErrorResponse).
Proof.
  split; [|split].
  - intros e He.
    change (LocalCatalogAuthz.get_public_key w uid)
      with (FederatedCatalog.get_public_key w uid).
    unfold FederatedCatalog.get_public_key. rewrite He. split; reflexivity.
  - intros res Hres Hst.
    change (LocalCatalogAuthz.get_public_key w uid)
      with (FederatedCatalog.get_public_key w uid).
    unfold FederatedCatalog.get_public_key. rewrite Hres. simpl.
    rewrite bool_decide_eq_true_2 by exact Hst. split; reflexivity.
  - intros detail. reflexivity.
Qed.

Lemma missing_key_and_outage_witness :
  FederatedCatalog.get_public_key (Demo.offline 43000) "carol"
  = Raise (HTTPException 500 "Failed to fetch public key: connection refused")
  ∧ FederatedCatalog.get_public_key (Demo.morning) "carol"
    = Raise (HTTPException 500 "Failed to fetch public key: 403: Public key not found.")
  ∧ FederatedCatalog.get_public_key (Demo.morning) "alice"
    = Return (Some "PEM:alice").
Proof.
  destruct (missing_key_and_outage_both_500 (Demo.offline 43000) "carol")
    as (Hout & _ & _).
  destruct (missing_key_and_outage_both_500 (Demo.morning) "carol")
    as (_ & Hmiss & _).
  split; [|split].
  - apply (Hout (LibraryError "ConnectionError" "connection refused")). reflexivity.
  - refine (proj1 (Hmiss {| status_code_of := 404;
                            json := Return {[ "detail" := "Key not found" ]} |} _ _)).
    + vm_compute. reflexivity.
    + simpl. lia.
  - vm_compute. reflexivity.
Defined.

(** ** A grant for a resource that is not there *)

Lemma check_expire_time_Raise (w : World) (s : string) (err : exn) :
  LocalCatalogAuthz.check_expire_time w s = Raise err →
  class_of err ≠ NotFoundResponse.
Proof.
  unfold LocalCatalogAuthz.check_expire_time.
  destruct (fromisoformat w _) as [dt|x]; simpl.
  - destruct (datetime_gt (now_utc w) dt) as [[|]|x] eqn:E; simpl.
    + intros [= <-]. discriminate.
    + discriminate.
    + unfold datetime_gt in E.
      destruct (utcoffset (now_utc w)), (utcoffset dt); try discriminate E;
        injection E as <-; intros [= <-]; discriminate.
  - intros [= <-]. discriminate.
Qed.

(** C3, on the code.  [add_authz] looks the administrator up through
    [get_admin_id_by_data_id], which raises its 404 inside a [try] whose
    [except Exception] turns it into a 500.  So a grant request naming a
    data_id that the catalog does not hold is answered, once its
    [expire_time] is accepted, with status 500 (a server error, not
    NotFound), and whatever its [expire_time] it is never answered with
    NotFound; nothing is committed. *)
Theorem grant_on_missing_resource_is_500 (w : World) (db : LocalCatalogAuthz.Tables)
    (item : LocalCatalogAuthz.AuthZItem) :
  LocalCatalogAuthz.local_catalog db !! LocalCatalogAuthz.authz_data_id item = None →
  (LocalCatalogAuthz.check_expire_time w (LocalCatalogAuthz.authz_expire_time item)
     = Return true →
   LocalCatalogAuthz.serve w db (LocalCatalogAuthz.AddAuthz item)
   = (Some (HTTPException 500
              ("Failed to retrieve admin_id for DataID '"
               +:+ LocalCatalogAuthz.authz_data_id item +:+ "': "
               +:+ str_exn w (HTTPException 404
                                ("DataID '" +:+ LocalCatalogAuthz.authz_data_id item
                                 +:+ "' not found in catalog.")))),
      db))
  ∧ (∃ err, LocalCatalogAuthz.serve w db (LocalCatalogAuthz.AddAuthz item)
            = (Some err, db)
            ∧ class_of err ≠ NotFoundResponse).
Proof.
  intros Hnone. split.
  - intros Hfresh. simpl. unfold LocalCatalogAuthz.add_authz.
    rewrite Hfresh. simpl. unfold LocalCatalogAuthz.get_admin_id_by_data_id.
    rewrite Hnone. reflexivity.
  - simpl. unfold LocalCatalogAuthz.add_authz.
    destruct (LocalCatalogAuthz.check_expire_time w _) as [b|err] eqn:E; simpl.
    + unfold LocalCatalogAuthz.get_admin_id_by_data_id. rewrite Hnone. simpl.
      eexists. split; [reflexivity | discriminate].
    + exists err. split; [reflexivity|]. eapply check_expire_time_Raise, E.
Qed.

Lemma grant_on_missing_resource_witness :
  LocalCatalogAuthz.serve (Demo.morning) Demo.tables
    (LocalCatalogAuthz.AddAuthz Demo.grant_on_ghost)
  = (Some (HTTPException 500
             "Failed to retrieve admin_id for DataID 'ghost': 404: DataID 'ghost' not found in catalog."),
     Demo.tables).
Proof.
  destruct (grant_on_missing_resource_is_500 (Demo.morning)
              Demo.tables Demo.grant_on_ghost) as [H500 _].
  - vm_compute. reflexivity.
  - apply H500. vm_compute. reflexivity.
Defined.

(** ** The two failures of the verifier *)

Lemma federated_verify_bad_signature (w : World) k (m s : string) :
  ecdsa_verify w k m s = Raise BadSignatureError →
  FederatedCatalog.verify_signature w k m s
  = Raise (HTTPException 403 "Invalid signature.").
Proof. intros H. unfold FederatedCatalog.verify_signature. rewrite H. reflexivity. Qed.

Lemma federated_verify_undecodable (w : World) k (m s : string) (e : exn) :
  ecdsa_verify w k m s = Raise e → e ≠ BadSignatureError →
  FederatedCatalog.verify_signature w k m s
  = Raise (HTTPException 400 ("Signature verification error: " +:+ str_exn w e)).
Proof.
  intros H Hne. unfold FederatedCatalog.verify_signature. rewrite H.
  destruct e; try reflexivity. destruct Hne. reflexivity.
Qed.

Lemma registry_verify_failure (w : World) (k m s : string) (e : exn) :
  ecdsa_verify w (Some k) m s = Raise e →
  PublicKeyRegistry.verify_signature w k m s = false.
Proof.
  intros H. unfold PublicKeyRegistry.verify_signature. rewrite H.
  destruct e; reflexivity.
Qed.

Lemma federated_distinguishes : distinguishes id FederatedCatalog.verify_signature.
Proof.
  intros w k1 m1 s1 k2 m2 s2 e Hbad Hraise Hne. unfold id in *.
  rewrite (federated_verify_bad_signature _ _ _ _ Hbad).
  rewrite (federated_verify_undecodable _ _ _ _ _ Hraise Hne). discriminate.
Qed.

(** C4, as the code has it.  In the federated catalog and in the local
    catalog, [verify_signature] raises InvalidSignature (403, "Invalid
    signature.") when the signature does not verify and the distinct
    MalformedInput (400, "Signature verification error: ...") when decoding
    the key or the signature raises anything else, so their callers can
    tell the two apart.  In the key registry [verify_signature] returns
    False in both cases, and [add_key] and [delete_key] answer both with the
    same 400 "Invalid signature". *)
Theorem verifier_failures_by_service (w : World) :
  (∀ k m s, ecdsa_verify w k m s = Raise BadSignatureError →
     FederatedCatalog.verify_signature w k m s
     = Raise (HTTPException 403 "Invalid signature.")
     ∧ LocalCatalogAuthz.verify_signature w k m s
       = Raise (HTTPException 403 "Invalid signature."))
  ∧ (∀ k m s e, ecdsa_verify w k m s = Raise e → e ≠ BadSignatureError →
     FederatedCatalog.verify_signature w k m s
     = Raise (HTTPException 400 ("Signature verification error: " +:+ str_exn w e))
     ∧ LocalCatalogAuthz.verify_signature w k m s
       = Raise (HTTPException 400 ("Signature verification error: " +:+ str_exn w e)))
  ∧ distinguishes id FederatedCatalog.verify_signature
  ∧ distinguishes id LocalCatalogAuthz.verify_signature
  ∧ (∀ k m s e, ecdsa_verify w (Some k) m s = Raise e →
     PublicKeyRegistry.verify_signature w k m s = false)
  ∧ (∀ db req e,
     PublicKeyRegistry.check_expire_time w (PublicKeyRegistry.reg_expire_time req)
       = Return true →
     ecdsa_verify w (Some (PublicKeyRegistry.reg_public_key req))
       (PublicKeyRegistry.reg_user_id req +:+ PublicKeyRegistry.reg_public_key req
        +:+ PublicKeyRegistry.reg_expire_time req)
       (PublicKeyRegistry.reg_signature req) = Raise e →
     PublicKeyRegistry.serve w db (PublicKeyRegistry.Add req)
     = (Some (HTTPException 400 "Invalid signature"), db))
  ∧ (∀ db req e,
     PublicKeyRegistry.check_expire_time w (PublicKeyRegistry.del_expire_time req)
       = Return true →
     ecdsa_verify w (Some (PublicKeyRegistry.del_public_key req))
       (PublicKeyRegistry.del_user_id req +:+ PublicKeyRegistry.del_public_key req
        +:+ PublicKeyRegistry.del_expire_time req)
       (PublicKeyRegistry.del_signature req) = Raise e →
     PublicKeyRegistry.serve w db (PublicKeyRegistry.Delete req)
     = (Some (HTTPException 400 "Invalid signature"), db)).
Proof.
  repeat split.
  - apply federated_verify_bad_signature. assumption.
  - apply (federated_verify_bad_signature w k m s). assumption.
  - apply federated_verify_undecodable; assumption.
  - apply (federated_verify_undecodable w k m s e); assumption.
  - apply federated_distinguishes.
  - exact federated_distinguishes.
  - intros k m s e H. eapply registry_verify_failure, H.
  - intros db req e Hfresh Hraise. simpl. apply outcome_Raise.
    unfold PublicKeyRegistry.add_key. rewrite Hfresh. simpl.
    rewrite (registry_verify_failure _ _ _ _ _ Hraise). reflexivity.
  - intros db req e Hfresh Hraise. simpl. apply outcome_Raise.
    unfold PublicKeyRegistry.delete_key. rewrite Hfresh. simpl.
    rewrite (registry_verify_failure _ _ _ _ _ Hraise). reflexivity.
Qed.

Lemma verifier_failures_witness :
  FederatedCatalog.verify_signature Demo.morning (Some "PEM:carol") "message" "Zm9yZ2Vk"
  = Raise (HTTPException 403 "Invalid signature.")
  ∧ FederatedCatalog.verify_signature Demo.morning (Some "PEM:carol") "message" "abc"
    = Raise (HTTPException 400 "Signature verification error: Incorrect padding")
  ∧ PublicKeyRegistry.serve Demo.morning Demo.registry
      (PublicKeyRegistry.Add Demo.carol_garbled_signature)
    = (Some (HTTPException 400 "Invalid signature"), Demo.registry).
Proof.
  destruct (verifier_failures_by_service Demo.morning) as (Hbad & Hmal & _ & _ & _ & Hadd & _).
  split; [|split].
  - apply Hbad. vm_compute. reflexivity.
  - apply (Hmal (Some "PEM:carol") "message" "abc"
             (LibraryError "binascii.Error" "Incorrect padding")).
    + vm_compute. reflexivity.
    + discriminate.
  - apply (Hadd Demo.registry Demo.carol_garbled_signature
             (LibraryError "binascii.Error" "Incorrect padding")).
    + vm_compute. reflexivity.
    + vm_compute. reflexivity.
Defined.

(** C4, as the specification has it, fails in the key registry: a
    registration whose signature is wrong and one whose signature is not
    even base64 get the same answer. *)
Lemma registry_conflates_verifier_failures :
  ecdsa_verify Demo.morning (Some "PEM:carol") ("carol" +:+ "PEM:carol" +:+ Demo.one_o_clock)
    "Zm9yZ2Vk" = Raise BadSignatureError
  ∧ ecdsa_verify Demo.morning (Some "PEM:carol") ("carol" +:+ "PEM:carol" +:+ Demo.one_o_clock)
      "abc" = Raise (LibraryError "binascii.Error" "Incorrect padding")
  ∧ PublicKeyRegistry.serve Demo.morning Demo.registry
      (PublicKeyRegistry.Add Demo.carol_wrong_signature)
    = (Some (HTTPException 400 "Invalid signature"), Demo.registry)
  ∧ PublicKeyRegistry.serve Demo.morning Demo.registry
      (PublicKeyRegistry.Add Demo.carol_garbled_signature)
    = (Some (HTTPException 400 "Invalid signature"), Demo.registry)
  ∧ ¬ every_verifier_distinguishes.
Proof.
  repeat split; try (vm_compute; reflexivity).
  intros (Hreg & _ & _).
  apply (Hreg Demo.morning "PEM:carol" ("carol" +:+ "PEM:carol" +:+ Demo.one_o_clock) "Zm9yZ2Vk"
           "PEM:carol" ("carol" +:+ "PEM:carol" +:+ Demo.one_o_clock) "abc"
           (LibraryError "binascii.Error" "Incorrect padding")).
  - vm_compute. reflexivity.
  - vm_compute. reflexivity.
  - discriminate.
  - vm_compute. reflexivity.
Qed.

(** * Further properties of the services *)

(** ** The expiry check, case by case *)

Lemma check_expire_time_Return (w : World) (s : string) (b : bool) :
  PublicKeyRegistry.check_expire_time w s = Return b → b = true.
Proof.
  unfold PublicKeyRegistry.check_expire_time.
  destruct (fromisoformat w _) as [dt|x]; simpl; [|discriminate].
  destruct (datetime_gt (now_utc w) dt) as [[|]|x]; simpl; try discriminate.
  intros [= <-]. reflexivity.
Qed.

Lemma check_expire_time_failures (w : World) (s : string) (err : exn) :
  PublicKeyRegistry.check_expire_time w s = Raise err →
  err = InvalidExpireTime ∨ err = NaiveExpireTime ∨ err = Expired.
Proof.
  unfold PublicKeyRegistry.check_expire_time.
  destruct (fromisoformat w _) as [dt|x]; simpl.
  - destruct (datetime_gt (now_utc w) dt) as [[|]|x] eqn:E; simpl.
    + intros [= <-]. auto.
    + discriminate.
    + unfold datetime_gt in E.
      destruct (utcoffset (now_utc w)), (utcoffset dt); try discriminate E;
        injection E as <-; intros [= <-]; auto.
  - intros [= <-]. auto.
Qed.

Lemma check_expire_time_naive (w : World) (s : string) (dt : datetime) :
  fromisoformat w (replace_char "Z" "+00:00" s) = Return dt →
  utcoffset dt = None →
  PublicKeyRegistry.check_expire_time w s = Raise NaiveExpireTime.
Proof.
  intros Hdt Hnaive. unfold PublicKeyRegistry.check_expire_time.
  rewrite Hdt. simpl. unfold datetime_gt. simpl. rewrite Hnaive. reflexivity.
Qed.

Lemma check_expire_time_unparsed (w : World) (s : string) (x : exn) :
  fromisoformat w (replace_char "Z" "+00:00" s) = Raise x →
  PublicKeyRegistry.check_expire_time w s = Raise InvalidExpireTime.
Proof.
  intros Hdt. unfold PublicKeyRegistry.check_expire_time. rewrite Hdt. reflexivity.
Qed.

(** X5 (an expire_time without offset).  When [expire_time] parses to a
    datetime without UTC offset, the comparison with the offset-aware
    current time raises TypeError outside every [try]: the registry's
    [add_key] and [delete_key] and the local catalog's [add_data] and
    [add_authz], which check the expiry first, answer with a bare Internal
    Server Error and commit nothing.  A text that does not parse at all is
    answered with 400 "Invalid expire_time format" instead. *)
Theorem naive_expire_time_is_internal_error (w : World) (s : string) :
  (∀ dt, fromisoformat w (replace_char "Z" "+00:00" s) = Return dt →
         utcoffset dt = None →
     PublicKeyRegistry.check_expire_time w s = Raise NaiveExpireTime
     ∧ FederatedCatalog.check_expire_time w s = Raise NaiveExpireTime
     ∧ LocalCatalogAuthz.check_expire_time w s = Raise NaiveExpireTime
     ∧ (∀ db req, PublicKeyRegistry.reg_expire_time req = s →
          respond (PublicKeyRegistry.add_key w db req) = InternalServerError
          ∧ committed db (PublicKeyRegistry.add_key w db req) = db)
     ∧ (∀ db req, PublicKeyRegistry.del_expire_time req = s →
          respond (PublicKeyRegistry.delete_key w db req) = InternalServerError
          ∧ committed db (PublicKeyRegistry.delete_key w db req) = db)
     ∧ (∀ db item, LocalCatalogAuthz.item_expire_time item = s →
          respond (LocalCatalogAuthz.add_data w db item) = InternalServerError
          ∧ committed db (LocalCatalogAuthz.add_data w db item) = db)
     ∧ (∀ db item, LocalCatalogAuthz.authz_expire_time item = s →
          respond (LocalCatalogAuthz.add_authz w db item) = InternalServerError
          ∧ committed db (LocalCatalogAuthz.add_authz w db item) = db))
  ∧ (∀ x, fromisoformat w (replace_char "Z" "+00:00" s) = Raise x →
     PublicKeyRegistry.check_expire_time w s = Raise InvalidExpireTime
     ∧ FederatedCatalog.check_expire_time w s = Raise InvalidExpireTime
     ∧ LocalCatalogAuthz.check_expire_time w s = Raise InvalidExpireTime).
Proof.
  split.
  - intros dt Hdt Hnaive.
    pose proof (check_expire_time_naive _ _ _ Hdt Hnaive) as Hc.
    split; [exact Hc|]. split; [exact Hc|]. split; [exact Hc|].
    repeat split; intros; subst s.
    + unfold PublicKeyRegistry.add_key. rewrite Hc. reflexivity.
    + unfold PublicKeyRegistry.add_key. rewrite Hc. reflexivity.
    + unfold PublicKeyRegistry.delete_key. rewrite Hc. reflexivity.
    + unfold PublicKeyRegistry.delete_key. rewrite Hc. reflexivity.
    + unfold LocalCatalogAuthz.add_data.
      rewrite (Hc : LocalCatalogAuthz.check_expire_time _ _ = _). reflexivity.
    + unfold LocalCatalogAuthz.add_data.
      rewrite (Hc : LocalCatalogAuthz.check_expire_time _ _ = _). reflexivity.
    + unfold LocalCatalogAuthz.add_authz.
      rewrite (Hc : LocalCatalogAuthz.check_expire_time _ _ = _). reflexivity.
    + unfold LocalCatalogAuthz.add_authz.
      rewrite (Hc : LocalCatalogAuthz.check_expire_time _ _ = _). reflexivity.
  - intros x Hx. pose proof (check_expire_time_unparsed _ _ _ Hx) as Hc.
    repeat split; exact Hc.
Qed.

Lemma naive_expire_time_witness :
  respond (PublicKeyRegistry.add_key Demo.morning Demo.registry
             Scenario.carol_register_naive) = InternalServerError
  ∧ committed Demo.registry
      (PublicKeyRegistry.add_key Demo.morning Demo.registry
         Scenario.carol_register_naive) = Demo.registry.
Proof.
  destruct (naive_expire_time_is_internal_error Demo.morning Scenario.one_o_clock_naive)
    as [Hnaive _].
  destruct (Hnaive (naive 46800)) as (_ & _ & _ & Hadd & _).
  - vm_compute. reflexivity.
  - reflexivity.
  - apply (Hadd Demo.registry Scenario.carol_register_naive). reflexivity.
Defined.

(** ** Key records: registration, resolution, removal *)

Lemma add_key_Return_iff (w : World) (db : gmap string PublicKeyRegistry.PublicKey)
    (req : PublicKeyRegistry.RegisterRequest) m db' :
  PublicKeyRegistry.add_key w db req = Return (m, db') ↔
    PublicKeyRegistry.check_expire_time w (PublicKeyRegistry.reg_expire_time req)
      = Return true
    ∧ register_verified w req = true
    ∧ db !! PublicKeyRegistry.reg_user_id req = None
    ∧ m = "Key for '" +:+ PublicKeyRegistry.reg_user_id req
          +:+ "' registered successfully."
    ∧ db' = <[PublicKeyRegistry.reg_user_id req :=
                {| PublicKeyRegistry.public_key := PublicKeyRegistry.reg_public_key req;
                   PublicKeyRegistry.registered_at := Some (utcnow w) |}]> db.
Proof.
  unfold register_verified, register_msg, PublicKeyRegistry.add_key. split.
  - intros E.
    apply bind_Return in E as (b & Hb & E).
    pose proof (check_expire_time_Return _ _ _ Hb) as ->.
    apply bind_Return in E as (u1 & _ & E).
    apply bind_Return in E as (u2 & Hsig & E).
    apply bind_Return in E as (u3 & Hfree & E).
    apply raise_if_Return, negb_false_iff in Hsig.
    apply raise_if_Return, bool_decide_eq_false in Hfree.
    injection E as <- <-. repeat split; try assumption.
    destruct (db !! _); [destruct Hfree; eauto | reflexivity].
  - intros (Hfresh & Hsig & Hfree & -> & ->).
    rewrite Hfresh. simpl. rewrite Hsig. simpl. rewrite Hfree.
    rewrite (bool_decide_eq_false_2 (is_Some None)) by (intros [? [=]]). reflexivity.
Qed.

(** X1 (when a registration succeeds).  For an identity and a key that
    the database can store, [add_key] succeeds exactly when the
    [expire_time] is accepted, the signature verifies against the public
    key that the request itself submits, and the identity has no record;
    it then files that key under the identity, stamped with the current
    time.  Of the failures the expiry comes first, then the signature (400
    "Invalid signature"), then the taken identity (409). *)
Theorem register_succeeds_iff (w : World) (db : gmap string PublicKeyRegistry.PublicKey)
    (req : PublicKeyRegistry.RegisterRequest) :
  storable (PublicKeyRegistry.reg_user_id req) = true →
  storable (PublicKeyRegistry.reg_public_key req) = true →
  (∀ m db', PublicKeyRegistry.add_key w db req = Return (m, db') ↔
      PublicKeyRegistry.check_expire_time w (PublicKeyRegistry.reg_expire_time req)
        = Return true
      ∧ register_verified w req = true
      ∧ db !! PublicKeyRegistry.reg_user_id req = None
      ∧ m = "Key for '" +:+ PublicKeyRegistry.reg_user_id req
            +:+ "' registered successfully."
      ∧ db' = <[PublicKeyRegistry.reg_user_id req :=
                  {| PublicKeyRegistry.public_key := PublicKeyRegistry.reg_public_key req;
                     PublicKeyRegistry.registered_at := Some (utcnow w) |}]> db)
  ∧ (∀ err, PublicKeyRegistry.check_expire_time w (PublicKeyRegistry.reg_expire_time req)
            = Raise err →
     PublicKeyRegistry.add_key w db req = Raise err)
  ∧ (PublicKeyRegistry.check_expire_time w (PublicKeyRegistry.reg_expire_time req)
       = Return true →
     register_verified w req = false →
     PublicKeyRegistry.add_key w db req = Raise (HTTPException 400 "Invalid signature"))
  ∧ (PublicKeyRegistry.check_expire_time w (PublicKeyRegistry.reg_expire_time req)
       = Return true →
     register_verified w req = true →
     is_Some (db !! PublicKeyRegistry.reg_user_id req) →
     PublicKeyRegistry.add_key w db req
     = Raise (HTTPException 409 "UserID already registered")).
Proof.
  intros _ _. split; [intros m db'; apply add_key_Return_iff|].
  unfold register_verified, register_msg, PublicKeyRegistry.add_key.
  split; [|split].
  - intros err Herr. rewrite Herr. reflexivity.
  - intros Hfresh Hsig. rewrite Hfresh. simpl. rewrite Hsig. reflexivity.
  - intros Hfresh Hsig Htaken. rewrite Hfresh. simpl. rewrite Hsig. simpl.
    rewrite bool_decide_eq_true_2 by exact Htaken. reflexivity.
Qed.

Lemma register_witness :
  PublicKeyRegistry.add_key Demo.morning Demo.registry Scenario.carol_register
  = Return ("Key for 'carol' registered successfully.",
            <["carol" := {| PublicKeyRegistry.public_key := "PEM:carol";
                            PublicKeyRegistry.registered_at := Some (naive 43000) |}]>
              Demo.registry)
  ∧ PublicKeyRegistry.add_key Demo.morning Demo.registry Demo.carol_wrong_signature
    = Raise (HTTPException 400 "Invalid signature").
Proof.
  destruct (register_succeeds_iff Demo.morning Demo.registry Scenario.carol_register
              eq_refl eq_refl) as (Hiff & _).
  destruct (register_succeeds_iff Demo.morning Demo.registry Demo.carol_wrong_signature
              eq_refl eq_refl) as (_ & _ & Hsig & _).
  split.
  - apply Hiff. repeat split; vm_compute; reflexivity.
  - apply Hsig; vm_compute; reflexivity.
Defined.

Lemma remove_succeeds_iff (w : World) (db : gmap string PublicKeyRegistry.PublicKey)
    (req : PublicKeyRegistry.DeleteRequest) m db' :
  PublicKeyRegistry.delete_key w db req = Return (m, db') ↔
    PublicKeyRegistry.check_expire_time w (PublicKeyRegistry.del_expire_time req)
      = Return true
    ∧ remove_verified w req = true
    ∧ is_Some (db !! PublicKeyRegistry.del_user_id req)
    ∧ m = "Key for '" +:+ PublicKeyRegistry.del_user_id req +:+ "' deleted successfully."
    ∧ db' = delete (PublicKeyRegistry.del_user_id req) db.
Proof.
  unfold remove_verified, remove_msg, PublicKeyRegistry.delete_key. split.
  - intros E.
    apply bind_Return in E as (b & Hb & E).
    pose proof (check_expire_time_Return _ _ _ Hb) as ->.
    apply bind_Return in E as (u1 & _ & E).
    apply bind_Return in E as (u2 & Hsig & E).
    apply raise_if_Return, negb_false_iff in Hsig.
    destruct (db !! _) as [key|]; [|discriminate E].
    injection E as <- <-. repeat split; eauto.
  - intros (Hfresh & Hsig & [key Hkey] & -> & ->).
    rewrite Hfresh. simpl. rewrite Hsig. simpl. rewrite Hkey. reflexivity.
Qed.

(** X2 (register, resolve, remove, register again).  After a successful
    [add_key], [get_key] answers the identity with the submitted key and
    every other identity as before.  After a successful [delete_key] for
    the identity, [get_key] answers 404 and the table is exactly what it was
    before the registration; no trace of the record is kept, so the same
    signed registration, presented again at the same time, is accepted
    again. *)
Theorem register_resolve_remove (w1 w2 : World)
    (db db1 db2 : gmap string PublicKeyRegistry.PublicKey)
    (r1 : PublicKeyRegistry.RegisterRequest) (r2 : PublicKeyRegistry.DeleteRequest)
    (m1 m2 : string) :
  PublicKeyRegistry.add_key w1 db r1 = Return (m1, db1) →
  PublicKeyRegistry.del_user_id r2 = PublicKeyRegistry.reg_user_id r1 →
  PublicKeyRegistry.delete_key w2 db1 r2 = Return (m2, db2) →
  (∀ w, ∃ info,
     PublicKeyRegistry.get_key w db1 (PublicKeyRegistry.reg_user_id r1)
       = Return (info, db1)
     ∧ PublicKeyRegistry.info_user_id info = PublicKeyRegistry.reg_user_id r1
     ∧ PublicKeyRegistry.info_public_key info = PublicKeyRegistry.reg_public_key r1)
  ∧ (∀ w u, u ≠ PublicKeyRegistry.reg_user_id r1 →
       PublicKeyRegistry.get_key w db1 u
       = match PublicKeyRegistry.get_key w db u with
         | Return (info, _) => Return (info, db1)
         | Raise e => Raise e
         end)
  ∧ (∀ w, PublicKeyRegistry.get_key w db2 (PublicKeyRegistry.reg_user_id r1)
          = Raise (HTTPException 404 "Key not found"))
  ∧ db2 = db
  ∧ PublicKeyRegistry.add_key w1 db2 r1 = Return (m1, db1).
Proof.
  intros Hadd Huid Hdel.
  pose proof Hadd as Hadd'.
  apply add_key_Return_iff in Hadd as (_ & _ & Hfree & _ & ->).
  apply remove_succeeds_iff in Hdel as (_ & _ & _ & _ & ->).
  rewrite Huid. rewrite delete_insert_id by exact Hfree.
  repeat split.
  - intros w. unfold PublicKeyRegistry.get_key. rewrite lookup_insert_eq.
    eexists. split; [reflexivity|]. split; reflexivity.
  - intros w u Hne. unfold PublicKeyRegistry.get_key.
    rewrite lookup_insert_ne by congruence. destruct (db !! u); reflexivity.
  - intros w. unfold PublicKeyRegistry.get_key. rewrite Hfree. reflexivity.
  - exact Hadd'.
Qed.

Lemma register_resolve_remove_witness :
  ∃ db1,
    PublicKeyRegistry.serve Demo.morning Demo.registry
      (PublicKeyRegistry.Add Scenario.carol_register) = (None, db1)
    ∧ PublicKeyRegistry.serve Demo.morning db1
        (PublicKeyRegistry.Delete Scenario.carol_remove) = (None, Demo.registry)
    ∧ PublicKeyRegistry.serve Demo.morning Demo.registry
        (PublicKeyRegistry.Add Scenario.carol_register) = (None, db1).
Proof.
  destruct (PublicKeyRegistry.add_key Demo.morning Demo.registry Scenario.carol_register)
    as [[m1 db1]|err] eqn:Hadd; [|vm_compute in Hadd; discriminate Hadd].
  destruct (PublicKeyRegistry.delete_key Demo.morning db1 Scenario.carol_remove)
    as [[m2 db2]|err] eqn:Hdel.
  - destruct (register_resolve_remove Demo.morning Demo.morning Demo.registry db1 db2
                Scenario.carol_register Scenario.carol_remove m1 m2 Hadd eq_refl Hdel)
      as (_ & _ & _ & Hback & Hagain).
    exists db1. simpl. unfold outcome. rewrite Hadd, Hdel. simpl.
    rewrite Hback. auto.
  - vm_compute in Hadd. injection Hadd as _ <-. vm_compute in Hdel. discriminate Hdel.
Defined.

(** X3 (no key rotation).  No request to the registry changes the key on
    file for an identity: after any request an existing record is either
    exactly as it was or gone.  In particular a registration for an identity
    that already has a record never replaces it. *)
Theorem key_record_never_changes (w : World)
    (db : gmap string PublicKeyRegistry.PublicKey) (rq : PublicKeyRegistry.request)
    (uid : string) (key : PublicKeyRegistry.PublicKey) :
  db !! uid = Some key →
  (PublicKeyRegistry.serve w db rq).2 !! uid = Some key
  ∨ (PublicKeyRegistry.serve w db rq).2 !! uid = None.
Proof.
  intros Hkey. destruct rq as [req|u|req| |]; simpl.
  - left. apply registry_add_key_keeps, Hkey.
  - left. unfold PublicKeyRegistry.get_key. destruct (db !! u); exact Hkey.
  - destruct (PublicKeyRegistry.delete_key w db req) as [[m db']|err] eqn:E;
      simpl; [|left; exact Hkey].
    apply remove_succeeds_iff in E as (_ & _ & _ & _ & ->).
    destruct (decide (PublicKeyRegistry.del_user_id req = uid)) as [<-|Hne].
    + right. apply lookup_delete_eq.
    + left. rewrite lookup_delete_ne by exact Hne. exact Hkey.
  - left. exact Hkey.
  - right. apply lookup_empty.
Qed.

Lemma key_record_never_changes_witness :
  (PublicKeyRegistry.serve Demo.morning Demo.registry
     (PublicKeyRegistry.Add
        {| PublicKeyRegistry.reg_user_id := "alice";
           PublicKeyRegistry.reg_public_key := "PEM:mallory";
           PublicKeyRegistry.reg_signature :=
             Demo.sign "mallory" ("alice" +:+ "PEM:mallory" +:+ Demo.one_o_clock);
           PublicKeyRegistry.reg_expire_time := Demo.one_o_clock |})).2 !! "alice"
  = Some Demo.alice_key.
Proof.
  destruct (key_record_never_changes Demo.morning Demo.registry
              (PublicKeyRegistry.Add
                 {| PublicKeyRegistry.reg_user_id := "alice";
                    PublicKeyRegistry.reg_public_key := "PEM:mallory";
                    PublicKeyRegistry.reg_signature :=
                      Demo.sign "mallory" ("alice" +:+ "PEM:mallory" +:+ Demo.one_o_clock);
                    PublicKeyRegistry.reg_expire_time := Demo.one_o_clock |})
              "alice" Demo.alice_key) as [Hsame|Hgone].
  - vm_compute. reflexivity.
  - exact Hsame.
  - vm_compute in Hgone. discriminate Hgone.
Defined.

(** X4 (the listing is exact).  [list_keys] needs no signature and always
    succeeds; it commits nothing and lists every record exactly once: the
    list is as long as the table, no identity occurs twice, and an identity
    is listed with a key exactly when that key is on file for it. *)
Theorem list_keys_lists_each_record_once (w : World)
    (db : gmap string PublicKeyRegistry.PublicKey) :
  ∃ l, PublicKeyRegistry.list_keys w db = Return (l, db)
       ∧ length l = size db
       ∧ NoDup (PublicKeyRegistry.info_user_id <$> l)
       ∧ ∀ uid pk,
           (∃ info, info ∈ l ∧ PublicKeyRegistry.info_user_id info = uid
                    ∧ PublicKeyRegistry.info_public_key info = pk)
           ↔ (∃ key, db !! uid = Some key ∧ PublicKeyRegistry.public_key key = pk).
Proof.
  eexists. split; [reflexivity|]. split; [|split].
  - rewrite length_fmap. apply length_map_to_list.
  - rewrite <- list_fmap_compose.
    change (PublicKeyRegistry.info_user_id ∘ PublicKeyRegistry.key_info w)
      with (@fst string PublicKeyRegistry.PublicKey).
    apply NoDup_fst_map_to_list.
  - intros uid pk. split.
    + intros (info & Hin & <- & <-).
      apply list_elem_of_fmap in Hin as ([u key] & -> & Hin).
      apply elem_of_map_to_list in Hin. simpl. eauto.
    + intros (key & Hkey & <-).
      exists (PublicKeyRegistry.key_info w (uid, key)). split; [|split; reflexivity].
      apply list_elem_of_fmap. exists (uid, key). split; [reflexivity|].
      apply elem_of_map_to_list. exact Hkey.
Qed.

Lemma add_key_failures (w : World) (db : gmap string PublicKeyRegistry.PublicKey)
    (req : PublicKeyRegistry.RegisterRequest) (err : exn) :
  PublicKeyRegistry.add_key w db req = Raise err →
  err = InvalidExpireTime ∨ err = NaiveExpireTime ∨ err = Expired
  ∨ err = HTTPException 400 "Invalid signature"
  ∨ err = HTTPException 409 "UserID already registered".
Proof.
  unfold PublicKeyRegistry.add_key.
  destruct (PublicKeyRegistry.check_expire_time w _) as [b|e] eqn:Hc; simpl.
  - pose proof (check_expire_time_Return _ _ _ Hc) as ->. simpl.
    destruct (PublicKeyRegistry.verify_signature w _ _ _); simpl.
    + destruct (bool_decide _); simpl; [|discriminate]. intros [= <-]. auto 6.
    + intros [= <-]. auto 6.
  - intros [= <-]. apply check_expire_time_failures in Hc. tauto.
Qed.

Lemma delete_key_failures (w : World) (db : gmap string PublicKeyRegistry.PublicKey)
    (req : PublicKeyRegistry.DeleteRequest) (err : exn) :
  PublicKeyRegistry.delete_key w db req = Raise err →
  err = InvalidExpireTime ∨ err = NaiveExpireTime ∨ err = Expired
  ∨ err = HTTPException 400 "Invalid signature"
  ∨ err = HTTPException 404 "Key not found".
Proof.
  unfold PublicKeyRegistry.delete_key.
  destruct (PublicKeyRegistry.check_expire_time w _) as [b|e] eqn:Hc; simpl.
  - pose proof (check_expire_time_Return _ _ _ Hc) as ->. simpl.
    destruct (PublicKeyRegistry.verify_signature w _ _ _); simpl.
    + destruct (db !! _); simpl; [discriminate|]. intros [= <-]. auto 6.
    + intros [= <-]. auto 6.
  - intros [= <-]. apply check_expire_time_failures in Hc. tauto.
Qed.

(** X6 (the failures of the registry, and one that never happens).  For
    requests whose texts the database can store, a
    registration fails in one of five ways: malformed [expire_time] (400),
    [expire_time] without offset (TypeError), expired (400 "Signature
    expired"), signature not verified (400 "Invalid signature"), identity
    taken (409); a removal likewise with 404 "Key not found" in place of
    409; a lookup fails only with 404; the listing and [delete_all_keys]
    never fail.  The answer 400 "Expired signature", which [add_key] and
    [delete_key] hold ready for a False from [check_expire_time], is never
    given: the check returns True or raises. *)
Theorem registry_failures (w : World) (db : gmap string PublicKeyRegistry.PublicKey)
    (rq : PublicKeyRegistry.request) (err : exn) :
  forallb storable (registry_texts rq) = true →
  (PublicKeyRegistry.serve w db rq).1 = Some err →
  match rq with
  | PublicKeyRegistry.Add _ =>
      err = InvalidExpireTime ∨ err = NaiveExpireTime ∨ err = Expired
      ∨ err = HTTPException 400 "Invalid signature"
      ∨ err = HTTPException 409 "UserID already registered"
  | PublicKeyRegistry.Delete _ =>
      err = InvalidExpireTime ∨ err = NaiveExpireTime ∨ err = Expired
      ∨ err = HTTPException 400 "Invalid signature"
      ∨ err = HTTPException 404 "Key not found"
  | PublicKeyRegistry.Get _ => err = HTTPException 404 "Key not found"
  | PublicKeyRegistry.List | PublicKeyRegistry.DeleteAll => False
  end
  ∧ err ≠ HTTPException 400 "Expired signature".
Proof.
  intros _ Herr.
  assert (Hcases :
    match rq with
    | PublicKeyRegistry.Add _ =>
        err = InvalidExpireTime ∨ err = NaiveExpireTime ∨ err = Expired
        ∨ err = HTTPException 400 "Invalid signature"
        ∨ err = HTTPException 409 "UserID already registered"
    | PublicKeyRegistry.Delete _ =>
        err = InvalidExpireTime ∨ err = NaiveExpireTime ∨ err = Expired
        ∨ err = HTTPException 400 "Invalid signature"
        ∨ err = HTTPException 404 "Key not found"
    | PublicKeyRegistry.Get _ => err = HTTPException 404 "Key not found"
    | PublicKeyRegistry.List | PublicKeyRegistry.DeleteAll => False
    end).
  { destruct rq as [req|u|req| |]; simpl in Herr.
    - destruct (PublicKeyRegistry.add_key w db req) as [[m db']|e] eqn:E;
        simpl in Herr; [discriminate Herr|]. injection Herr as ->.
      eapply add_key_failures, E.
    - unfold PublicKeyRegistry.get_key in Herr.
      destruct (db !! u); simpl in Herr; [discriminate Herr|].
      injection Herr as <-. reflexivity.
    - destruct (PublicKeyRegistry.delete_key w db req) as [[m db']|e] eqn:E;
        simpl in Herr; [discriminate Herr|]. injection Herr as ->.
      eapply delete_key_failures, E.
    - discriminate Herr.
    - discriminate Herr. }
  split; [exact Hcases|].
  destruct rq; unfold InvalidExpireTime, NaiveExpireTime, Expired in Hcases;
    intuition (subst; discriminate).
Qed.

Lemma registry_failures_witness :
  (PublicKeyRegistry.serve Demo.morning Demo.registry
     (PublicKeyRegistry.Add Demo.carol_wrong_signature)).1
  = Some (HTTPException 400 "Invalid signature")
  ∧ (InvalidExpireTime = HTTPException 400 "Invalid signature"
     ∨ NaiveExpireTime = HTTPException 400 "Invalid signature"
     ∨ Expired = HTTPException 400 "Invalid signature"
     ∨ HTTPException 400 "Invalid signature" = HTTPException 400 "Invalid signature"
     ∨ HTTPException 409 "UserID already registered"
       = HTTPException 400 "Invalid signature").
Proof.
  assert (H : (PublicKeyRegistry.serve Demo.morning Demo.registry
                 (PublicKeyRegistry.Add Demo.carol_wrong_signature)).1
              = Some (HTTPException 400 "Invalid signature"))
    by (vm_compute; reflexivity).
  split; [exact H|].
  destruct (registry_failures Demo.morning Demo.registry
              (PublicKeyRegistry.Add Demo.carol_wrong_signature)
              (HTTPException 400 "Invalid signature") eq_refl H) as [Hcases _].
  simpl in Hcases. intuition congruence.
Defined.

(** ** The federated catalog: publishing, looking up, retracting *)

Lemma federated_verify_Return (w : World) key (m s : string) (b : bool) :
  FederatedCatalog.verify_signature w key m s = Return b → b = true.
Proof.
  unfold FederatedCatalog.verify_signature, ecdsa_verify.
  destruct (from_pem w key) as [vk|e1]; simpl.
  - destruct (b64decode w s) as [sg|e2]; simpl.
    + destruct (vk_verify w vk sg _) as [r|e3]; simpl.
      * intros [= <-]. reflexivity.
      * destruct e3; discriminate.
    + destruct e2; discriminate.
  - destruct e1; discriminate.
Qed.

Lemma add_entry_Return_iff (w : World) (db : gmap string FederatedCatalog.FederatedCatalog)
    (item : FederatedCatalog.CatalogItem) p db' :
  FederatedCatalog.add_entry w db item = Return (p, db') ↔
    federated_authentic w (FederatedCatalog.item_user_id item) (publish_msg item)
      (FederatedCatalog.item_signature item) (FederatedCatalog.item_expire_time item)
    ∧ db !! FederatedCatalog.item_data_id item = None
    ∧ p = ("Added successfully.", item)
    ∧ db' = <[FederatedCatalog.item_data_id item := published_entry w item]> db.
Proof.
  unfold federated_authentic, publish_msg, published_entry, FederatedCatalog.add_entry.
  split.
  - intros E.
    apply bind_Return in E as (key & Hkey & E).
    apply bind_Return in E as (b & Hb & E).
    pose proof (check_expire_time_Return _ _ _ Hb) as ->.
    apply bind_Return in E as (v & Hv & E).
    pose proof (federated_verify_Return _ _ _ _ _ Hv) as ->.
    apply bind_Return in E as (u & Hfree & E).
    apply raise_if_Return, bool_decide_eq_false in Hfree.
    injection E as <- <-. repeat split; eauto.
    destruct (db !! _); [destruct Hfree; eauto | reflexivity].
  - intros ((key & Hkey & Hfresh & Hsig) & Hfree & -> & ->).
    rewrite Hkey. simpl. rewrite Hfresh. simpl. rewrite Hsig. simpl. rewrite Hfree.
    rewrite (bool_decide_eq_false_2 (is_Some None)) by (intros [? [=]]). reflexivity.
Qed.

Lemma delete_entry_Return_iff (w : World)
    (db : gmap string FederatedCatalog.FederatedCatalog) (d : string)
    (req : FederatedCatalog.DeleteRequest) m db' :
  FederatedCatalog.delete_entry w db d req = Return (m, db') ↔
    federated_authentic w (FederatedCatalog.del_user_id req) (retract_msg d req)
      (FederatedCatalog.del_signature req) (FederatedCatalog.del_expire_time req)
    ∧ (∃ entry, db !! d = Some entry
                ∧ FederatedCatalog.user_id entry = FederatedCatalog.del_user_id req)
    ∧ m = d +:+ " deleted successfully."
    ∧ db' = delete d db.
Proof.
  unfold federated_authentic, retract_msg, FederatedCatalog.delete_entry. split.
  - intros E.
    apply bind_Return in E as (key & Hkey & E).
    apply bind_Return in E as (b & Hb & E).
    pose proof (check_expire_time_Return _ _ _ Hb) as ->.
    apply bind_Return in E as (v & Hv & E).
    pose proof (federated_verify_Return _ _ _ _ _ Hv) as ->.
    destruct (db !! d) as [entry|]; [|discriminate E].
    apply bind_Return in E as (u & Hown & E).
    apply raise_if_Return, bool_decide_eq_false in Hown.
    injection E as <- <-. repeat split; eauto.
    exists entry. split; [reflexivity|].
    destruct (decide (FederatedCatalog.user_id entry = FederatedCatalog.del_user_id req));
      [assumption | contradiction].
  - intros ((key & Hkey & Hfresh & Hsig) & (entry & Hentry & Hown) & -> & ->).
    rewrite Hkey. simpl. rewrite Hfresh. simpl. rewrite Hsig. simpl. rewrite Hentry.
    rewrite bool_decide_eq_false_2 by (intros Hne; apply Hne; exact Hown). reflexivity.
Qed.

(** X7 (publish, then look up).  For an item whose texts the database can
    store, [add_entry] succeeds exactly when the
    request is authentic for the claimed owner and the data_id is free; it
    answers with the item it was given.  From then on [get_by_dataid], which
    asks for no signature, returns the entry with the claimed identity as
    owner and the description and endpoint as published, every other
    data_id is as before, and [search_by_user_id] for the owner lists the
    entry. *)
Theorem publish_then_lookup (w : World)
    (db : gmap string FederatedCatalog.FederatedCatalog)
    (item : FederatedCatalog.CatalogItem) :
  forallb storable (entry_texts item) = true →
  (∀ p db', FederatedCatalog.add_entry w db item = Return (p, db') ↔
      federated_authentic w (FederatedCatalog.item_user_id item) (publish_msg item)
        (FederatedCatalog.item_signature item) (FederatedCatalog.item_expire_time item)
      ∧ db !! FederatedCatalog.item_data_id item = None
      ∧ p = ("Added successfully.", item)
      ∧ db' = <[FederatedCatalog.item_data_id item := published_entry w item]> db)
  ∧ (∀ p db', FederatedCatalog.add_entry w db item = Return (p, db') →
       FederatedCatalog.get_by_dataid db' (FederatedCatalog.item_data_id item)
       = Return ((FederatedCatalog.item_data_id item, published_entry w item), db')
       ∧ (∀ d, d ≠ FederatedCatalog.item_data_id item → db' !! d = db !! d)
       ∧ ∃ l, FederatedCatalog.search_by_user_id db' (FederatedCatalog.item_user_id item)
              = Return (l, db')
              ∧ (FederatedCatalog.item_data_id item, published_entry w item) ∈ l).
Proof.
  intros _. split; [intros p db'; apply add_entry_Return_iff|].
  intros p db' E. apply add_entry_Return_iff in E as (_ & _ & _ & ->).
  split; [|split].
  - unfold FederatedCatalog.get_by_dataid. rewrite lookup_insert_eq. reflexivity.
  - intros d Hne. apply lookup_insert_ne. congruence.
  - eexists. split; [reflexivity|].
    apply list_elem_of_filter. split; [reflexivity|].
    apply elem_of_map_to_list. apply lookup_insert_eq.
Qed.

Lemma publish_then_lookup_witness :
  ∃ db',
    FederatedCatalog.serve Demo.morning Demo.federated
      (FederatedCatalog.Add Scenario.alice_publish_entry) = (None, db')
    ∧ FederatedCatalog.get_by_dataid db' "data_101"
      = Return (("data_101",
                 published_entry Demo.morning Scenario.alice_publish_entry), db').
Proof.
  destruct (publish_then_lookup Demo.morning Demo.federated Scenario.alice_publish_entry
              eq_refl) as [_ Hlook].
  destruct (FederatedCatalog.add_entry Demo.morning Demo.federated
              Scenario.alice_publish_entry) as [[p db']|err] eqn:E;
    [|vm_compute in E; discriminate E].
  exists db'. split.
  - simpl. unfold outcome. rewrite E. reflexivity.
  - apply (Hlook p db' eq_refl).
Defined.

(** X8 (every change is signed by the owner).  Whenever a request changes
    what the federated catalog holds for a data_id, it is [reset_all], or an
    authentic [add_entry] for a free data_id, which makes the signer the
    owner, or an authentic [delete_entry] of an existing entry signed by its
    stored owner.  Nothing else creates or destroys an entry. *)
Theorem federated_changes_are_signed (w : World)
    (db : gmap string FederatedCatalog.FederatedCatalog)
    (rq : FederatedCatalog.request) (d : string) :
  (FederatedCatalog.serve w db rq).2 !! d ≠ db !! d →
  rq = FederatedCatalog.Reset
  ∨ (∃ item, rq = FederatedCatalog.Add item
       ∧ FederatedCatalog.item_data_id item = d
       ∧ db !! d = None
       ∧ federated_authentic w (FederatedCatalog.item_user_id item) (publish_msg item)
           (FederatedCatalog.item_signature item) (FederatedCatalog.item_expire_time item)
       ∧ (FederatedCatalog.serve w db rq).2 !! d = Some (published_entry w item))
  ∨ (∃ req entry, rq = FederatedCatalog.Delete d req
       ∧ db !! d = Some entry
       ∧ FederatedCatalog.user_id entry = FederatedCatalog.del_user_id req
       ∧ federated_authentic w (FederatedCatalog.user_id entry) (retract_msg d req)
           (FederatedCatalog.del_signature req) (FederatedCatalog.del_expire_time req)
       ∧ (FederatedCatalog.serve w db rq).2 !! d = None).
Proof.
  intros Hchg. destruct rq as [item|d0 req|d0| |uid]; simpl in *.
  - right. left. exists item.
    destruct (FederatedCatalog.add_entry w db item) as [[p db']|err] eqn:E;
      simpl in *; [|congruence].
    apply add_entry_Return_iff in E as (Hauth & Hfree & _ & ->).
    destruct (decide (FederatedCatalog.item_data_id item = d)) as [<-|Hne].
    + rewrite lookup_insert_eq. auto.
    + rewrite lookup_insert_ne in Hchg by exact Hne. congruence.
  - right. right.
    destruct (FederatedCatalog.delete_entry w db d0 req) as [[m db']|err] eqn:E;
      simpl in *; [|congruence].
    apply delete_entry_Return_iff in E as (Hauth & (entry & Hentry & Hown) & _ & ->).
    destruct (decide (d0 = d)) as [->|Hne].
    + exists req, entry. rewrite lookup_delete_eq. rewrite Hown. auto.
    + rewrite lookup_delete_ne in Hchg by exact Hne. congruence.
  - unfold FederatedCatalog.get_by_dataid in Hchg.
    destruct (db !! d0); simpl in Hchg; congruence.
  - left. reflexivity.
  - congruence.
Qed.

Lemma federated_changes_witness :
  FederatedCatalog.Delete "edge_data_001" Scenario.alice_retract_entry
    = FederatedCatalog.Reset
  ∨ (∃ item, FederatedCatalog.Delete "edge_data_001" Scenario.alice_retract_entry
             = FederatedCatalog.Add item
       ∧ FederatedCatalog.item_data_id item = "edge_data_001"
       ∧ Demo.federated !! "edge_data_001" = None
       ∧ federated_authentic Demo.morning (FederatedCatalog.item_user_id item)
           (publish_msg item) (FederatedCatalog.item_signature item)
           (FederatedCatalog.item_expire_time item)
       ∧ (FederatedCatalog.serve Demo.morning Demo.federated
            (FederatedCatalog.Delete "edge_data_001" Scenario.alice_retract_entry)).2
           !! "edge_data_001" = Some (published_entry Demo.morning item))
  ∨ (∃ req entry,
       FederatedCatalog.Delete "edge_data_001" Scenario.alice_retract_entry
       = FederatedCatalog.Delete "edge_data_001" req
       ∧ Demo.federated !! "edge_data_001" = Some entry
       ∧ FederatedCatalog.user_id entry = FederatedCatalog.del_user_id req
       ∧ federated_authentic Demo.morning (FederatedCatalog.user_id entry)
           (retract_msg "edge_data_001" req)
           (FederatedCatalog.del_signature req) (FederatedCatalog.del_expire_time req)
       ∧ (FederatedCatalog.serve Demo.morning Demo.federated
            (FederatedCatalog.Delete "edge_data_001" Scenario.alice_retract_entry)).2
           !! "edge_data_001" = None).
Proof.
  apply (federated_changes_are_signed Demo.morning Demo.federated
           (FederatedCatalog.Delete "edge_data_001" Scenario.alice_retract_entry)
           "edge_data_001").
  vm_compute. discriminate.
Defined.

(** X9 (an entry is never altered).  No request changes an entry of the
    federated catalog: after any request an existing entry is exactly as it
    was, owner included, or gone.  An authentic [add_entry] for a data_id
    that is taken is refused with 400 "DataID already exists.", whoever
    signs it. *)
Theorem catalog_entry_never_changes (w : World)
    (db : gmap string FederatedCatalog.FederatedCatalog) (d : string)
    (entry : FederatedCatalog.FederatedCatalog) :
  db !! d = Some entry →
  (∀ rq, (FederatedCatalog.serve w db rq).2 !! d = Some entry
         ∨ (FederatedCatalog.serve w db rq).2 !! d = None)
  ∧ (∀ item, FederatedCatalog.item_data_id item = d →
       federated_authentic w (FederatedCatalog.item_user_id item) (publish_msg item)
         (FederatedCatalog.item_signature item) (FederatedCatalog.item_expire_time item) →
       FederatedCatalog.serve w db (FederatedCatalog.Add item)
       = (Some (HTTPException 400 "DataID already exists."), db)).
Proof.
  intros Hentry. split.
  - intros rq. destruct rq as [item|d0 req|d0| |uid]; simpl.
    + destruct (FederatedCatalog.add_entry w db item) as [[p db']|err] eqn:E;
        simpl; [|left; exact Hentry].
      apply add_entry_Return_iff in E as (_ & Hfree & _ & ->).
      left. rewrite lookup_insert_ne; [exact Hentry | congruence].
    + destruct (FederatedCatalog.delete_entry w db d0 req) as [[m db']|err] eqn:E;
        simpl; [|left; exact Hentry].
      apply delete_entry_Return_iff in E as (_ & _ & _ & ->).
      destruct (decide (d0 = d)) as [->|Hne].
      * right. apply lookup_delete_eq.
      * left. rewrite lookup_delete_ne by exact Hne. exact Hentry.
    + left. unfold FederatedCatalog.get_by_dataid. destruct (db !! d0); exact Hentry.
    + right. apply lookup_empty.
    + left. exact Hentry.
  - intros item <- (key & Hkey & Hfresh & Hsig). simpl. apply outcome_Raise.
    unfold FederatedCatalog.add_entry, publish_msg in *.
    rewrite Hkey. simpl. rewrite Hfresh. simpl. rewrite Hsig. simpl.
    rewrite bool_decide_eq_true_2 by eauto. reflexivity.
Qed.

Lemma catalog_entry_never_changes_witness :
  FederatedCatalog.serve Demo.morning Demo.federated
    (FederatedCatalog.Add Scenario.bob_publish_taken)
  = (Some (HTTPException 400 "DataID already exists."), Demo.federated).
Proof.
  destruct (catalog_entry_never_changes Demo.morning Demo.federated "edge_data_001"
              Demo.edge_data_001) as [_ Hdup].
  - vm_compute. reflexivity.
  - apply Hdup; [reflexivity|].
    exists (Some "PEM:bob"). repeat split; vm_compute; reflexivity.
Defined.



(** X11 (search by owner is exact).  [search_by_user_id] asks for no
    signature.  For an owner text that the database accepts in a query it
    commits nothing and lists an entry exactly when the catalog holds it
    with that owner, and no data_id twice. *)
Theorem search_by_user_id_is_exact (db : gmap string FederatedCatalog.FederatedCatalog)
    (uid : string) :
  storable uid = true →
  ∃ l, FederatedCatalog.search_by_user_id db uid = Return (l, db)
       ∧ NoDup (l.*1)
       ∧ ∀ d entry, (d, entry) ∈ l
                    ↔ db !! d = Some entry ∧ FederatedCatalog.user_id entry = uid.
Proof.
  intros _. eexists. split; [reflexivity|]. split.
  - apply NoDup_fmap_fst.
    + intros d e1 e2 H1 H2.
      apply list_elem_of_filter in H1 as [_ H1]. apply list_elem_of_filter in H2 as [_ H2].
      apply elem_of_map_to_list in H1. apply elem_of_map_to_list in H2. congruence.
    + apply NoDup_filter, NoDup_map_to_list.
  - intros d entry. rewrite list_elem_of_filter, elem_of_map_to_list. simpl. tauto.
Qed.

Lemma search_by_user_id_witness :
  ∃ l, FederatedCatalog.search_by_user_id Demo.federated "alice" = Return (l, Demo.federated)
       ∧ ("edge_data_001", Demo.edge_data_001) ∈ l.
Proof.
  destruct (search_by_user_id_is_exact Demo.federated "alice" eq_refl)
    as (l & Hl & _ & Hin).
  exists l. split; [exact Hl|]. apply Hin. split; vm_compute; reflexivity.
Defined.

(** ** The local catalog: characterisation of its handlers *)

Lemma add_data_Return_iff (w : World) (db : LocalCatalogAuthz.Tables)
    (item : LocalCatalogAuthz.DataItem) m db' :
  LocalCatalogAuthz.add_data w db item = Return (m, db') ↔
    (∃ desc, LocalCatalogAuthz.item_description item = Some desc
       ∧ local_authentic w (LocalCatalogAuthz.item_admin_id item)
           (resource_msg (LocalCatalogAuthz.item_data_id item) desc
              (LocalCatalogAuthz.item_admin_id item) (LocalCatalogAuthz.item_endpoint item)
              (LocalCatalogAuthz.item_expire_time item))
           (LocalCatalogAuthz.item_signature item)
           (LocalCatalogAuthz.item_expire_time item))
    ∧ LocalCatalogAuthz.local_catalog db !! LocalCatalogAuthz.item_data_id item = None
    ∧ m = "Data " +:+ LocalCatalogAuthz.item_data_id item +:+ " registered successfully."
    ∧ db' = {| LocalCatalogAuthz.local_catalog :=
                 <[LocalCatalogAuthz.item_data_id item := published_resource w item]>
                   (LocalCatalogAuthz.local_catalog db);
               LocalCatalogAuthz.local_authorization :=
                 LocalCatalogAuthz.local_authorization db |}.
Proof.
  unfold local_authentic, resource_msg, published_resource, LocalCatalogAuthz.add_data.
  split.
  - intros E.
    apply bind_Return in E as (b & Hb & E).
    pose proof (check_expire_time_Return _ _ _ Hb) as ->.
    apply bind_Return in E as (key & Hkey & E).
    apply bind_Return in E as (head & Hhead & E).
    apply bind_Return in E as (v & Hv & E).
    pose proof (federated_verify_Return _ _ _ _ _ Hv) as ->.
    apply bind_Return in E as (u & Hfree & E).
    apply raise_if_Return, bool_decide_eq_false in Hfree.
    injection E as <- <-.
    destruct (LocalCatalogAuthz.item_description item) as [desc|] eqn:Hdesc;
      [|discriminate Hhead].
    injection Hhead as <-.
    split; [|split; [|split; reflexivity]].
    + exists desc. split; [reflexivity|]. exists key. auto.
    + destruct (LocalCatalogAuthz.local_catalog db !! _);
        [destruct Hfree; eauto | reflexivity].
  - intros ((desc & Hdesc & key & Hkey & Hfresh & Hsig) & Hfree & -> & ->).
    rewrite Hfresh. simpl. rewrite Hkey. simpl. rewrite Hdesc. simpl.
    rewrite Hsig. simpl. rewrite Hfree.
    rewrite (bool_decide_eq_false_2 (is_Some None)) by (intros [? [=]]). reflexivity.
Qed.

Lemma add_authz_Return_iff (w : World) (db : LocalCatalogAuthz.Tables)
    (item : LocalCatalogAuthz.AuthZItem) m db' :
  LocalCatalogAuthz.add_authz w db item = Return (m, db') ↔
    grant_checks_pass w db item
    ∧ LocalCatalogAuthz.local_authorization db
        !! (LocalCatalogAuthz.authz_data_id item,
            LocalCatalogAuthz.authz_access_grantee_id item) = None
    ∧ ∃ dt,
        fromisoformat w (replace_char "Z" "+00:00" (LocalCatalogAuthz.authz_expire_at item))
          = Return dt
        ∧ m = "AuthZ added for " +:+ LocalCatalogAuthz.authz_access_grantee_id item
              +:+ " (expires " +:+ LocalCatalogAuthz.authz_expire_at item +:+ ")."
        ∧ db' = {| LocalCatalogAuthz.local_catalog := LocalCatalogAuthz.local_catalog db;
                   LocalCatalogAuthz.local_authorization :=
                     <[(LocalCatalogAuthz.authz_data_id item,
                        LocalCatalogAuthz.authz_access_grantee_id item)
                       := {| LocalCatalogAuthz.expire_at := dt;
                             LocalCatalogAuthz.authz_created_at := now_utc w |}]>
                       (LocalCatalogAuthz.local_authorization db) |}.
Proof.
  split.
  - unfold LocalCatalogAuthz.add_authz. intros E.
    apply bind_Return in E as (b & Hb & E).
    pose proof (check_expire_time_Return _ _ _ Hb) as ->.
    apply bind_Return in E as (admin & Hadmin & E).
    apply get_admin_id_Return in Hadmin as (entry & Hentry & <-).
    apply bind_Return in E as (key & Hkey & E).
    apply bind_Return in E as (v & Hv & E).
    pose proof (federated_verify_Return _ _ _ _ _ Hv) as ->.
    apply bind_Return in E as (u1 & _ & E).
    apply bind_Return in E as (u2 & Hdup & E).
    apply raise_if_Return, bool_decide_eq_false in Hdup.
    apply bind_Return in E as (dt & Hdt & E).
    injection E as <- <-.
    split; [exists entry, key; auto|]. split.
    + destruct (LocalCatalogAuthz.local_authorization db !! _);
        [destruct Hdup; eauto | reflexivity].
    + exists dt. split; [|split; reflexivity].
      destruct (fromisoformat w _); [exact Hdt | discriminate Hdt].
  - intros ((entry & key & Hfresh & Hentry & Hkey & Hsig) & Hfree & dt & Hdt & -> & ->).
    destruct (add_authz_fresh_pair w db item entry key dt Hfree Hfresh Hentry Hkey Hsig Hdt)
      as [m Hm].
    rewrite Hm. f_equal. f_equal.
    unfold LocalCatalogAuthz.add_authz in Hm.
    rewrite Hfresh in Hm. simpl in Hm.
    rewrite (get_admin_id_found _ _ _ _ Hentry) in Hm. simpl in Hm.
    rewrite Hkey in Hm. simpl in Hm. rewrite Hsig in Hm. simpl in Hm.
    rewrite Hentry in Hm.
    rewrite (bool_decide_eq_true_2 (is_Some (Some entry))) in Hm by eauto. simpl in Hm.
    rewrite Hfree in Hm.
    rewrite (bool_decide_eq_false_2 (is_Some None)) in Hm by (intros [? [=]]).
    simpl in Hm. rewrite Hdt in Hm. simpl in Hm. injection Hm as <-. reflexivity.
Qed.

Lemma delete_data_Return_iff (w : World) (db : LocalCatalogAuthz.Tables) (d : string)
    (req : LocalCatalogAuthz.SignedDeleteCatalogRequest) m db' :
  LocalCatalogAuthz.delete_data w db d req = Return (m, db') ↔
    (∃ entry desc,
       LocalCatalogAuthz.local_catalog db !! d = Some entry
       ∧ matches_record req entry
       ∧ LocalCatalogAuthz.del_description req = Some desc
       ∧ local_authentic w (LocalCatalogAuthz.admin_id entry)
           (resource_msg d desc (LocalCatalogAuthz.admin_id entry)
              (LocalCatalogAuthz.endpoint entry) (LocalCatalogAuthz.del_expire_time req))
           (LocalCatalogAuthz.del_signature req) (LocalCatalogAuthz.del_expire_time req))
    ∧ m = "Data " +:+ d +:+ " and related AuthZ entries deleted."
    ∧ db' = LocalCatalogAuthz.delete_cascade db d.
Proof.
  unfold local_authentic, resource_msg, matches_record, LocalCatalogAuthz.delete_data.
  split.
  - intros E.
    destruct (LocalCatalogAuthz.local_catalog db !! d) as [entry|]; [|discriminate E].
    apply bind_Return in E as (u & Hmatch & E).
    apply raise_if_Return in Hmatch.
    apply orb_false_iff in Hmatch as [Hmatch Hdesc].
    apply orb_false_iff in Hmatch as [Hmatch Hend].
    apply orb_false_iff in Hmatch as [_ Hadmin].
    apply bool_decide_eq_false in Hdesc, Hend, Hadmin.
    apply dec_stable in Hdesc, Hend, Hadmin.
    apply bind_Return in E as (b & Hb & E).
    pose proof (check_expire_time_Return _ _ _ Hb) as ->.
    apply bind_Return in E as (key & Hkey & E).
    apply bind_Return in E as (head & Hhead & E).
    apply bind_Return in E as (v & Hv & E).
    pose proof (federated_verify_Return _ _ _ _ _ Hv) as ->.
    injection E as <- <-.
    destruct (LocalCatalogAuthz.del_description req) as [desc|] eqn:Hd;
      [|discriminate Hhead].
    injection Hhead as <-.
    split; [|split; reflexivity].
    exists entry, desc. rewrite <- Hadmin, <- Hend. repeat split; auto.
    exists key. auto.
  - intros ((entry & desc & Hentry & (Hadmin & Hend & Hdesc) & Hd & key & Hkey & Hfresh
             & Hsig) & -> & ->).
    rewrite Hentry.
    rewrite (bool_decide_eq_false_2 (d ≠ d)) by (intros Hne; apply Hne; reflexivity).
    rewrite (bool_decide_eq_false_2 (_ ≠ LocalCatalogAuthz.admin_id entry))
      by (intros Hne; apply Hne; exact Hadmin).
    rewrite (bool_decide_eq_false_2 (_ ≠ LocalCatalogAuthz.endpoint entry))
      by (intros Hne; apply Hne; exact Hend).
    rewrite (bool_decide_eq_false_2 (or_empty _ ≠ _))
      by (intros Hne; apply Hne; exact Hdesc).
    simpl. rewrite Hfresh. simpl. rewrite Hadmin, Hkey. simpl. rewrite Hd. simpl.
    rewrite Hend, Hsig. reflexivity.
Qed.

Lemma delete_authz_Return_iff (w : World) (db : LocalCatalogAuthz.Tables) (d g : string)
    (req : LocalCatalogAuthz.SignedDeleteAuthZRequest) m db' :
  LocalCatalogAuthz.delete_authz w db d g req = Return (m, db') ↔
    is_Some (LocalCatalogAuthz.local_authorization db !! (d, g))
    ∧ (∃ entry, LocalCatalogAuthz.local_catalog db !! d = Some entry
         ∧ local_authentic w (LocalCatalogAuthz.admin_id entry) (revoke_grant_msg d g req)
             (LocalCatalogAuthz.delz_signature req)
             (LocalCatalogAuthz.delz_expire_time req))
    ∧ m = "AuthZ for " +:+ g +:+ " on " +:+ d +:+ " deleted."
    ∧ db' = {| LocalCatalogAuthz.local_catalog := LocalCatalogAuthz.local_catalog db;
               LocalCatalogAuthz.local_authorization :=
                 delete (d, g) (LocalCatalogAuthz.local_authorization db) |}.
Proof.
  unfold local_authentic, revoke_grant_msg, LocalCatalogAuthz.delete_authz. split.
  - intros E.
    destruct (LocalCatalogAuthz.local_authorization db !! (d, g)) as [auth|];
      [|discriminate E].
    apply bind_Return in E as (b & Hb & E).
    pose proof (check_expire_time_Return _ _ _ Hb) as ->.
    apply bind_Return in E as (admin & Hadmin & E).
    apply get_admin_id_Return in Hadmin as (entry & Hentry & <-).
    apply bind_Return in E as (key & Hkey & E).
    apply bind_Return in E as (v & Hv & E).
    pose proof (federated_verify_Return _ _ _ _ _ Hv) as ->.
    injection E as <- <-. repeat split; eauto 10.
  - intros ([auth Hauth] & (entry & Hentry & key & Hkey & Hfresh & Hsig) & -> & ->).
    rewrite Hauth, Hfresh. simpl. rewrite (get_admin_id_found _ _ _ _ Hentry). simpl.
    rewrite Hkey. simpl. rewrite Hsig. reflexivity.
Qed.

Lemma get_data_Return_iff (w : World) (db : LocalCatalogAuthz.Tables) (d : string)
    (req : LocalCatalogAuthz.SignedGetRequest) p db' :
  LocalCatalogAuthz.get_data w db d req = Return (p, db') ↔
    (∃ entry, LocalCatalogAuthz.local_catalog db !! d = Some entry
       ∧ LocalCatalogAuthz.get_admin_id req = LocalCatalogAuthz.admin_id entry
       ∧ p = (d, entry))
    ∧ local_authentic w (LocalCatalogAuthz.get_admin_id req)
        (LocalCatalogAuthz.get_expire_time req) (LocalCatalogAuthz.get_signature req)
        (LocalCatalogAuthz.get_expire_time req)
    ∧ db' = db.
Proof.
  unfold local_authentic, LocalCatalogAuthz.get_data. split.
  - intros E.
    destruct (LocalCatalogAuthz.local_catalog db !! d) as [entry|]; [|discriminate E].
    apply bind_Return in E as (u & Hadm & E).
    apply raise_if_Return, bool_decide_eq_false, dec_stable in Hadm.
    apply bind_Return in E as (b & Hb & E).
    pose proof (check_expire_time_Return _ _ _ Hb) as ->.
    apply bind_Return in E as (key & Hkey & E).
    apply bind_Return in E as (v & Hv & E).
    pose proof (federated_verify_Return _ _ _ _ _ Hv) as ->.
    injection E as <- <-. repeat split; eauto 10.
  - intros ((entry & Hentry & Hadm & ->) & (key & Hkey & Hfresh & Hsig) & ->).
    rewrite Hentry.
    rewrite bool_decide_eq_false_2 by (intros Hne; apply Hne; exact Hadm).
    simpl. rewrite Hfresh. simpl. rewrite Hkey. simpl. rewrite Hsig. reflexivity.
Qed.

Lemma timestamptz_now (w : World) : timestamptz (now_utc w) = clock w.
Proof. unfold timestamptz, now_utc, aware. simpl. lia. Qed.

Lemma get_authz_Return_iff (w : World) (db : LocalCatalogAuthz.Tables) (d : string)
    (req : LocalCatalogAuthz.SignedGetRequest) rep db' :
  LocalCatalogAuthz.get_authz w db d req = Return (rep, db') ↔
    (∃ entry, LocalCatalogAuthz.local_catalog db !! d = Some entry
       ∧ LocalCatalogAuthz.get_admin_id req = LocalCatalogAuthz.admin_id entry)
    ∧ local_authentic w (LocalCatalogAuthz.get_admin_id req)
        (LocalCatalogAuthz.get_expire_time req) (LocalCatalogAuthz.get_signature req)
        (LocalCatalogAuthz.get_expire_time req)
    ∧ rep = {| LocalCatalogAuthz.report_data_id := d;
               LocalCatalogAuthz.valid_authz_count :=
                 length (LocalCatalogAuthz.valid_authz db d (clock w));
               LocalCatalogAuthz.report_valid_authz :=
                 LocalCatalogAuthz.valid_authz db d (clock w) |}
    ∧ db' = db.
Proof.
  unfold local_authentic, LocalCatalogAuthz.get_authz. split.
  - intros E.
    destruct (LocalCatalogAuthz.local_catalog db !! d) as [entry|]; [|discriminate E].
    apply bind_Return in E as (u & Hadm & E).
    apply raise_if_Return, bool_decide_eq_false, dec_stable in Hadm.
    apply bind_Return in E as (b & Hb & E).
    pose proof (check_expire_time_Return _ _ _ Hb) as ->.
    apply bind_Return in E as (key & Hkey & E).
    apply bind_Return in E as (v & Hv & E).
    pose proof (federated_verify_Return _ _ _ _ _ Hv) as ->.
    rewrite timestamptz_now in E.
    injection E as <- <-. repeat split; eauto 10.
  - intros ((entry & Hentry & Hadm) & (key & Hkey & Hfresh & Hsig) & -> & ->).
    rewrite Hentry.
    rewrite bool_decide_eq_false_2 by (intros Hne; apply Hne; exact Hadm).
    rewrite timestamptz_now.
    simpl. rewrite Hfresh. simpl. rewrite Hkey. simpl. rewrite Hsig. reflexivity.
Qed.

(** ** The local catalog: publishing, reading, revoking *)

(** X12 (publish, then read).  For an item whose texts the database can
    store: [add_data] succeeds when the request carries a description, is
    authentic for the claimed administrator and names a free data_id, and
    only then.  When it has succeeded, the data_id holds a record with the
    description, administrator and endpoint of the request; a read by that
    administrator that is authentic (the signature is over the read's
    [expire_time] alone) returns that record, whenever it is made; the
    grants and every other resource are as before. *)
Theorem publish_resource_then_read (w : World) (db : LocalCatalogAuthz.Tables)
    (item : LocalCatalogAuthz.DataItem) :
  forallb storable (resource_texts item) = true →
  ((∃ desc, LocalCatalogAuthz.item_description item = Some desc
      ∧ local_authentic w (LocalCatalogAuthz.item_admin_id item)
          (resource_msg (LocalCatalogAuthz.item_data_id item) desc
             (LocalCatalogAuthz.item_admin_id item)
             (LocalCatalogAuthz.item_endpoint item)
             (LocalCatalogAuthz.item_expire_time item))
          (LocalCatalogAuthz.item_signature item)
          (LocalCatalogAuthz.item_expire_time item))
   ∧ LocalCatalogAuthz.local_catalog db !! LocalCatalogAuthz.item_data_id item = None
   ↔ ∃ m db', LocalCatalogAuthz.add_data w db item = Return (m, db'))
  ∧ (∀ m db', LocalCatalogAuthz.add_data w db item = Return (m, db') →
       m = "Data " +:+ LocalCatalogAuthz.item_data_id item +:+ " registered successfully."
       ∧ (∃ entry,
            published_as item entry
            ∧ LocalCatalogAuthz.local_catalog db' !! LocalCatalogAuthz.item_data_id item
              = Some entry
            ∧ ∀ w2 req,
                LocalCatalogAuthz.get_admin_id req = LocalCatalogAuthz.item_admin_id item →
                local_authentic w2 (LocalCatalogAuthz.get_admin_id req)
                  (LocalCatalogAuthz.get_expire_time req)
                  (LocalCatalogAuthz.get_signature req)
                  (LocalCatalogAuthz.get_expire_time req) →
                LocalCatalogAuthz.get_data w2 db' (LocalCatalogAuthz.item_data_id item) req
                = Return ((LocalCatalogAuthz.item_data_id item, entry), db'))
       ∧ LocalCatalogAuthz.local_authorization db'
         = LocalCatalogAuthz.local_authorization db
       ∧ ∀ d, d ≠ LocalCatalogAuthz.item_data_id item →
              LocalCatalogAuthz.local_catalog db' !! d
              = LocalCatalogAuthz.local_catalog db !! d).
Proof.
  intros _. split.
  - split.
    + intros [Hauth Hfree]. do 2 eexists. apply add_data_Return_iff.
      split; [exact Hauth|]. split; [exact Hfree|]. split; reflexivity.
    + intros (m & db' & E). apply add_data_Return_iff in E as (Hauth & Hfree & _).
      split; assumption.
  - intros m db' E. apply add_data_Return_iff in E as (_ & _ & -> & ->).
    split; [reflexivity|]. split; [|split].
    + exists (published_resource w item).
      split; [repeat split|]. split; [apply lookup_insert_eq|].
      intros w2 req Hadm Hauth. apply get_data_Return_iff. simpl.
      split; [|split; [exact Hauth | reflexivity]].
      eexists. split; [apply lookup_insert_eq|]. split; [exact Hadm | reflexivity].
    + reflexivity.
    + intros d Hne. simpl. apply lookup_insert_ne. congruence.
Qed.

Lemma publish_resource_then_read_witness :
  ∃ db' entry,
    LocalCatalogAuthz.serve Demo.morning LocalCatalogAuthz.empty_tables
      (LocalCatalogAuthz.AddData Demo.alice_publish) = (None, db')
    ∧ published_as Demo.alice_publish entry
    ∧ LocalCatalogAuthz.get_data Demo.morning db' "sensor001" Demo.alice_get
      = Return (("sensor001", entry), db').
Proof.
  destruct (publish_resource_then_read Demo.morning LocalCatalogAuthz.empty_tables
              Demo.alice_publish eq_refl) as [_ Hread].
  destruct (LocalCatalogAuthz.add_data Demo.morning LocalCatalogAuthz.empty_tables
              Demo.alice_publish) as [[m db']|err] eqn:E;
    [|vm_compute in E; discriminate E].
  destruct (Hread m db' eq_refl) as (_ & (entry & Hpub & _ & Hget) & _).
  exists db', entry. split; [|split; [exact Hpub|]].
  - simpl. unfold outcome. rewrite E. reflexivity.
  - apply (Hget Demo.morning Demo.alice_get); [reflexivity|].
    exists (Some "PEM:alice"). repeat split; vm_compute; reflexivity.
Defined.

Lemma elem_of_valid_authz (db : LocalCatalogAuthz.Tables) (d : string) (now : Z)
    (g : string) (dt : datetime) :
  (g, dt) ∈ LocalCatalogAuthz.valid_authz db d now
  ↔ ∃ a, LocalCatalogAuthz.local_authorization db !! (d, g) = Some a
         ∧ LocalCatalogAuthz.expire_at a = dt
         ∧ now < timestamptz dt.
Proof.
  unfold LocalCatalogAuthz.valid_authz. rewrite list_elem_of_fmap. split.
  - intros ([[d2 g2] a] & [= -> ->] & Hin).
    apply list_elem_of_filter in Hin as [[Hd Hlt] Hin]. simpl in *. subst d2.
    apply elem_of_map_to_list in Hin. eauto.
  - intros (a & Ha & <- & Hlt). exists ((d, g), a). split; [reflexivity|].
    apply list_elem_of_filter. split; [split; [reflexivity | exact Hlt]|].
    apply elem_of_map_to_list. exact Ha.
Qed.

Lemma valid_authz_NoDup (db : LocalCatalogAuthz.Tables) (d : string) (now : Z) :
  NoDup ((LocalCatalogAuthz.valid_authz db d now).*1).
Proof.
  unfold LocalCatalogAuthz.valid_authz. rewrite <- list_fmap_compose.
  apply NoDup_fmap_2_strong; [|apply NoDup_filter, NoDup_map_to_list].
  intros [[d1 g1] a1] [[d2 g2] a2] H1 H2 Heq. simpl in Heq. subst g2.
  apply list_elem_of_filter in H1 as [[Hd1 _] H1].
  apply list_elem_of_filter in H2 as [[Hd2 _] H2]. simpl in *. subst d1 d2.
  apply elem_of_map_to_list in H1. apply elem_of_map_to_list in H2. congruence.
Qed.

(** X13 (reading the grants).  A successful [get_authz] commits nothing and
    reports exactly the grants of the data_id whose deadline is strictly
    after the current time: a grantee is listed with a deadline exactly when
    such a grant is on file, nobody is listed twice, and the count is the
    length of the list.  A grant whose deadline is the current instant or
    earlier stays on file but is not reported. *)
Theorem read_grants_is_exact (w : World) (db : LocalCatalogAuthz.Tables) (d : string)
    (req : LocalCatalogAuthz.SignedGetRequest) rep db' :
  LocalCatalogAuthz.get_authz w db d req = Return (rep, db') →
  db' = db
  ∧ LocalCatalogAuthz.report_data_id rep = d
  ∧ LocalCatalogAuthz.valid_authz_count rep
    = length (LocalCatalogAuthz.report_valid_authz rep)
  ∧ NoDup ((LocalCatalogAuthz.report_valid_authz rep).*1)
  ∧ (∀ g dt, (g, dt) ∈ LocalCatalogAuthz.report_valid_authz rep
             ↔ ∃ a, LocalCatalogAuthz.local_authorization db !! (d, g) = Some a
                    ∧ LocalCatalogAuthz.expire_at a = dt
                    ∧ clock w < timestamptz dt)
  ∧ (∀ g a, LocalCatalogAuthz.local_authorization db !! (d, g) = Some a →
            timestamptz (LocalCatalogAuthz.expire_at a) ≤ clock w →
            g ∉ (LocalCatalogAuthz.report_valid_authz rep).*1).
Proof.
  intros E. apply get_authz_Return_iff in E as (_ & _ & -> & ->). simpl.
  split; [reflexivity|]. split; [reflexivity|]. split; [reflexivity|].
  split; [apply valid_authz_NoDup|]. split.
  - intros g dt. apply elem_of_valid_authz.
  - intros g a Ha Hle Hin.
    apply list_elem_of_fmap in Hin as ([g2 dt] & -> & Hin). simpl in *.
    apply elem_of_valid_authz in Hin as (a2 & Ha2 & <- & Hlt).
    rewrite Ha in Ha2. injection Ha2 as <-. lia.
Qed.

Lemma read_grants_witness :
  ∃ rep,
    LocalCatalogAuthz.get_authz Demo.morning Demo.busy_tables "sensor001" Demo.alice_get
    = Return (rep, Demo.busy_tables)
    ∧ LocalCatalogAuthz.valid_authz_count rep = 2%nat
    ∧ ("carol", aware 46800) ∈ LocalCatalogAuthz.report_valid_authz rep.
Proof.
  destruct (LocalCatalogAuthz.get_authz Demo.morning Demo.busy_tables "sensor001"
              Demo.alice_get) as [[rep db']|err] eqn:E;
    [|vm_compute in E; discriminate E].
  destruct (read_grants_is_exact Demo.morning Demo.busy_tables "sensor001"
              Demo.alice_get rep db' E) as (-> & _ & Hcount & _ & Hlist & _).
  exists rep. split; [reflexivity|]. split.
  - vm_compute in E. injection E as <-. reflexivity.
  - apply Hlist. exists Demo.carol_grant. repeat split; vm_compute; reflexivity.
Defined.



Lemma local_reads_commit_nothing (w : World) (db : LocalCatalogAuthz.Tables)
    (rq : LocalCatalogAuthz.request) :
  match rq with
  | LocalCatalogAuthz.GetData _ _ | LocalCatalogAuthz.GetAuthz _ _
  | LocalCatalogAuthz.DebugAll => (LocalCatalogAuthz.serve w db rq).2 = db
  | _ => True
  end.
Proof.
  destruct rq; simpl; auto using get_data_commits_nothing, get_authz_commits_nothing.
Qed.

(** X15 (every change of a resource is signed by its administrator).
    Whenever a request changes what the local catalog holds for a data_id,
    it is [reset_all], or an authentic [add_data] for a free data_id, whose
    signer becomes the administrator, or a [delete_data] that agrees with
    the stored record and is authentic for the stored administrator. *)
Theorem resource_changes_are_signed (w : World) (db : LocalCatalogAuthz.Tables)
    (rq : LocalCatalogAuthz.request) (d : string) :
  LocalCatalogAuthz.local_catalog (LocalCatalogAuthz.serve w db rq).2 !! d
    ≠ LocalCatalogAuthz.local_catalog db !! d →
  rq = LocalCatalogAuthz.Reset
  ∨ (∃ item desc, rq = LocalCatalogAuthz.AddData item
       ∧ LocalCatalogAuthz.item_data_id item = d
       ∧ LocalCatalogAuthz.local_catalog db !! d = None
       ∧ LocalCatalogAuthz.item_description item = Some desc
       ∧ local_authentic w (LocalCatalogAuthz.item_admin_id item)
           (resource_msg d desc (LocalCatalogAuthz.item_admin_id item)
              (LocalCatalogAuthz.item_endpoint item)
              (LocalCatalogAuthz.item_expire_time item))
           (LocalCatalogAuthz.item_signature item)
           (LocalCatalogAuthz.item_expire_time item)
       ∧ LocalCatalogAuthz.local_catalog (LocalCatalogAuthz.serve w db rq).2 !! d
         = Some (published_resource w item))
  ∨ (∃ req entry desc, rq = LocalCatalogAuthz.DeleteData d req
       ∧ LocalCatalogAuthz.local_catalog db !! d = Some entry
       ∧ matches_record req entry
       ∧ LocalCatalogAuthz.del_description req = Some desc
       ∧ local_authentic w (LocalCatalogAuthz.admin_id entry)
           (resource_msg d desc (LocalCatalogAuthz.admin_id entry)
              (LocalCatalogAuthz.endpoint entry) (LocalCatalogAuthz.del_expire_time req))
           (LocalCatalogAuthz.del_signature req) (LocalCatalogAuthz.del_expire_time req)
       ∧ LocalCatalogAuthz.local_catalog (LocalCatalogAuthz.serve w db rq).2 !! d = None).
Proof.
  intros Hchg.
  destruct rq as [item|item|d0 req|d0 req|d0 req|d0 g req| |].
  - right. left. simpl in *.
    destruct (LocalCatalogAuthz.add_data w db item) as [[m db']|err] eqn:E;
      simpl in *; [|congruence].
    apply add_data_Return_iff in E as ((desc & Hdesc & Hauth) & Hfree & _ & ->).
    simpl in *.
    destruct (decide (LocalCatalogAuthz.item_data_id item = d)) as [<-|Hne].
    + exists item, desc. rewrite lookup_insert_eq. auto 10.
    + rewrite lookup_insert_ne in Hchg by exact Hne. congruence.
  - simpl in *.
    destruct (LocalCatalogAuthz.add_authz w db item) as [[m db']|err] eqn:E;
      simpl in *; [|congruence].
    apply add_authz_Return_iff in E as (_ & _ & dt & _ & _ & ->). simpl in *. congruence.
  - pose proof (local_reads_commit_nothing w db (LocalCatalogAuthz.GetData d0 req)) as H.
    simpl in H. simpl in Hchg. rewrite H in Hchg. congruence.
  - pose proof (local_reads_commit_nothing w db (LocalCatalogAuthz.GetAuthz d0 req)) as H.
    simpl in H. simpl in Hchg. rewrite H in Hchg. congruence.
  - right. right. simpl in *.
    destruct (LocalCatalogAuthz.delete_data w db d0 req) as [[m db']|err] eqn:E;
      simpl in *; [|congruence].
    apply delete_data_Return_iff
      in E as ((entry & desc & Hentry & Hmatch & Hdesc & Hauth) & _ & ->).
    simpl in *.
    destruct (decide (d0 = d)) as [->|Hne].
    + exists req, entry, desc. rewrite lookup_delete_eq. auto 10.
    + rewrite lookup_delete_ne in Hchg by exact Hne. congruence.
  - simpl in *.
    destruct (LocalCatalogAuthz.delete_authz w db d0 g req) as [[m db']|err] eqn:E;
      simpl in *; [|congruence].
    apply delete_authz_Return_iff in E as (_ & _ & _ & ->). simpl in *. congruence.
  - simpl in Hchg. congruence.
  - left. reflexivity.
Qed.

Lemma resource_changes_witness :
  local_authentic Demo.morning "alice"
    (resource_msg "sensor001" "Temperature sensor dataset" "alice"
       "http://edge.local/sensor001" Demo.one_o_clock)
    (LocalCatalogAuthz.del_signature Demo.alice_delete) Demo.one_o_clock.
Proof.
  destruct (resource_changes_are_signed Demo.morning Demo.busy_tables
              (LocalCatalogAuthz.DeleteData "sensor001" Demo.alice_delete) "sensor001")
    as [H|[(item & desc & H & _)
          |(req & entry & desc & Hrq & Hentry & _ & Hdesc & Hauth & _)]].
  - vm_compute. discriminate.
  - discriminate H.
  - discriminate H.
  - injection Hrq as <-. vm_compute in Hentry. injection Hentry as <-.
    vm_compute in Hdesc. injection Hdesc as <-. exact Hauth.
Defined.

(** X16 (every change of a grant is signed by the administrator).  Whenever
    a request changes what is on file for a pair (data_id, grantee), it is
    [reset_all], or an [add_authz] for the free pair that passes the checks
    against the key of the resource's stored administrator, or a
    [delete_authz] of the pair or a [delete_data] of the resource, each
    authentic for the stored administrator.  The grantee signs nothing. *)
Theorem grant_changes_are_signed (w : World) (db : LocalCatalogAuthz.Tables)
    (rq : LocalCatalogAuthz.request) (d g : string) :
  LocalCatalogAuthz.local_authorization (LocalCatalogAuthz.serve w db rq).2 !! (d, g)
    ≠ LocalCatalogAuthz.local_authorization db !! (d, g) →
  rq = LocalCatalogAuthz.Reset
  ∨ (∃ item, rq = LocalCatalogAuthz.AddAuthz item
       ∧ LocalCatalogAuthz.authz_data_id item = d
       ∧ LocalCatalogAuthz.authz_access_grantee_id item = g
       ∧ LocalCatalogAuthz.local_authorization db !! (d, g) = None
       ∧ grant_checks_pass w db item)
  ∨ (∃ req entry, rq = LocalCatalogAuthz.DeleteAuthz d g req
       ∧ LocalCatalogAuthz.local_catalog db !! d = Some entry
       ∧ local_authentic w (LocalCatalogAuthz.admin_id entry) (revoke_grant_msg d g req)
           (LocalCatalogAuthz.delz_signature req)
           (LocalCatalogAuthz.delz_expire_time req))
  ∨ (∃ req entry desc, rq = LocalCatalogAuthz.DeleteData d req
       ∧ LocalCatalogAuthz.local_catalog db !! d = Some entry
       ∧ LocalCatalogAuthz.del_description req = Some desc
       ∧ local_authentic w (LocalCatalogAuthz.admin_id entry)
           (resource_msg d desc (LocalCatalogAuthz.admin_id entry)
              (LocalCatalogAuthz.endpoint entry) (LocalCatalogAuthz.del_expire_time req))
           (LocalCatalogAuthz.del_signature req) (LocalCatalogAuthz.del_expire_time req)).
Proof.
  intros Hchg.
  destruct rq as [item|item|d0 req|d0 req|d0 req|d0 g0 req| |].
  - simpl in *.
    destruct (LocalCatalogAuthz.add_data w db item) as [[m db']|err] eqn:E;
      simpl in *; [|congruence].
    apply add_data_Return_iff in E as (_ & _ & _ & ->). simpl in *. congruence.
  - right. left. simpl in *.
    destruct (LocalCatalogAuthz.add_authz w db item) as [[m db']|err] eqn:E;
      simpl in *; [|congruence].
    apply add_authz_Return_iff in E as (Hpass & Hfree & dt & _ & _ & ->). simpl in *.
    destruct (decide ((LocalCatalogAuthz.authz_data_id item,
                       LocalCatalogAuthz.authz_access_grantee_id item) = (d, g)))
      as [[= <- <-]|Hne].
    + exists item. auto.
    + rewrite lookup_insert_ne in Hchg by exact Hne. congruence.
  - pose proof (local_reads_commit_nothing w db (LocalCatalogAuthz.GetData d0 req)) as H.
    simpl in H. simpl in Hchg. rewrite H in Hchg. congruence.
  - pose proof (local_reads_commit_nothing w db (LocalCatalogAuthz.GetAuthz d0 req)) as H.
    simpl in H. simpl in Hchg. rewrite H in Hchg. congruence.
  - right. right. right. simpl in *.
    destruct (LocalCatalogAuthz.delete_data w db d0 req) as [[m db']|err] eqn:E;
      simpl in *; [|congruence].
    apply delete_data_Return_iff
      in E as ((entry & desc & Hentry & _ & Hdesc & Hauth) & _ & ->).
    destruct (decide (d0 = d)) as [->|Hne].
    + exists req, entry, desc. auto.
    + rewrite cascade_keeps_other_grants in Hchg by congruence. congruence.
  - right. right. left. simpl in *.
    destruct (LocalCatalogAuthz.delete_authz w db d0 g0 req) as [[m db']|err] eqn:E;
      simpl in *; [|congruence].
    apply delete_authz_Return_iff in E as (_ & (entry & Hentry & Hauth) & _ & ->).
    simpl in *.
    destruct (decide ((d0, g0) = (d, g))) as [[= -> ->]|Hne].
    + exists req, entry. auto.
    + rewrite lookup_delete_ne in Hchg by exact Hne. congruence.
  - simpl in Hchg. congruence.
  - left. reflexivity.
Qed.

Lemma grant_changes_witness :
  grant_checks_pass Demo.morning Scenario.twin_tables Demo.alice_grant_bob.
Proof.
  destruct (grant_changes_are_signed Demo.morning Scenario.twin_tables
              (LocalCatalogAuthz.AddAuthz Demo.alice_grant_bob) "sensor001" "bob")
    as [H|[(item & Hrq & _ & _ & _ & Hpass)|[(req & entry & H & _)
                                            |(req & entry & desc & H & _)]]].
  - vm_compute. discriminate.
  - discriminate H.
  - injection Hrq as <-. exact Hpass.
  - discriminate H.
  - discriminate H.
Defined.





(** X19 (a resource is never altered).  No request changes a row of the
    local catalog: after any request an existing resource is exactly as it
    was, administrator included, or gone.  An authentic [add_data] for a
    data_id that is taken is refused with 400 "DataID already exists.". *)
Theorem resource_never_changes (w : World) (db : LocalCatalogAuthz.Tables) (d : string)
    (entry : LocalCatalogAuthz.LocalCatalog) :
  LocalCatalogAuthz.local_catalog db !! d = Some entry →
  (∀ rq, LocalCatalogAuthz.local_catalog (LocalCatalogAuthz.serve w db rq).2 !! d
         = Some entry
         ∨ LocalCatalogAuthz.local_catalog (LocalCatalogAuthz.serve w db rq).2 !! d
           = None)
  ∧ (∀ item desc,
       LocalCatalogAuthz.item_data_id item = d →
       LocalCatalogAuthz.item_description item = Some desc →
       local_authentic w (LocalCatalogAuthz.item_admin_id item)
         (resource_msg d desc (LocalCatalogAuthz.item_admin_id item)
            (LocalCatalogAuthz.item_endpoint item)
            (LocalCatalogAuthz.item_expire_time item))
         (LocalCatalogAuthz.item_signature item)
         (LocalCatalogAuthz.item_expire_time item) →
       LocalCatalogAuthz.serve w db (LocalCatalogAuthz.AddData item)
       = (Some (HTTPException 400 "DataID already exists."), db)).
Proof.
  intros Hentry. split.
  - intros rq. destruct rq as [item|item|d0 req|d0 req|d0 req|d0 g req| |].
    + simpl.
      destruct (LocalCatalogAuthz.add_data w db item) as [[m db']|err] eqn:E;
        simpl; [|left; exact Hentry].
      apply add_data_Return_iff in E as (_ & Hfree & _ & ->). simpl.
      left. rewrite lookup_insert_ne; [exact Hentry | congruence].
    + simpl.
      destruct (LocalCatalogAuthz.add_authz w db item) as [[m db']|err] eqn:E;
        simpl; [|left; exact Hentry].
      apply add_authz_Return_iff in E as (_ & _ & dt & _ & _ & ->). simpl.
      left. exact Hentry.
    + pose proof (local_reads_commit_nothing w db (LocalCatalogAuthz.GetData d0 req))
        as H. simpl in H. simpl. rewrite H. left. exact Hentry.
    + pose proof (local_reads_commit_nothing w db (LocalCatalogAuthz.GetAuthz d0 req))
        as H. simpl in H. simpl. rewrite H. left. exact Hentry.
    + simpl.
      destruct (LocalCatalogAuthz.delete_data w db d0 req) as [[m db']|err] eqn:E;
        simpl; [|left; exact Hentry].
      apply delete_data_Return_iff in E as (_ & _ & ->). simpl.
      destruct (decide (d0 = d)) as [->|Hd].
      * right. apply lookup_delete_eq.
      * left. rewrite lookup_delete_ne by exact Hd. exact Hentry.
    + simpl.
      destruct (LocalCatalogAuthz.delete_authz w db d0 g req) as [[m db']|err] eqn:E;
        simpl; [|left; exact Hentry].
      apply delete_authz_Return_iff in E as (_ & _ & _ & ->). simpl. left. exact Hentry.
    + left. exact Hentry.
    + right. apply lookup_empty.
  - intros item desc <- Hdesc (key & Hkey & Hfresh & Hsig). simpl. apply outcome_Raise.
    unfold LocalCatalogAuthz.add_data, resource_msg in *.
    rewrite Hfresh. simpl. rewrite Hkey. simpl. rewrite Hdesc. simpl. rewrite Hsig. simpl.
    rewrite bool_decide_eq_true_2 by eauto. reflexivity.
Qed.

Lemma resource_never_changes_witness :
  LocalCatalogAuthz.serve Demo.morning Demo.tables
    (LocalCatalogAuthz.AddData Demo.alice_publish)
  = (Some (HTTPException 400 "DataID already exists."), Demo.tables).
Proof.
  destruct (resource_never_changes Demo.morning Demo.tables "sensor001" Demo.sensor001)
    as [_ Hdup].
  - vm_compute. reflexivity.
  - apply (Hdup Demo.alice_publish "Temperature sensor dataset");
      [reflexivity | reflexivity |].
    exists (Some "PEM:alice"). repeat split; vm_compute; reflexivity.
Defined.

(** ** What a signature covers *)




(** X21 (a read signature is not bound to a resource).  A read is signed
    over its [expire_time] alone.  So a request that [get_data] accepts for
    one resource is accepted, unchanged, by [get_data] and by [get_authz]
    for every resource of the same administrator. *)
Theorem read_signature_fits_every_resource (w : World) (db : LocalCatalogAuthz.Tables)
    (d1 d2 : string) (req : LocalCatalogAuthz.SignedGetRequest) p db1
    (e2 : LocalCatalogAuthz.LocalCatalog) :
  LocalCatalogAuthz.get_data w db d1 req = Return (p, db1) →
  LocalCatalogAuthz.local_catalog db !! d2 = Some e2 →
  LocalCatalogAuthz.admin_id e2 = LocalCatalogAuthz.get_admin_id req →
  LocalCatalogAuthz.get_data w db d2 req = Return ((d2, e2), db)
  ∧ ∃ rep, LocalCatalogAuthz.get_authz w db d2 req = Return (rep, db)
           ∧ LocalCatalogAuthz.report_valid_authz rep
             = LocalCatalogAuthz.valid_authz db d2 (clock w).
Proof.
  intros E He2 Hadm. apply get_data_Return_iff in E as (_ & Hauth & _). split.
  - apply get_data_Return_iff. split; [|split; [exact Hauth | reflexivity]].
    exists e2. split; [exact He2|]. split; [symmetry; exact Hadm | reflexivity].
  - eexists. split.
    + apply get_authz_Return_iff. split; [|split; [exact Hauth|split; reflexivity]].
      exists e2. split; [exact He2 | symmetry; exact Hadm].
    + reflexivity.
Qed.

Lemma read_signature_witness :
  LocalCatalogAuthz.get_data Demo.morning Demo.busy_tables "camera002" Demo.alice_get
  = Return (("camera002", Demo.camera002), Demo.busy_tables).
Proof.
  destruct (LocalCatalogAuthz.get_data Demo.morning Demo.busy_tables "sensor001"
              Demo.alice_get) as [[p db1]|err] eqn:E;
    [|vm_compute in E; discriminate E].
  apply (read_signature_fits_every_resource Demo.morning Demo.busy_tables
           "sensor001" "camera002" Demo.alice_get p db1 Demo.camera002 E).
  - vm_compute. reflexivity.
  - reflexivity.
Defined.

(** ** The timestamps the connector writes *)

Lemma prefix_drop_chars (p s : string) :
  String.prefix p s = true → s = p +:+ drop_chars (String.length p) s.
Proof.
  revert s. induction p as [|a p IH]; intros s Hp.
  - destruct s; reflexivity.
  - destruct s as [|b s]; [discriminate Hp|]. simpl in Hp.
    destruct (Ascii.ascii_dec a b) as [->|]; [|discriminate Hp].
    change (String b s = String b (p +:+ drop_chars (String.length p) s)).
    f_equal. apply IH, Hp.
Qed.

Lemma replace_offset_round_trip (s : string) (k : nat) :
  no_Z s = true →
  replace_char "Z" "+00:00" (Connector.replace_from "+00:00" "Z" k s) = drop_chars k s.
Proof.
  revert k. induction s as [|c r IH]; intros k Hz.
  - destruct k; reflexivity.
  - simpl in Hz. apply andb_true_iff in Hz as [Hc Hr]. apply negb_true_iff in Hc.
    destruct k as [|k].
    + change (Connector.replace_from "+00:00" "Z" 0 (String c r))
        with (if String.prefix "+00:00" (String c r)
              then "Z" +:+ Connector.replace_from "+00:00" "Z" 5 r
              else String c (Connector.replace_from "+00:00" "Z" 0 r)).
      destruct (String.prefix "+00:00" (String c r)) eqn:Hp.
      * change (replace_char "Z" "+00:00"
                  ("Z" +:+ Connector.replace_from "+00:00" "Z" 5 r))
          with ("+00:00" +:+ replace_char "Z" "+00:00"
                               (Connector.replace_from "+00:00" "Z" 5 r)).
        rewrite (IH 5%nat Hr). apply prefix_drop_chars in Hp. symmetry. exact Hp.
      * change (replace_char "Z" "+00:00"
                  (String c (Connector.replace_from "+00:00" "Z" 0 r)))
          with (if Ascii.eqb c "Z"
                then "+00:00" +:+ replace_char "Z" "+00:00"
                                    (Connector.replace_from "+00:00" "Z" 0 r)
                else String c (replace_char "Z" "+00:00"
                                 (Connector.replace_from "+00:00" "Z" 0 r))).
        rewrite Hc, (IH 0%nat Hr). reflexivity.
    + change (Connector.replace_from "+00:00" "Z" (S k) (String c r))
        with (Connector.replace_from "+00:00" "Z" k r).
      apply IH, Hr.
Qed.

(** X22 (the connector's timestamp and the services' check).
    [iso_now_plus m] writes the instant [m] minutes from now with Z for the
    UTC offset, and [check_expire_time] puts the offset back before
    parsing.  When now and that instant are within datetime's range, its [isoformat]
    text holds no other Z and [fromisoformat] reads that text back, the
    services take the timestamp for exactly that instant: a request carrying
    it passes the expiry check as long as the clock reads at most [m]
    minutes more than when it was written, and is expired from the next
    microsecond on. *)
Theorem iso_now_plus_is_accepted (w : World) (minutes : Z) :
  Connector.datetime_min ≤ clock w ≤ Connector.datetime_max →
  Connector.datetime_min ≤ clock w + minutes * 60000000 ≤ Connector.datetime_max →
  no_Z (isoformat w (aware (clock w + minutes * 60000000))) = true →
  fromisoformat w (isoformat w (aware (clock w + minutes * 60000000)))
    = Return (aware (clock w + minutes * 60000000)) →
  ∃ s, Connector.iso_now_plus w minutes = Return s
       ∧ replace_char "Z" "+00:00" s
         = isoformat w (aware (clock w + minutes * 60000000))
       ∧ parsed_expiry w s = Some (clock w + minutes * 60000000)
       ∧ ∀ t, PublicKeyRegistry.check_expire_time (at_time w t) s
              = if bool_decide (clock w + minutes * 60000000 < t)
                then Raise Expired else Return true.
Proof.
  intros Hnow Hrange Hz Hparse.
  set (later := aware (clock w + minutes * 60000000)) in *.
  assert (Hdelta : Connector.timedelta_minutes minutes = Return (minutes * 60000000)).
  { unfold Connector.timedelta_minutes. simpl.
    rewrite bool_decide_eq_true_2; [reflexivity|].
    unfold Connector.datetime_min, Connector.datetime_max in *. split.
    - apply Z.div_le_lower_bound; lia.
    - apply Z.div_le_upper_bound; lia. }
  assert (Hadd : Connector.datetime_add (now_utc w) (minutes * 60000000) = Return later).
  { unfold Connector.datetime_add. simpl.
    rewrite bool_decide_eq_true_2 by exact Hrange. reflexivity. }
  assert (Hback : replace_char "Z" "+00:00"
                    (Connector.str_replace "+00:00" "Z" (isoformat w later))
                  = isoformat w later).
  { exact (replace_offset_round_trip _ 0 Hz). }
  assert (Hexp : parsed_expiry w (Connector.str_replace "+00:00" "Z" (isoformat w later))
                 = Some (clock w + minutes * 60000000)).
  { unfold parsed_expiry. rewrite Hback, Hparse. simpl. f_equal. lia. }
  exists (Connector.str_replace "+00:00" "Z" (isoformat w later)).
  split; [unfold Connector.iso_now_plus; rewrite Hdelta; simpl; rewrite Hadd; reflexivity|].
  split; [exact Hback|]. split; [exact Hexp|].
  intros t. apply (registry_check_expire_time (at_time w t)). exact Hexp.
Qed.

Lemma iso_now_plus_witness :
  Connector.iso_now_plus Scenario.epoch 5 = Return "1970-01-01T00:05:00Z"
  ∧ PublicKeyRegistry.check_expire_time (at_time Scenario.epoch 300000000)
      "1970-01-01T00:05:00Z" = Return true
  ∧ PublicKeyRegistry.check_expire_time (at_time Scenario.epoch 300000001)
      "1970-01-01T00:05:00Z" = Raise Expired.
Proof.
  destruct (iso_now_plus_is_accepted Scenario.epoch 5) as (s & Hs & _ & _ & Hcheck).
  - vm_compute. split; discriminate.
  - vm_compute. split; discriminate.
  - vm_compute. reflexivity.
  - vm_compute. reflexivity.
  - assert (Heq : s = "1970-01-01T00:05:00Z").
    { vm_compute in Hs. injection Hs as <-. reflexivity. }
    subst s. split; [vm_compute; reflexivity|]. split.
    + rewrite Hcheck. reflexivity.
    + rewrite Hcheck. reflexivity.
Defined.

(** ** Further failures *)



(** X24 (what key resolution can answer).  [get_public_key] returns exactly
    when the directory replies with status 200 and a JSON object, and then
    returns that object's "public_key" entry, which is None when the object
    has none.  Every failure, whether the request could not be made, the
    status was not 200 or the body was no JSON, leaves the function as an
    HTTPException with status 500: it never answers 403 or 404.  The
    federated and the local catalog do the same. *)
Theorem get_public_key_answers (w : World) (uid : string) :
  LocalCatalogAuthz.get_public_key w uid = FederatedCatalog.get_public_key w uid
  ∧ (∀ key, FederatedCatalog.get_public_key w uid = Return key ↔
       ∃ res data,
         requests_get w (FederatedCatalog.PUBLIC_KEY_REGISTRY_URL +:+ "/get/" +:+ uid)
           = Return res
         ∧ status_code_of res = 200
         ∧ json res = Return data
         ∧ key = data !! "public_key")
  ∧ (∀ err, FederatedCatalog.get_public_key w uid = Raise err →
       ∃ cause, err = HTTPException 500
                        ("Failed to fetch public key: " +:+ str_exn w cause)
                ∧ class_of err = ServerErrorResponse).
Proof.
  split; [reflexivity|]. unfold FederatedCatalog.get_public_key. split.
  - intros key. split.
    + destruct (requests_get w _) as [res|e]; simpl; [|discriminate].
      case_bool_decide as Hst; simpl; [discriminate|].
      destruct (json res) as [data|e] eqn:Hj; simpl; [|discriminate].
      intros [= <-]. exists res, data.
      repeat split; try assumption; apply dec_stable; exact Hst.
    + intros (res & data & Hres & Hst & Hj & ->). rewrite Hres. simpl.
      rewrite bool_decide_eq_false_2 by (intros Hne; apply Hne; exact Hst). simpl.
      rewrite Hj. reflexivity.
  - intros err.
    destruct (requests_get w _) as [res|e]; simpl.
    + case_bool_decide as Hst; simpl.
      * intros [= <-]. eexists. split; reflexivity.
      * destruct (json res) as [data|e]; simpl; [discriminate|].
        intros [= <-]. eexists. split; reflexivity.
    + intros [= <-]. eexists. split; reflexivity.
Qed.

Lemma get_public_key_witness :
  ∃ cause, HTTPException 500 "Failed to fetch public key: 403: Public key not found."
           = HTTPException 500
               ("Failed to fetch public key: " +:+ str_exn Demo.morning cause)
           ∧ class_of (HTTPException 500
                         "Failed to fetch public key: 403: Public key not found.")
             = ServerErrorResponse.
Proof.
  destruct (get_public_key_answers Demo.morning "carol") as (_ & _ & Hfail).
  apply Hfail. vm_compute. reflexivity.
Defined.

(** X25 (a signature that does not verify).  When the directory returns a
    key for the identity the catalog verifies against, the [expire_time] is
    accepted and the signature does not verify against that key, the
    request is refused with 403 "Invalid signature." and nothing is
    committed: [add_entry] and [delete_entry] of the federated catalog
    refuse before they look at the table, [add_data] of the local catalog
    when the request has a description, [add_authz] when the resource is on
    file. *)
Theorem unverified_signature_is_refused (w : World) (uid : string) key :
  FederatedCatalog.get_public_key w uid = Return key →
  (∀ db item,
     FederatedCatalog.item_user_id item = uid →
     FederatedCatalog.check_expire_time w (FederatedCatalog.item_expire_time item)
       = Return true →
     ecdsa_verify w key (publish_msg item) (FederatedCatalog.item_signature item)
       = Raise BadSignatureError →
     FederatedCatalog.serve w db (FederatedCatalog.Add item)
     = (Some (HTTPException 403 "Invalid signature."), db))
  ∧ (∀ db d req,
     FederatedCatalog.del_user_id req = uid →
     FederatedCatalog.check_expire_time w (FederatedCatalog.del_expire_time req)
       = Return true →
     ecdsa_verify w key (retract_msg d req) (FederatedCatalog.del_signature req)
       = Raise BadSignatureError →
     FederatedCatalog.serve w db (FederatedCatalog.Delete d req)
     = (Some (HTTPException 403 "Invalid signature."), db))
  ∧ (∀ db item desc,
     LocalCatalogAuthz.item_admin_id item = uid →
     LocalCatalogAuthz.item_description item = Some desc →
     LocalCatalogAuthz.check_expire_time w (LocalCatalogAuthz.item_expire_time item)
       = Return true →
     ecdsa_verify w key
       (resource_msg (LocalCatalogAuthz.item_data_id item) desc uid
          (LocalCatalogAuthz.item_endpoint item) (LocalCatalogAuthz.item_expire_time item))
       (LocalCatalogAuthz.item_signature item) = Raise BadSignatureError →
     LocalCatalogAuthz.serve w db (LocalCatalogAuthz.AddData item)
     = (Some (HTTPException 403 "Invalid signature."), db))
  ∧ (∀ db item entry,
     LocalCatalogAuthz.local_catalog db !! LocalCatalogAuthz.authz_data_id item
       = Some entry →
     LocalCatalogAuthz.admin_id entry = uid →
     LocalCatalogAuthz.check_expire_time w (LocalCatalogAuthz.authz_expire_time item)
       = Return true →
     ecdsa_verify w key (grant_msg item) (LocalCatalogAuthz.authz_signature item)
       = Raise BadSignatureError →
     LocalCatalogAuthz.serve w db (LocalCatalogAuthz.AddAuthz item)
     = (Some (HTTPException 403 "Invalid signature."), db)).
Proof.
  intros Hkey. split; [|split; [|split]].
  - intros db item <- Hfresh Hbad. simpl. apply outcome_Raise.
    unfold FederatedCatalog.add_entry. rewrite Hkey. simpl. rewrite Hfresh. simpl.
    unfold publish_msg in Hbad.
    rewrite (federated_verify_bad_signature _ _ _ _ Hbad). reflexivity.
  - intros db d req <- Hfresh Hbad. simpl. apply outcome_Raise.
    unfold FederatedCatalog.delete_entry. rewrite Hkey. simpl. rewrite Hfresh. simpl.
    unfold retract_msg in Hbad.
    rewrite (federated_verify_bad_signature _ _ _ _ Hbad). reflexivity.
  - intros db item desc <- Hdesc Hfresh Hbad. simpl. apply outcome_Raise.
    unfold LocalCatalogAuthz.add_data. rewrite Hfresh. simpl.
    rewrite (Hkey : LocalCatalogAuthz.get_public_key _ _ = _). simpl.
    rewrite Hdesc. simpl. unfold resource_msg in Hbad.
    rewrite (federated_verify_bad_signature _ _ _ _ Hbad
             : LocalCatalogAuthz.verify_signature _ _ _ _ = _). reflexivity.
  - intros db item entry Hentry <- Hfresh Hbad. simpl. apply outcome_Raise.
    unfold LocalCatalogAuthz.add_authz. rewrite Hfresh. simpl.
    rewrite (get_admin_id_found _ _ _ _ Hentry). simpl.
    rewrite (Hkey : LocalCatalogAuthz.get_public_key _ _ = _). simpl.
    unfold grant_msg in Hbad.
    rewrite (federated_verify_bad_signature _ _ _ _ Hbad
             : LocalCatalogAuthz.verify_signature _ _ _ _ = _). reflexivity.
Qed.

Lemma unverified_signature_witness :
  FederatedCatalog.serve Demo.morning Demo.federated
    (FederatedCatalog.Add Scenario.forged_publish_entry)
  = (Some (HTTPException 403 "Invalid signature."), Demo.federated).
Proof.
  destruct (unverified_signature_is_refused Demo.morning "alice" (Some "PEM:alice"))
    as (Hadd & _).
  - vm_compute. reflexivity.
  - apply Hadd; vm_compute; reflexivity.
Defined.
